(** * chatnay: the messaging core of [app.py], embedded in Rocq

    The Flask application keeps two tables, [User] and [Message], behind a
    SQLAlchemy session.  This development embeds the request handlers of
    [app.py] as functions over an explicit store, with the session (pending
    changes, [commit]) written out as a small state monad, and proves the
    properties of the messaging subsystem: conversation retrieval, the
    read flag, incremental polling, sending, and the admin operations that
    touch messages and accounts.  It goes on to the account side of the
    application: registration and sign-in, the profile forms, blocking and
    deactivation, and what holds of the accounts and the messages in every
    state the application reaches. *)

From Stdlib Require Import ZArith NArith List Bool String Ascii Lia.
From Stdlib Require Import DecimalString.
From Stdlib Require Import Permutation Sorted.
Import ListNotations.
Local Open Scope Z_scope.

(** ** Python strings

    A Python [str] is a sequence of Unicode code points. *)

Definition str := list N.

Definition lit (s : string) : str :=
  map N_of_ascii (list_ascii_of_string s).
Arguments lit s%_string.

Fixpoint str_eqb (a b : str) : bool :=
  match a, b with
  | [], [] => true
  | x :: a', y :: b' => N.eqb x y && str_eqb a' b'
  | _, _ => false
  end.

(** Truth value of a string: [if s] holds for the non-empty ones. *)
Definition truthy (s : str) : bool :=
  match s with [] => false | _ :: _ => true end.

(** [str.isspace] on one code point: the characters [str.strip()] removes. *)
Definition isspace (c : N) : bool :=
  (((9 <=? c) && (c <=? 13)) || ((28 <=? c) && (c <=? 32))
   || (c =? 133) || (c =? 160) || (c =? 5760)
   || ((8192 <=? c) && (c <=? 8202))
   || (c =? 8232) || (c =? 8233) || (c =? 8239) || (c =? 8287)
   || (c =? 12288))%N.

Fixpoint lstrip (s : str) : str :=
  match s with
  | c :: r => if isspace c then lstrip r else s
  | [] => []
  end.

Definition rstrip (s : str) : str := rev (lstrip (rev s)).

(** [s.strip()] *)
Definition strip (s : str) : str := rstrip (lstrip s).

(** [s.startswith(p)] *)
Fixpoint startswith (p s : str) : bool :=
  match p, s with
  | [], _ => true
  | x :: p', y :: s' => N.eqb x y && startswith p' s'
  | _ :: _, [] => false
  end.

(** [s.split(sep)] for a one-character separator. *)
Fixpoint split (sep : N) (s : str) : list str :=
  match s with
  | [] => [[]]
  | c :: r =>
      if N.eqb c sep then [] :: split sep r
      else match split sep r with
           | seg :: segs => (c :: seg) :: segs
           | [] => [[c]]
           end
  end.

Definition len (s : str) : Z := Z.of_nat (List.length s).

(** ** Values of the standard library and of the store driver

    [datetime] values are points on the UTC time line, compared as such. *)

Definition datetime := Z.

(** Library functions the handlers call.  Their tables (Unicode digits and
    case mapping, the password hash, the calendar) are outside [app.py];
    the handlers are embedded over any implementation of them. *)
Class Externals := {
  (** [int(s)]; [None] when it raises [ValueError] *)
  py_int : str -> option Z;
  (** the integer a text value is compared as against an [Integer] key
      column; [None] when it matches no integer key *)
  pk_of_text : str -> option Z;
  (** [s.lower()] *)
  str_lower : str -> str;
  (** [generate_password_hash(password)], with the salt it draws *)
  generate_password_hash : str -> str -> str;
  (** [check_password_hash(pwhash, password)] *)
  check_password_hash : str -> str -> bool;
  (** [t.strftime(fmt)] *)
  strftime : string -> datetime -> str;
  (** whether [UserMixin.is_authenticated] of a loaded account is its
      [is_active] or always true; the releases of Flask-Login differ *)
  authenticated_if_active : bool
}.

(** ** Data model *)

Record User := mkUser {
  u_id : Z;
  username : str;
  email : str;
  password_hash : str;
  profile_picture : str;
  bio : str;
  (** the [social_links] column holds [json.dumps] of this list and is read
      back with [json.loads] *)
  social_links : list (str * str);
  is_admin : bool;
  is_active : bool;
  is_blocked : bool;
  last_seen : datetime;
  created_at : datetime
}.

Record Message := mkMessage {
  m_id : Z;
  content : option str;
  media_url : option str;
  media_type : option str;
  is_read : bool;
  timestamp : datetime;
  sender_id : Z;
  receiver_id : Z
}.

(** A table is the list of its rows in the order the store scans them.
    The handlers never constrain that order; SQLite, the engine of the
    default [DATABASE_URL], scans a table in the order of its integer
    primary key. *)
Record Store := mkStore {
  users : list User;
  messages : list Message
}.

Definition empty_store : Store := mkStore [] [].

(** [User.can_chat] *)
Definition can_chat (u : User) : bool := is_active u && negb (is_blocked u).

(** Attribute assignments on a row. *)
Definition set_is_read (b : bool) (m : Message) : Message :=
  mkMessage (m_id m) (content m) (media_url m) (media_type m) b
            (timestamp m) (sender_id m) (receiver_id m).

Definition set_last_seen (t : datetime) (u : User) : User :=
  mkUser (u_id u) (username u) (email u) (password_hash u) (profile_picture u)
         (bio u) (social_links u) (is_admin u) (is_active u) (is_blocked u)
         t (created_at u).

Definition set_username (s : str) (u : User) : User :=
  mkUser (u_id u) s (email u) (password_hash u) (profile_picture u)
         (bio u) (social_links u) (is_admin u) (is_active u) (is_blocked u)
         (last_seen u) (created_at u).

Definition set_email (s : str) (u : User) : User :=
  mkUser (u_id u) (username u) s (password_hash u) (profile_picture u)
         (bio u) (social_links u) (is_admin u) (is_active u) (is_blocked u)
         (last_seen u) (created_at u).

Definition set_password_hash (s : str) (u : User) : User :=
  mkUser (u_id u) (username u) (email u) s (profile_picture u)
         (bio u) (social_links u) (is_admin u) (is_active u) (is_blocked u)
         (last_seen u) (created_at u).

Definition set_profile_picture (s : str) (u : User) : User :=
  mkUser (u_id u) (username u) (email u) (password_hash u) s
         (bio u) (social_links u) (is_admin u) (is_active u) (is_blocked u)
         (last_seen u) (created_at u).

Definition set_bio (s : str) (u : User) : User :=
  mkUser (u_id u) (username u) (email u) (password_hash u) (profile_picture u)
         s (social_links u) (is_admin u) (is_active u) (is_blocked u)
         (last_seen u) (created_at u).

Definition set_social_links (l : list (str * str)) (u : User) : User :=
  mkUser (u_id u) (username u) (email u) (password_hash u) (profile_picture u)
         (bio u) l (is_admin u) (is_active u) (is_blocked u)
         (last_seen u) (created_at u).

Definition set_is_blocked (b : bool) (u : User) : User :=
  mkUser (u_id u) (username u) (email u) (password_hash u) (profile_picture u)
         (bio u) (social_links u) (is_admin u) (is_active u) b
         (last_seen u) (created_at u).

Definition set_is_active (b : bool) (u : User) : User :=
  mkUser (u_id u) (username u) (email u) (password_hash u) (profile_picture u)
         (bio u) (social_links u) (is_admin u) b (is_blocked u)
         (last_seen u) (created_at u).

(** ** Table operations *)

(** [Model.query.get(pk)] *)
Definition get_user (st : Store) (pk : Z) : option User :=
  find (fun u => u_id u =? pk) (users st).

Definition get_message (st : Store) (pk : Z) : option Message :=
  find (fun m => m_id m =? pk) (messages st).

(** A loaded row object is identified by its primary key: every attribute
    assignment on it reaches the one row of the table with that key. *)
Definition update_user (pk : Z) (f : User -> User) (st : Store) : Store :=
  mkStore (map (fun u => if u_id u =? pk then f u else u) (users st))
          (messages st).

Definition update_message (pk : Z) (f : Message -> Message) (st : Store)
  : Store :=
  mkStore (users st)
          (map (fun m => if m_id m =? pk then f m else m) (messages st)).

(** The key an autoincrementing integer primary key gives a new row: one
    more than the largest key in the table. *)
Definition next_id (ids : list Z) : Z := 1 + fold_right Z.max 0 ids.

(** The values an [INTEGER] column holds and the driver binds: the signed
    64-bit integers.  Binding another one raises [OverflowError]. *)
Definition in_int64 (n : Z) : bool := (- 2 ^ 63 <=? n) && (n <? 2 ^ 63).

(** The engine places a new row somewhere in the scan order; SQLite, the
    engine the application configures by default, after the rows there
    are. *)
Definition insert_at {A} (pos : nat) (row : A) (tbl : list A) : list A :=
  firstn pos tbl ++ row :: skipn pos tbl.

(** [ORDER BY timestamp ASC]: a sort on the timestamp alone, which keeps
    rows of equal timestamp in scan order. *)
Fixpoint insert_by_timestamp (m : Message) (l : list Message) : list Message :=
  match l with
  | [] => [m]
  | x :: r =>
      if timestamp m <=? timestamp x then m :: l
      else x :: insert_by_timestamp m r
  end.

Definition order_by_timestamp (l : list Message) : list Message :=
  fold_right insert_by_timestamp [] l.

(** ** The session

    A handler reads and writes the session's view of the store; [commit]
    makes it durable, and what is pending when the request ends is rolled
    back. *)

Record Db := mkDb {
  durable : Store;
  pending : Store;
  n_commits : nat
}.

Definition Handler (A : Type) : Type := Db -> A * Db.

Definition ret {A} (a : A) : Handler A := fun d => (a, d).

Definition bind {A B} (h : Handler A) (k : A -> Handler B) : Handler B :=
  fun d => let (a, d') := h d in k a d'.

Declare Scope handler_scope.
Delimit Scope handler_scope with handler.
Notation "x <- h ;; k" := (bind h (fun x => k))
  (at level 61, h at next level, right associativity) : handler_scope.
Notation "h ;; k" := (bind h (fun _ => k))
  (at level 61, right associativity) : handler_scope.
Local Open Scope handler_scope.

(** Read through the session. *)
Definition query {A} (f : Store -> A) : Handler A :=
  fun d => (f (pending d), d).

(** Change rows in the session. *)
Definition modify (f : Store -> Store) : Handler unit :=
  fun d => (tt, mkDb (durable d) (f (pending d)) (n_commits d)).

(** [db.session.commit()] *)
Definition commit : Handler unit :=
  fun d => (tt, mkDb (pending d) (pending d) (S (n_commits d))).

(** What one request leaves behind: its result, the durable store, and the
    number of commits it issued. *)
Record Outcome (A : Type) := mkOutcome {
  result : A;
  store_after : Store;
  commits : nat
}.
Arguments mkOutcome {A}.
Arguments result {A}.
Arguments store_after {A}.
Arguments commits {A}.

Definition run {A} (h : Handler A) (st : Store) : Outcome A :=
  let (a, d) := h (mkDb st st 0%nat) in
  mkOutcome a (durable d) (n_commits d).

(** ** Requests and responses *)

(** A [flash(message, category)] carried to the next page. *)
Definition Flash : Type := str * string.

Definition flash (message : string) (category : string) : Flash :=
  (lit message, category).

(** An uploaded file as the handlers look at it. *)
Record FileStorage := mkFile {
  filename : str;
  file_size : Z
}.

(** [file and file.filename]: a [FileStorage] is true when it has a name. *)
Definition has_file (file : option FileStorage) : bool :=
  match file with
  | Some f => truthy (filename f)
  | None => false
  end.

(** What [cloudinary.uploader.upload] answers. *)
Inductive CloudinaryReply :=
| Uploaded (secure_url public_id : str)
| UploadRaised (error : str).

Inductive UploadResult :=
| UploadOk (url public_id resource_type : str)
| UploadFailed (error : str).

Inductive Exn := NotFound | AttributeError | IntegrityError | OverflowError.

(** [Message.to_dict] *)
Record MessageDict := mkDict {
  d_id : Z;
  d_content : option str;
  d_media_url : option str;
  d_media_type : option str;
  d_is_read : bool;
  d_timestamp : str;
  d_full_timestamp : str;
  d_sender_id : Z;
  d_receiver_id : Z;
  d_sender_username : str;
  d_sender_profile_pic : str
}.

Inductive Response :=
| Redirect (endpoint : string) (flashes : list Flash)
| RenderTemplate (template : string) (flashes : list Flash)
| RenderChat (target_user : User) (msgs : list Message)
| JsonError (error : str)
| JsonRaised (e : Exn)
| JsonSent (message : MessageDict) (public_id : option str)
| JsonMessages (msgs : list MessageDict)
| JsonSuccess
| Abort404
| Error500.

(** The error texts of [send_message], under the names the design gives
    them. *)
Definition NotReachable : str := lit "User tidak dapat dihubungi".
Definition EmptyMessage : str := lit "Pesan tidak boleh kosong".

Definition admin_username : str := lit "nayla_asyifa".
Definition admin_email : str := lit "nayla@example.com".
Definition admin_password : str := lit "admin123".
Definition default_avatar : str :=
  lit "https://res.cloudinary.com/dzfkklsza/image/upload/v1700000000/default_avatar.png".

(** ** Queries on the message table *)

(** The filter of [chat] and [get_messages]: the messages between [a] and
    [b], in either direction. *)
Definition in_conversation (a b : Z) (m : Message) : bool :=
  ((sender_id m =? a) && (receiver_id m =? b))
  || ((sender_id m =? b) && (receiver_id m =? a)).

(** A query loads row objects; an object is its primary key, and its
    attributes are read through the session. *)
Definition select (p : Message -> bool) (st : Store) : list Z :=
  map m_id (filter p (messages st)).

Definition select_ordered (p : Message -> bool) (st : Store) : list Z :=
  map m_id (order_by_timestamp (filter p (messages st))).

Definition load (st : Store) (keys : list Z) : list Message :=
  flat_map (fun k => match get_message st k with
                     | Some m => [m]
                     | None => []
                     end) keys.

(** [for msg in objs: msg.is_read = True] *)
Definition mark_read (keys : list Z) (st : Store) : Store :=
  fold_left (fun s k => update_message k (set_is_read true) s) keys st.

Fixpoint map_option {A B} (f : A -> option B) (l : list A) : option (list B) :=
  match l with
  | [] => Some []
  | a :: r =>
      match f a, map_option f r with
      | Some b, Some bs => Some (b :: bs)
      | _, _ => None
      end
  end.

(** [request.args.get(key, default, type=conv)]: the default when the key
    is absent or the conversion raises. *)
Definition args_get {A} (conv : str -> option A) (default : A)
  (raw : option str) : A :=
  match raw with
  | None => default
  | Some s => match conv s with
              | Some v => v
              | None => default
              end
  end.

Definition mem (s : str) (l : list string) : bool :=
  existsb (fun x => str_eqb s (lit x)) l.

(** The links of the profile forms: both fields filled, the scheme added
    when missing. *)
Definition collect_links (names urls : list str) : list (str * str) :=
  flat_map (fun nu =>
              let name := strip (fst nu) in
              let url := strip (snd nu) in
              if truthy name && truthy url then
                [(name,
                  if startswith (lit "http://") url
                     || startswith (lit "https://") url
                  then url else lit "https://" ++ url)]
              else [])
           (combine names urls).

Section Handlers.

Context {ext : Externals}.

Definition to_dict (st : Store) (m : Message) : option MessageDict :=
  match get_user st (sender_id m) with
  | None => None
  | Some sender =>
      Some (mkDict (m_id m) (content m) (media_url m) (media_type m)
                   (is_read m)
                   (strftime "%H:%M" (timestamp m))
                   (strftime "%d %b %Y %H:%M" (timestamp m))
                   (sender_id m) (receiver_id m)
                   (username sender) (profile_picture sender))
  end.

Definition file_extension (file : FileStorage) : str :=
  last (split 46%N (str_lower (filename file))) [].

Definition upload_to_cloudinary (file : FileStorage) (folder : string)
  (reply : CloudinaryReply) : UploadResult :=
  let resource_type :=
    if mem (file_extension file)
         ["jpg"; "jpeg"; "png"; "gif"; "webp"]%string
    then lit "image"
    else if mem (file_extension file)
              ["mp4"; "avi"; "mov"; "wmv"; "mkv"]%string
    then lit "video"
    else lit "auto" in
  match reply with
  | Uploaded secure_url public_id => UploadOk secure_url public_id resource_type
  | UploadRaised e => UploadFailed e
  end.

(** *** The authenticated principal and the decorators *)

(** [is_authenticated] of a loaded account.  The [is_active] it may read is
    the column: the class attribute of [User] hides the one of [UserMixin]. *)
Definition is_authenticated (u : User) : bool :=
  if authenticated_if_active then is_active u else true.

(** [current_user] when it [is_authenticated]: the account the session
    names; [None] when the request is anonymous, the account is gone, or it
    does not count as authenticated. *)
Definition current_user (cu : option Z) : Handler (option User) :=
  query (fun st => match cu with
                   | Some pk =>
                       match get_user st pk with
                       | Some u => if is_authenticated u then Some u else None
                       | None => None
                       end
                   | None => None
                   end).

(** [login_required]: the view runs for an authenticated principal, anyone
    else is sent to the login page. *)
Definition login_required (cu : option Z) (f : User -> Handler Response)
  : Handler Response :=
  me <- current_user cu ;;
  match me with
  | None =>
      ret (Redirect "login"
             [flash "Silakan login untuk mengakses halaman ini." "message"])
  | Some me => f me
  end.

(** [active_user_required] and [admin_required], under [login_required]:
    the principal is authenticated, the flag is left to check. *)
Definition active_user_required (me : User) (f : Handler Response)
  : Handler Response :=
  if negb (is_active me) then
    ret (Redirect "login"
           [flash "Akun Anda tidak aktif. Silakan hubungi admin." "error"])
  else f.

Definition admin_required (me : User) (f : Handler Response)
  : Handler Response :=
  if negb (is_admin me) then
    ret (Redirect "dashboard"
           [flash "Akses ditolak. Hanya admin yang dapat mengakses halaman ini."
                  "error"])
  else f.

(** [update_last_seen], run before each request. *)
Definition update_last_seen (cu : option Z) (now : datetime) : Handler unit :=
  me <- current_user cu ;;
  match me with
  | Some me => modify (update_user (u_id me) (set_last_seen now)) ;; commit
  | None => ret tt
  end.

(** *** Accounts *)

Definition new_user (st : Store) (name mail pwhash : str) (admin : bool)
  (now : datetime) : User :=
  mkUser (next_id (map u_id (users st))) name mail pwhash default_avatar
         [] [] admin true false now now.

Definition add_user (u : User) (st : Store) : Store :=
  mkStore (users st ++ [u]) (messages st).

Definition find_by_username (name : str) (st : Store) : option User :=
  find (fun u => str_eqb (username u) name) (users st).

Definition find_by_email (mail : str) (st : Store) : option User :=
  find (fun u => str_eqb (email u) mail) (users st).

(** [ensure_admin_exists]; the insert raises when the unique username or
    email is already taken by another row. *)
Definition ensure_admin_exists (salt : str) (now : datetime)
  : Handler (option Exn) :=
  admin <- query (fun st =>
             find (fun u => str_eqb (username u) admin_username && is_admin u)
                  (users st)) ;;
  match admin with
  | Some _ => ret None
  | None =>
      taken <- query (fun st =>
                 existsb (fun u => str_eqb (username u) admin_username
                                   || str_eqb (email u) admin_email)
                         (users st)) ;;
      if taken then ret (Some IntegrityError)
      else
        modify (fun st =>
                  add_user (new_user st admin_username admin_email
                              (generate_password_hash salt admin_password)
                              true now) st) ;;
        commit ;;
        ret None
  end.

(** [create_tables] on a new database. *)
Definition create_tables (salt : str) (now : datetime) : Store :=
  store_after (run (ensure_admin_exists salt now) empty_store).

Definition register (cu : option Z)
  (form_username form_email password confirm_password salt : str)
  (now : datetime) : Handler Response :=
  me <- current_user cu ;;
  match me with
  | Some _ => ret (Redirect "dashboard" [])
  | None =>
      let name := strip form_username in
      let mail := strip form_email in
      if negb (truthy name && truthy mail && truthy password
               && truthy confirm_password) then
        ret (RenderTemplate "register.html"
               [flash "Semua field harus diisi!" "error"])
      else if len name <? 3 then
        ret (RenderTemplate "register.html"
               [flash "Username harus minimal 3 karakter!" "error"])
      else if len password <? 6 then
        ret (RenderTemplate "register.html"
               [flash "Password harus minimal 6 karakter!" "error"])
      else if negb (str_eqb password confirm_password) then
        ret (RenderTemplate "register.html"
               [flash "Password tidak cocok!" "error"])
      else
        by_name <- query (find_by_username name) ;;
        match by_name with
        | Some _ =>
            ret (RenderTemplate "register.html"
                   [flash "Username sudah digunakan!" "error"])
        | None =>
            by_mail <- query (find_by_email mail) ;;
            match by_mail with
            | Some _ =>
                ret (RenderTemplate "register.html"
                       [flash "Email sudah digunakan!" "error"])
            | None =>
                modify (fun st =>
                          add_user (new_user st name mail
                                      (generate_password_hash salt password)
                                      false now) st) ;;
                commit ;;
                ret (Redirect "login"
                       [flash "Registrasi berhasil! Silakan login." "success"])
            end
        end
  end.

(** [dashboard]; the listing of the other accounts and their unread counts
    only reads. *)
Definition dashboard (cu : option Z) (salt : str) (now : datetime)
  : Handler Response :=
  login_required cu (fun me =>
  active_user_required me (
    raised <- ensure_admin_exists salt now ;;
    match raised with
    | Some _ => ret Error500
    | None => ret (RenderTemplate "dashboard.html" [])
    end)).

(** *** Messaging *)

(** [chat].  [user_id] is a key as the [int] converter of the route yields
    it and as the column holds it, from 0 to below 2^63; [get_or_404] is
    embedded on these keys, where a key no account has gives the 404.  From
    2^63 on the driver cannot bind the key and the lookup ends with the 500
    page instead, as [get_messages] below writes out. *)
Definition chat (cu : option Z) (user_id : Z) : Handler Response :=
  login_required cu (fun me =>
  active_user_required me (
    target <- query (fun st => get_user st user_id) ;;
    match target with
    | None => ret Abort404
    | Some target_user =>
        if negb (can_chat target_user) then
          ret (Redirect "dashboard"
                 [flash "User tidak dapat dihubungi." "error"])
        else
          msgs <- query (select_ordered (in_conversation (u_id me) user_id)) ;;
          unread_messages <-
            query (select (fun m => (receiver_id m =? u_id me)
                                    && (sender_id m =? user_id)
                                    && negb (is_read m))) ;;
          modify (mark_read unread_messages) ;;
          commit ;;
          rows <- query (fun st => load st msgs) ;;
          ret (RenderChat target_user rows)
    end)).

(** The size limit of an attachment, [16 * 1024 * 1024]. *)
Definition max_file_size : Z := 16 * 1024 * 1024.

(** [MAX_CONTENT_LENGTH].  The server reads no form from a longer body:
    [request.form] raises 413, inside the [try] of [send_message], and the
    [except] clause answers it as an error before a row is read or
    written. *)
Definition max_content_length : Z := 16 * 1024 * 1024.

Definition new_message (st : Store) (text : str) (url type : option str)
  (sender receiver : Z) (now : datetime) : Message :=
  mkMessage (next_id (map m_id (messages st)))
            (if truthy text then Some text else None)
            url type false now sender receiver.

Definition add_message (pos : nat) (m : Message) (st : Store) : Store :=
  mkStore (users st) (insert_at pos m (messages st)).

(** The insert of [send_message] once the attachment, if any, is stored. *)
Definition store_message (me receiver : User) (text : str)
  (url type public_id : option str) (pos : nat) (now : datetime)
  : Handler Response :=
  key <- query (fun st => next_id (map m_id (messages st))) ;;
  modify (fun st =>
            add_message pos
              (new_message st text url type (u_id me) (u_id receiver) now)
              st) ;;
  commit ;;
  d <- query (fun st => match get_message st key with
                        | Some m => to_dict st m
                        | None => None
                        end) ;;
  match d with
  | Some d => ret (JsonSent d public_id)
  | None => ret (JsonRaised AttributeError)
  end.

(** [send_message], from the fields of the form once the server has read
    it; a file of such a form came in a body within [max_content_length].
    The receiver comes as the text of the form field and is looked up, and
    stored, as the key it denotes. *)
Definition send_message (cu : option Z) (form_receiver_id : option str)
  (form_content : str) (file : option FileStorage) (reply : CloudinaryReply)
  (pos : nat) (now : datetime) : Handler Response :=
  login_required cu (fun me =>
  active_user_required me (
    let text := strip form_content in
    match form_receiver_id with
    | None => ret (JsonError (lit "Receiver ID diperlukan"))
    | Some rid =>
        if negb (truthy rid) then
          ret (JsonError (lit "Receiver ID diperlukan"))
        else
          receiver <- query (fun st => match pk_of_text rid with
                                       | Some pk => get_user st pk
                                       | None => None
                                       end) ;;
          match receiver with
          | None => ret (JsonError NotReachable)
          | Some receiver =>
              if negb (can_chat receiver) then ret (JsonError NotReachable)
              else if negb (truthy text) && negb (has_file file) then
                ret (JsonError EmptyMessage)
              else
                match file with
                | Some f =>
                    if truthy (filename f) then
                      if max_file_size <? file_size f then
                        ret (JsonError
                               (lit "File terlalu besar. Maksimal 16MB"))
                      else
                        match upload_to_cloudinary f "chat_app" reply with
                        | UploadOk url public_id resource_type =>
                            store_message me receiver text (Some url)
                              (Some resource_type) (Some public_id) pos now
                        | UploadFailed e =>
                            ret (JsonError
                                   (lit "Gagal mengupload file: " ++ e))
                        end
                    else
                      store_message me receiver text None None None pos now
                | None =>
                    store_message me receiver text None None None pos now
                end
          end
    end)).

(** [get_messages].  The query binds the counterpart's key and the cursor;
    when one of them is outside the range of the column the driver raises,
    nothing handles it, and the request ends with the 500 page. *)
Definition get_messages (cu : option Z) (user_id : Z)
  (arg_last_message_id : option str) : Handler Response :=
  login_required cu (fun me =>
  active_user_required me (
    let last_message_id := args_get py_int 0 arg_last_message_id in
    if negb (in_int64 user_id && in_int64 last_message_id) then ret Error500
    else
    msgs <- query (select_ordered
                     (fun m => in_conversation (u_id me) user_id m
                               && (last_message_id <? m_id m))) ;;
    unread_messages <-
      query (fun st =>
               filter (fun k => match get_message st k with
                                | Some m => (receiver_id m =? u_id me)
                                            && negb (is_read m)
                                | None => false
                                end) msgs) ;;
    modify (mark_read unread_messages) ;;
    (match unread_messages with
     | [] => ret tt
     | _ :: _ => commit
     end) ;;
    dicts <- query (fun st => map_option (to_dict st) (load st msgs)) ;;
    match dicts with
    | Some ds => ret (JsonMessages ds)
    | None => ret Error500
    end)).

Definition remove_message (pk : Z) (st : Store) : Store :=
  mkStore (users st) (filter (fun m => negb (m_id m =? pk)) (messages st)).

(** [delete_message]; the removal of the remote media object is a call to
    the media host and leaves the store alone.  What the lookup raises, the
    404 of [get_or_404] or the [OverflowError] of a key outside the range of
    the column, is caught and answered as an error. *)
Definition delete_message (cu : option Z) (message_id : Z)
  : Handler Response :=
  login_required cu (fun me =>
  active_user_required me (
    found <- query (fun st => get_message st message_id) ;;
    match found with
    | None =>
        ret (JsonRaised (if in_int64 message_id then NotFound
                         else OverflowError))
    | Some message =>
        if negb (sender_id message =? u_id me) && negb (is_admin me) then
          ret (JsonError (lit "Anda tidak memiliki akses"))
        else
          modify (remove_message (m_id message)) ;;
          commit ;;
          ret JsonSuccess
    end)).

(** *** Profile *)

Definition update_profile (cu : option Z) (form_bio : str)
  (social_names social_urls : list str) (picture : option FileStorage)
  (reply : CloudinaryReply) : Handler Response :=
  login_required cu (fun me =>
    modify (update_user (u_id me) (set_bio (strip form_bio))) ;;
    modify (update_user (u_id me)
              (set_social_links (collect_links social_names social_urls))) ;;
    failed <-
      match picture with
      | Some f =>
          if truthy (filename f) then
            if mem (file_extension f)
                 ["jpg"; "jpeg"; "png"; "gif"; "webp"]%string
            then
              match upload_to_cloudinary f "profile_pictures" reply with
              | UploadOk url _ _ =>
                  modify (update_user (u_id me) (set_profile_picture url)) ;;
                  ret []
              | UploadFailed _ =>
                  ret [flash "Gagal mengupload foto profil." "error"]
              end
            else
              ret [flash
                     "Format file tidak didukung. Gunakan JPG, PNG, atau GIF."
                     "error"]
          else ret []
      | None => ret []
      end ;;
    commit ;;
    ret (Redirect "profile"
           (failed ++ [flash "Profil berhasil diperbarui!" "success"]))).

Definition change_password (cu : option Z)
  (current_password new_password confirm_password salt : str)
  : Handler Response :=
  login_required cu (fun me =>
    if negb (check_password_hash (password_hash me) current_password) then
      ret (Redirect "profile" [flash "Password saat ini salah!" "error"])
    else if len new_password <? 6 then
      ret (Redirect "profile"
             [flash "Password baru harus minimal 6 karakter!" "error"])
    else if negb (str_eqb new_password confirm_password) then
      ret (Redirect "profile" [flash "Password baru tidak cocok!" "error"])
    else
      modify (update_user (u_id me)
                (set_password_hash
                   (generate_password_hash salt new_password))) ;;
      commit ;;
      ret (Redirect "profile" [flash "Password berhasil diubah!" "success"])).

(** *** Administration *)

Definition toggle_block_user (cu : option Z) (user_id : Z)
  : Handler Response :=
  login_required cu (fun me =>
  admin_required me (
    found <- query (fun st => get_user st user_id) ;;
    match found with
    | None => ret Abort404
    | Some user =>
        if is_admin user then
          ret (Redirect "admin_dashboard"
                 [flash "Tidak dapat memblokir admin lain!" "error"])
        else
          modify (update_user (u_id user)
                    (set_is_blocked (negb (is_blocked user)))) ;;
          commit ;;
          ret (Redirect "admin_dashboard"
                 [(lit "User " ++ username user ++ lit " berhasil "
                   ++ (if negb (is_blocked user) then lit "diblokir"
                       else lit "dibuka blokirnya") ++ lit "!",
                   "success"%string)])
    end)).

Definition toggle_active_user (cu : option Z) (user_id : Z)
  : Handler Response :=
  login_required cu (fun me =>
  admin_required me (
    found <- query (fun st => get_user st user_id) ;;
    match found with
    | None => ret Abort404
    | Some user =>
        if is_admin user then
          ret (Redirect "admin_dashboard"
                 [flash "Tidak dapat menonaktifkan admin lain!" "error"])
        else
          modify (update_user (u_id user)
                    (set_is_active (negb (is_active user)))) ;;
          commit ;;
          ret (Redirect "admin_dashboard"
                 [(lit "User " ++ username user ++ lit " berhasil "
                   ++ (if negb (negb (is_active user)) then lit "dinonaktifkan"
                       else lit "diaktifkan") ++ lit "!",
                   "success"%string)])
    end)).

(** The bulk delete of [delete_user]: every message the user sent or
    received. *)
Definition delete_messages_of (user_id : Z) (st : Store) : Store :=
  mkStore (users st)
          (filter (fun m => negb ((sender_id m =? user_id)
                                  || (receiver_id m =? user_id)))
                  (messages st)).

Definition remove_user (pk : Z) (st : Store) : Store :=
  mkStore (filter (fun u => negb (u_id u =? pk)) (users st)) (messages st).

Definition delete_user (cu : option Z) (user_id : Z) : Handler Response :=
  login_required cu (fun me =>
  admin_required me (
    found <- query (fun st => get_user st user_id) ;;
    match found with
    | None => ret Abort404
    | Some user =>
        if is_admin user then
          ret (Redirect "admin_dashboard"
                 [flash "Tidak dapat menghapus admin lain!" "error"])
        else
          modify (delete_messages_of user_id) ;;
          modify (remove_user (u_id user)) ;;
          commit ;;
          ret (Redirect "admin_dashboard"
                 [(lit "User " ++ username user ++ lit " berhasil dihapus!",
                   "success"%string)])
    end)).

(** The POST branch of [admin_settings]. *)
Definition admin_settings (cu : option Z)
  (form_username form_email form_bio : str)
  (social_names social_urls : list str) (picture : option FileStorage)
  (reply : CloudinaryReply) : Handler Response :=
  login_required cu (fun me =>
  admin_required me (
    let new_username := strip form_username in
    let new_email := strip form_email in
    name_taken <-
      (if negb (str_eqb new_username (username me)) then
         existing_user <- query (find_by_username new_username) ;;
         match existing_user with
         | Some _ => ret true
         | None =>
             modify (update_user (u_id me) (set_username new_username)) ;;
             ret false
         end
       else ret false) ;;
    if name_taken then
      ret (Redirect "admin_settings"
             [flash "Username sudah digunakan!" "error"])
    else
      email_taken <-
        (if negb (str_eqb new_email (email me)) then
           existing_email <- query (find_by_email new_email) ;;
           match existing_email with
           | Some _ => ret true
           | None =>
               modify (update_user (u_id me) (set_email new_email)) ;;
               ret false
           end
         else ret false) ;;
      if email_taken then
        ret (Redirect "admin_settings"
               [flash "Email sudah digunakan!" "error"])
      else
        modify (update_user (u_id me) (set_bio (strip form_bio))) ;;
        modify (update_user (u_id me)
                  (set_social_links
                     (collect_links social_names social_urls))) ;;
        (match picture with
         | Some f =>
             if truthy (filename f) then
               match upload_to_cloudinary f "profile_pictures" reply with
               | UploadOk url _ _ =>
                   modify (update_user (u_id me) (set_profile_picture url))
               | UploadFailed _ => ret tt
               end
             else ret tt
         | None => ret tt
         end) ;;
        commit ;;
        ret (Redirect "admin_settings"
               [flash "Pengaturan admin berhasil diperbarui!" "success"]))).

Definition delete_all_messages (cu : option Z) : Handler Response :=
  login_required cu (fun me =>
  admin_required me (
    num_messages <- query (fun st => List.length (messages st)) ;;
    modify (fun st => mkStore (users st) []) ;;
    commit ;;
    ret (Redirect "admin_dashboard"
           [(lit "Berhasil menghapus "
             ++ lit (NilZero.string_of_uint (Nat.to_uint num_messages))
             ++ lit " pesan!",
             "success"%string)]))).

(** *** One request

    What the client sends, and what the world around the handler answers
    while it runs. *)

Inductive Request :=
| PostRegister (form_username form_email password confirm_password : str)
| GetDashboard
| GetChat (user_id : Z)
| PostSendMessage (receiver_id : option str) (form_content : str)
    (file : option FileStorage)
| GetMessages (user_id : Z) (last_message_id : option str)
| PostDeleteMessage (message_id : Z)
| PostUpdateProfile (form_bio : str) (social_names social_urls : list str)
    (picture : option FileStorage)
| PostChangePassword (current_password new_password confirm_password : str)
| GetToggleBlock (user_id : Z)
| GetToggleActive (user_id : Z)
| GetDeleteUser (user_id : Z)
| PostAdminSettings (form_username form_email form_bio : str)
    (social_names social_urls : list str) (picture : option FileStorage)
| PostDeleteAllMessages
(** the routes that only read: login, logout, the profile pages, the admin
    dashboard, the settings form *)
| GetPage.

Record Env := mkEnv {
  (** the account the session cookie names *)
  session_user : option Z;
  (** [datetime.utcnow()] in [update_last_seen] *)
  clock : datetime;
  (** [datetime.utcnow()] when a row is inserted *)
  insert_clock : datetime;
  (** the salt of [generate_password_hash] *)
  salt : str;
  (** the answer of the media host *)
  cloudinary : CloudinaryReply;
  (** where the engine places an inserted message *)
  placement : nat
}.

Definition route (env : Env) (req : Request) : Handler Response :=
  let cu := session_user env in
  match req with
  | PostRegister n e p c => register cu n e p c (salt env) (insert_clock env)
  | GetDashboard => dashboard cu (salt env) (insert_clock env)
  | GetChat user_id => chat cu user_id
  | PostSendMessage rid text file =>
      send_message cu rid text file (cloudinary env) (placement env)
        (insert_clock env)
  | GetMessages user_id last => get_messages cu user_id last
  | PostDeleteMessage message_id => delete_message cu message_id
  | PostUpdateProfile b ns us pic =>
      update_profile cu b ns us pic (cloudinary env)
  | PostChangePassword c n k => change_password cu c n k (salt env)
  | GetToggleBlock user_id => toggle_block_user cu user_id
  | GetToggleActive user_id => toggle_active_user cu user_id
  | GetDeleteUser user_id => delete_user cu user_id
  | PostAdminSettings n e b ns us pic =>
      admin_settings cu n e b ns us pic (cloudinary env)
  | PostDeleteAllMessages => delete_all_messages cu
  | GetPage => ret (RenderTemplate "page" [])
  end.

(** A request as the application serves it: the [before_request] hook,
    then the route. *)
Definition serve (env : Env) (req : Request) : Handler Response :=
  update_last_seen (session_user env) (clock env) ;; route env req.

Definition step (env : Env) (req : Request) (st : Store) : Store :=
  store_after (run (serve env req) st).

(** The states the application reaches from a new database. *)
Inductive reachable : Store -> Prop :=
| reach_boot salt now : reachable (create_tables salt now)
| reach_step st env req : reachable st -> reachable (step env req st).

End Handlers.

(** * The rest of the account and inbox code *)

(** [User.get_unread_count]: the unread messages [sender] sent to [self]. *)
Definition get_unread_count (st : Store) (self : User) (sender : Z) : Z :=
  Z.of_nat (List.length
              (filter (fun m => (sender_id m =? sender)
                                && (receiver_id m =? u_id self)
                                && negb (is_read m))
                      (messages st))).

(** A [timedelta] of whole minutes; a [datetime] counts microseconds, the
    resolution of the values [datetime.utcnow()] gives. *)
Definition minutes (n : Z) : Z := n * 60 * 1000000.

(** [User.is_online] at the time [now]; [last_seen] is set on every row. *)
Definition is_online (now : datetime) (u : User) : bool :=
  now - minutes 5 <? last_seen u.

(** The accounts the query of [dashboard] selects for [me], before it
    orders them: everyone else for an admin, and for the others those who
    are active and not blocked. *)
Definition dashboard_rows (st : Store) (me : User) : list User :=
  if is_admin me then
    filter (fun u => negb (u_id u =? u_id me)) (users st)
  else
    filter (fun u => negb (u_id u =? u_id me) && is_active u
                     && negb (is_blocked u))
           (users st).

(** The [user_data] of [dashboard], up to the order of the listing: each
    selected account with the unread count [me] has for it. *)
Definition user_data (st : Store) (me : User) : list (User * Z) :=
  map (fun u => (u, get_unread_count st me (u_id u))) (dashboard_rows st me).

(** What [login] answers: a page or a redirect, or the account it logs in
    with [login_user], the flash and where it redirects ([None] for the
    dashboard). *)
Inductive LoginResult :=
| Answered (r : Response)
| LoggedIn (user_id : Z) (remember : bool) (flashes : list Flash)
    (next_page : option str).

Section Login.

Context {ext : Externals}.

(** [User.check_password] *)
Definition check_password (u : User) (password : str) : bool :=
  check_password_hash (password_hash u) password.

(** The POST branch of [login]. *)
Definition login (cu : option Z) (form_username password : str)
  (form_remember arg_next : option str) : Handler LoginResult :=
  me <- current_user cu ;;
  match me with
  | Some _ => ret (Answered (Redirect "dashboard" []))
  | None =>
      let name := strip form_username in
      let remember := match form_remember with
                      | Some r => truthy r
                      | None => false
                      end in
      found <- query (find_by_username name) ;;
      match found with
      | Some user =>
          if check_password user password then
            if negb (is_active user) then
              ret (Answered
                     (RenderTemplate "login.html"
                        [flash "Akun Anda tidak aktif. Silakan hubungi admin."
                               "error"]))
            else if is_blocked user then
              ret (Answered
                     (RenderTemplate "login.html"
                        [flash "Akun Anda diblokir. Silakan hubungi admin."
                               "error"]))
            else
              ret (LoggedIn (u_id user) remember
                     [(lit "Login berhasil! Selamat datang " ++ username user,
                       "success"%string)]
                     (match arg_next with
                      | Some n => if truthy n then Some n else None
                      | None => None
                      end))
          else
            ret (Answered
                   (RenderTemplate "login.html"
                      [flash "Username atau password salah!" "error"]))
      | None =>
          ret (Answered
                 (RenderTemplate "login.html"
                    [flash "Username atau password salah!" "error"]))
      end
  end.

End Login.

(** * Vocabulary of the properties *)

(** What [mark_read keys] does to one row. *)
Definition flipped (keys : list Z) (m : Message) : Message :=
  if existsb (Z.eqb (m_id m)) keys then set_is_read true m else m.

(** The rows of a key list that satisfy [q], read through the table. *)
Definition keys_where (st : Store) (q : Message -> bool) (keys : list Z)
  : list Z :=
  filter (fun k => match get_message st k with
                   | Some m => q m
                   | None => false
                   end) keys.

(** The order [chat] and [get_messages] ask for. *)
Definition by_timestamp (a b : Message) : Prop := timestamp a <= timestamp b.

(** The order the design asks of a conversation: by timestamp, ties by
    identifier. *)
Definition by_timestamp_then_id (a b : Message) : Prop :=
  timestamp a < timestamp b \/ (timestamp a = timestamp b /\ m_id a <= m_id b).

(** The cursor of [get_messages]: the query argument read as an integer,
    0 when it is absent or does not convert. *)
Definition cursor {ext : Externals} (arg : option str) : Z :=
  match arg with
  | Some s => match py_int s with
              | Some z => z
              | None => 0
              end
  | None => 0
  end.

(** The filter of [get_messages]. *)
Definition newer_in_conversation (v c last : Z) (m : Message) : bool :=
  in_conversation v c m && (last <? m_id m).

(** The rows [get_messages] flips: returned, addressed to the viewer,
    unread. *)
Definition unread_for (v c last : Z) (m : Message) : bool :=
  newer_in_conversation v c last m && (receiver_id m =? v) && negb (is_read m).

(** The messages that mention a user, as sender or as receiver. *)
Definition references (user_id : Z) (m : Message) : bool :=
  (sender_id m =? user_id) || (receiver_id m =? user_id).

(** A message of the conversation of [a] and [b], in either direction. *)
Definition between (a b : Z) (m : Message) : Prop :=
  (sender_id m = a /\ receiver_id m = b)
  \/ (sender_id m = b /\ receiver_id m = a).

(** The row [m] once it is read: [is_read] true, every other column its
    own. *)
Definition as_read (m : Message) : Message :=
  mkMessage (m_id m) (content m) (media_url m) (media_type m) true
            (timestamp m) (sender_id m) (receiver_id m).

(** What a client is told of the row [m]: its columns, its time in the two
    formats, and the name and the picture of the account that sent it. *)
Definition describes {ext : Externals} (accounts : list User) (m : Message)
  (d : MessageDict) : Prop :=
  d_id d = m_id m /\ d_content d = content m
  /\ d_media_url d = media_url m /\ d_media_type d = media_type m
  /\ d_is_read d = is_read m
  /\ d_timestamp d = strftime "%H:%M" (timestamp m)
  /\ d_full_timestamp d = strftime "%d %b %Y %H:%M" (timestamp m)
  /\ d_sender_id d = sender_id m /\ d_receiver_id d = receiver_id m
  /\ exists sender,
       In sender accounts /\ u_id sender = sender_id m
       /\ d_sender_username d = username sender
       /\ d_sender_profile_pic d = profile_picture sender.

(** A returned message the poll of viewer [v] has to flip: it is among
    the messages answered, addressed to [v], and unread. *)
Definition to_flip (ds : list MessageDict) (v : Z) (m : Message) : Prop :=
  In (m_id m) (map d_id ds) /\ receiver_id m = v /\ is_read m = false.

(** An accepted send: [row] was stored beside the messages there were,
    under one commit that touched no account, and answered with the key the
    media host gave the attachment. *)
Definition sent {ext : Externals} (st : Store) (out : Outcome Response)
  (row : Message) (public_id : option str) : Prop :=
  (exists d, result out = JsonSent d public_id
             /\ describes (users st) row d)
  /\ commits out = 1%nat
  /\ users (store_after out) = users st
  /\ Permutation (messages (store_after out)) (row :: messages st).

(** A text and a file, if any, of a form the server has read: they came,
    with the rest of the form, in a body within [max_content_length]. *)
Definition fits_body (text : str) (file : option FileStorage) : Prop :=
  Z.of_nat (List.length text)
  + match file with
    | Some f => file_size f
    | None => 0
    end < max_content_length.

(** A table the engine scans in key order, as SQLite, the engine the
    application configures by default, scans a table with an integer
    primary key. *)
Definition key_ordered (tbl : list Message) : Prop :=
  StronglySorted (fun a b => m_id a < m_id b) tbl.

(** The message table after a request of [who]: untouched, some rows
    addressed to [who] flipped to read, one row inserted under a new key,
    or rows deleted. *)
Inductive message_effect (who : option Z) (tbl : list Message)
  : list Message -> Prop :=
| effect_none : message_effect who tbl tbl
| effect_read v keys :
    who = Some v ->
    (forall k, In k keys ->
       exists m, In m tbl /\ m_id m = k /\ receiver_id m = v) ->
    message_effect who tbl (map (flipped keys) tbl)
| effect_insert pos row :
    m_id row = next_id (map m_id tbl) ->
    message_effect who tbl (insert_at pos row tbl)
| effect_delete p : message_effect who tbl (filter p tbl).

(** The user table after a request: a sequence of attribute assignments
    that leave key and [is_admin] alone, insertions under a new key, and
    removals of accounts that are not admins. *)
Inductive user_effect (tbl : list User) : list User -> Prop :=
| user_same : user_effect tbl tbl
| user_update tbl' pk f :
    user_effect tbl tbl' ->
    (forall u, u_id (f u) = u_id u /\ is_admin (f u) = is_admin u) ->
    user_effect tbl (map (fun u => if u_id u =? pk then f u else u) tbl')
| user_add tbl' u :
    user_effect tbl tbl' ->
    u_id u = next_id (map u_id tbl') ->
    user_effect tbl (tbl' ++ [u])
| user_remove tbl' u :
    user_effect tbl tbl' ->
    In u tbl' -> is_admin u = false ->
    user_effect tbl (filter (fun x => negb (u_id x =? u_id u)) tbl').

(** Every message names a sender that is an account. *)
Definition senders_known (U : list User) (M : list Message) : Prop :=
  forall m, In m M -> In (sender_id m) (map u_id U).

(** The two tables after a request: the effects above, with what ties a
    message to its sender.  A message is inserted for a sender that is an
    account, and an account is removed once no message mentions it. *)
Inductive table_effect (s : list User * list Message)
  : list User * list Message -> Prop :=
| tables_same : table_effect s s
| tables_update U M pk f :
    table_effect s (U, M) ->
    (forall u, u_id (f u) = u_id u /\ is_admin (f u) = is_admin u) ->
    table_effect s (map (fun u => if u_id u =? pk then f u else u) U, M)
| tables_add U M u :
    table_effect s (U, M) -> table_effect s (U ++ [u], M)
| tables_read U M keys :
    table_effect s (U, M) -> table_effect s (U, map (flipped keys) M)
| tables_insert U M pos row :
    table_effect s (U, M) -> In (sender_id row) (map u_id U) ->
    table_effect s (U, insert_at pos row M)
| tables_delete U M p :
    table_effect s (U, M) -> table_effect s (U, filter p M)
| tables_remove U M u :
    table_effect s (U, M) -> In u U ->
    (forall m, In m M -> references (u_id u) m = false) ->
    table_effect s (filter (fun x => negb (u_id x =? u_id u)) U, M).

(** Primary keys are unique, and message keys are positive. *)
Record well_formed (st : Store) : Prop := mkWf {
  wf_message_keys : NoDup (map m_id (messages st));
  wf_message_positive : forall m, In m (messages st) -> 0 < m_id m;
  wf_user_keys : NoDup (map u_id (users st))
}.

(** Accounts with [is_admin], and the one [ensure_admin_exists] looks for. *)
Definition has_admin (tbl : list User) : Prop :=
  exists u, In u tbl /\ is_admin u = true.

Definition has_named_admin (tbl : list User) : Prop :=
  exists u, In u tbl /\ username u = admin_username /\ is_admin u = true.

(** The unique columns of the account [ensure_admin_exists] inserts are
    already in use. *)
Definition name_or_email_taken (tbl : list User) : Prop :=
  exists u, In u tbl /\ (username u = admin_username \/ email u = admin_email).

(** The invariant the design states: one admin account, and it carries
    the well-known username. *)
Definition one_named_admin (tbl : list User) : Prop :=
  exists u, In u tbl /\ is_admin u = true /\ username u = admin_username
            /\ forall u', In u' tbl -> is_admin u' = true -> u' = u.

(** ** Rows and accounts across a request *)

(** What [send_message] stores: a text that is trimmed and not empty, or no
    text and an attachment; the two media columns set together, the type
    one of the three [upload_to_cloudinary] gives. *)
Definition stored_row (m : Message) : Prop :=
  match content m with
  | Some t => t <> [] /\ strip t = t
  | None => media_url m <> None
  end
  /\ match media_url m, media_type m with
     | Some _, Some ty =>
         ty = lit "image" \/ ty = lit "video" \/ ty = lit "auto"
     | None, None => True
     | _, _ => False
     end.

(** The account [who] names may delete [m]: it is an admin or sent it. *)
Definition may_delete (st : Store) (who : option Z) (m : Message) : Prop :=
  exists k me, who = Some k /\ get_user st k = Some me
               /\ (is_admin me = true \/ sender_id m = k).

(** The message table after a request of [who], with what is known of an
    inserted row and of the rows a deletion drops. *)
Inductive message_change (who : option Z) (droppable : Message -> Prop)
  (tbl : list Message) : list Message -> Prop :=
| change_none : message_change who droppable tbl tbl
| change_read keys :
    message_change who droppable tbl (map (flipped keys) tbl)
| change_insert pos row :
    who = Some (sender_id row) -> is_read row = false -> stored_row row ->
    message_change who droppable tbl (insert_at pos row tbl)
| change_delete p :
    (forall m, In m tbl -> p m = false -> droppable m) ->
    message_change who droppable tbl (filter p tbl).

(** An assignment that leaves the key, the two unique columns and the
    flags of an account alone. *)
Definition keeps_identity (f : User -> User) : Prop :=
  forall u, u_id (f u) = u_id u /\ username (f u) = username u
            /\ email (f u) = email u /\ is_admin (f u) = is_admin u
            /\ is_active (f u) = is_active u
            /\ is_blocked (f u) = is_blocked u.

(** The user table after a request, column by column: edits that keep the
    identity, a new username or email no row carries, a flag changed on an
    account that is not an admin, a new account under a new key with unused
    username and email, the removal of an account that is not an admin. *)
Inductive account_effect (tbl : list User) : list User -> Prop :=
| account_same : account_effect tbl tbl
| account_edit tbl' pk f :
    account_effect tbl tbl' -> keeps_identity f ->
    account_effect tbl (map (fun u => if u_id u =? pk then f u else u) tbl')
| account_rename tbl' pk name :
    account_effect tbl tbl' ->
    (forall u, In u tbl' -> username u <> name) ->
    account_effect tbl
      (map (fun u => if u_id u =? pk then set_username name u else u) tbl')
| account_remail tbl' pk mail :
    account_effect tbl tbl' ->
    (forall u, In u tbl' -> email u <> mail) ->
    account_effect tbl
      (map (fun u => if u_id u =? pk then set_email mail u else u) tbl')
| account_flag tbl' u f :
    account_effect tbl tbl' -> In u tbl' -> is_admin u = false ->
    (forall x, u_id (f x) = u_id x /\ username (f x) = username x
               /\ email (f x) = email x /\ is_admin (f x) = is_admin x) ->
    account_effect tbl
      (map (fun x => if u_id x =? u_id u then f x else x) tbl')
| account_add tbl' u :
    account_effect tbl tbl' ->
    u_id u = next_id (map u_id tbl') ->
    (forall x, In x tbl' -> username x <> username u /\ email x <> email u) ->
    is_active u = true -> is_blocked u = false ->
    account_effect tbl (tbl' ++ [u])
| account_remove tbl' u :
    account_effect tbl tbl' -> In u tbl' -> is_admin u = false ->
    account_effect tbl (filter (fun x => negb (u_id x =? u_id u)) tbl').

(** The unique columns hold, and every admin can sign in and chat. *)
Record sound_accounts (tbl : list User) : Prop := mkSound {
  sound_keys : NoDup (map u_id tbl);
  sound_usernames : NoDup (map username tbl);
  sound_emails : NoDup (map email tbl);
  sound_admins : forall u, In u tbl -> is_admin u = true -> can_chat u = true
}.

(** The user table after a request of an account that is not an admin:
    assignments on the requester's own row that leave the flags alone, and
    new accounts. *)
Inductive own_effect (who : option Z) (tbl : list User) : list User -> Prop :=
| own_same : own_effect who tbl tbl
| own_update tbl' pk f :
    own_effect who tbl tbl' -> who = Some pk ->
    (forall u, u_id (f u) = u_id u /\ is_admin (f u) = is_admin u
               /\ is_active (f u) = is_active u
               /\ is_blocked (f u) = is_blocked u) ->
    own_effect who tbl (map (fun u => if u_id u =? pk then f u else u) tbl')
| own_add tbl' u :
    own_effect who tbl tbl' -> own_effect who tbl (tbl' ++ [u]).

(** The user table after a route, seen from the account with key [pk]:
    assignments that leave key and [last_seen] alone, new accounts, and
    removals of other accounts. *)
Inductive presence_effect (pk : Z) (tbl : list User) : list User -> Prop :=
| presence_same : presence_effect pk tbl tbl
| presence_update tbl' k f :
    presence_effect pk tbl tbl' ->
    (forall u, u_id (f u) = u_id u /\ last_seen (f u) = last_seen u) ->
    presence_effect pk tbl (map (fun u => if u_id u =? k then f u else u) tbl')
| presence_add tbl' u :
    presence_effect pk tbl tbl' -> presence_effect pk tbl (tbl' ++ [u])
| presence_remove tbl' k :
    presence_effect pk tbl tbl' -> k <> pk ->
    presence_effect pk tbl (filter (fun x => negb (u_id x =? k)) tbl').

(** The dictionary of a message once its receiver has read it. *)
Definition read_dict (d : MessageDict) : MessageDict :=
  mkDict (d_id d) (d_content d) (d_media_url d) (d_media_type d) true
         (d_timestamp d) (d_full_timestamp d) (d_sender_id d)
         (d_receiver_id d) (d_sender_username d) (d_sender_profile_pic d).

(** A request served by an engine that places a new message after the
    rows of the table, as SQLite places the row of the largest key. *)
Definition appends (env : Env) (st : Store) : Prop :=
  (List.length (messages st) <= placement env)%nat.

(** The states the application reaches on such an engine. *)
Inductive reachable_appending {ext : Externals} : Store -> Prop :=
| reach_boot_appending salt now :
    reachable_appending (create_tables salt now)
| reach_step_appending st env req :
    reachable_appending st -> appends env st ->
    reachable_appending (step env req st).


(** * A run of the application

    A small implementation of the library functions, and the stores a few
    requests leave behind, to evaluate the handlers on. *)

(** [int] on ASCII decimal digits. *)
Fixpoint digits_value (acc : Z) (s : str) : option Z :=
  match s with
  | [] => Some acc
  | c :: r =>
      if ((48 <=? c) && (c <=? 57))%N
      then digits_value (10 * acc + Z.of_N (c - 48)) r
      else None
  end.

Definition decimal (s : str) : option Z :=
  match s with
  | [] => None
  | _ :: _ => digits_value 0 s
  end.

Definition ascii_lower (s : str) : str :=
  map (fun c => if ((65 <=? c) && (c <=? 90))%N then (c + 32)%N else c) s.

Definition sample_externals : Externals :=
  {| py_int := decimal;
     pk_of_text := decimal;
     str_lower := ascii_lower;
     generate_password_hash := fun salt password => salt ++ lit "$" ++ password;
     check_password_hash := fun pwhash password =>
       str_eqb (last (split 36%N pwhash) []) password;
     strftime := fun fmt t => lit fmt ++ [Z.to_N t];
     authenticated_if_active := true |}.

(** The world around a request: who is logged in, the clock, where the
    engine places an inserted message. *)
Definition anonymous (t : datetime) : Env :=
  mkEnv None t t (lit "salt") (UploadRaised []) 0.

Definition as_user (pk : Z) (t : datetime) (pos : nat) : Env :=
  mkEnv (Some pk) t t (lit "salt") (UploadRaised []) pos.

(** The database after start-up and one registration: the admin has key 1,
    alice key 2. *)
Definition two_users : Store :=
  @step sample_externals (anonymous 10)
    (PostRegister (lit "alice") (lit "alice@example.com")
                  (lit "secret") (lit "secret"))
    (@create_tables sample_externals (lit "salt") 5).

(** The two accounts as they are in [two_users]. *)
Definition alice_registered : User :=
  mkUser 2 (lit "alice") (lit "alice@example.com") (lit "salt$secret")
         default_avatar [] [] false true false 10 10.

Definition admin_booted : User :=
  mkUser 1 admin_username admin_email (lit "salt$admin123")
         default_avatar [] [] true true false 5 5.

(** Alice sends the admin two messages within the same clock tick; the
    engine places each after the rows there are. *)
Definition two_messages : Store :=
  @step sample_externals (as_user 2 20 1)
    (PostSendMessage (Some (lit "1")) (lit "again") None)
    (@step sample_externals (as_user 2 20 0)
       (PostSendMessage (Some (lit "1")) (lit "hello") None)
       two_users).

(** The two accounts once alice has sent her messages. *)
Definition sample_admin : User :=
  mkUser 1 admin_username admin_email (lit "salt$admin123") default_avatar
         [] [] true true false 5 5.

Definition sample_alice : User :=
  mkUser 2 (lit "alice") (lit "alice@example.com") (lit "salt$secret")
         default_avatar [] [] false true false 20 10.

(** The first of the two messages. *)
Definition hello_row : Message :=
  mkMessage 1 (Some (lit "hello")) None None false 20 2 1.

(** The admin blocks alice; her session stays valid. *)
Definition blocked_alice : Store :=
  @step sample_externals (as_user 1 15 0) (GetToggleBlock 2) two_users.

Definition alice_blocked : User :=
  mkUser 2 (lit "alice") (lit "alice@example.com") (lit "salt$secret")
         default_avatar [] [] false true true 10 10.

(** The admin renames the account and changes its email; the next visit of
    the dashboard provisions a second admin. *)
Definition renamed_admin : Store :=
  @step sample_externals (as_user 1 30 0)
    (PostAdminSettings (lit "root") (lit "root@example.com") [] [] [] None)
    (@create_tables sample_externals (lit "salt") 5).

Definition two_admins : Store :=
  @step sample_externals (as_user 1 40 0) GetDashboard renamed_admin.

(** The admin answers alice, under key 3. *)
Definition admin_replied : Store :=
  @step sample_externals (as_user 1 30 2)
    (PostSendMessage (Some (lit "2")) (lit "hi") None) two_messages.

(** The admin as the hook leaves the row at time [t]. *)
Definition admin_seen (t : datetime) : User := set_last_seen t admin_booted.

(** The admin deactivates alice. *)
Definition deactivated_alice : Store :=
  @step sample_externals (as_user 1 15 0) (GetToggleActive 2) two_users.

Definition alice_deactivated : User := set_is_active false alice_registered.

(** Alice's first message as [send_message] answers it at time 20, and a
    third one sent at time 30. *)
Definition hello_dict : MessageDict :=
  mkDict 1 (Some (lit "hello")) None None false
         (@strftime sample_externals "%H:%M" 20)
         (@strftime sample_externals "%d %b %Y %H:%M" 20)
         2 1 (lit "alice") default_avatar.

Definition more_dict : MessageDict :=
  mkDict 3 (Some (lit "more")) None None false
         (@strftime sample_externals "%H:%M" 30)
         (@strftime sample_externals "%d %b %Y %H:%M" 30)
         2 1 (lit "alice") default_avatar.



(** The admin changes its username and keeps its email. *)
Definition admin_renamed_only : Store :=
  @step sample_externals (as_user 1 30 0)
    (PostAdminSettings (lit "root") admin_email [] [] [] None)
    (@create_tables sample_externals (lit "salt") 5).


(** * Properties *)

Section Properties.

Context {ext : Externals}.

(** ** Tactics *)

(** Running a handler: unfold the monad down to the store. *)
Ltac run_handler :=
  cbv [run bind ret query modify commit login_required active_user_required
       admin_required current_user];
  cbn [pending durable n_commits result store_after commits fst snd].

(** Enter a handler as the account [Hme] names, given what makes it count
    as authenticated. *)
Ltac enter_as Hme Hauth :=
  rewrite Hme; cbv beta iota; rewrite Hauth; cbv beta iota.

Ltac unfold_handlers :=
  cbv [run serve route bind ret query modify commit login_required
       active_user_required admin_required current_user update_last_seen
       register dashboard ensure_admin_exists chat send_message store_message
       get_messages delete_message update_profile change_password
       toggle_block_user toggle_active_user delete_user admin_settings
       delete_all_messages find_by_username find_by_email];
  cbn [pending durable n_commits result store_after commits fst snd].

Ltac head_of t :=
  lazymatch t with
  | ?f _ => head_of f
  | _ => t
  end.

(** Case analysis on what the handler branches on, innermost first. *)
Ltac split_cases :=
  repeat (match goal with
          | |- context [match ?x with _ => _ end] =>
              let h := head_of x in
              lazymatch h with
              | match _ with _ => _ end => fail
              | _ => destruct x eqn:?
              end
          end;
          cbv beta;
          cbn [pending durable n_commits fst snd messages users
               update_user add_user add_message remove_message remove_user
               delete_messages_of]).

(** ** Keys and rows *)

Lemma find_key_id (tbl : list Message) (k : Z) (m : Message) :
  find (fun x => m_id x =? k) tbl = Some m -> m_id m = k /\ In m tbl.
Proof.
  intros H. apply find_some in H. destruct H as [Hin Hk].
  apply Z.eqb_eq in Hk. auto.
Qed.

Lemma get_user_id (st : Store) (k : Z) (u : User) :
  get_user st k = Some u -> u_id u = k /\ In u (users st).
Proof.
  unfold get_user. intros H. apply find_some in H. destruct H as [Hin Hk].
  apply Z.eqb_eq in Hk. auto.
Qed.

Lemma find_unique_key (tbl : list Message) (m : Message) :
  NoDup (map m_id tbl) -> In m tbl ->
  find (fun x => m_id x =? m_id m) tbl = Some m.
Proof.
  induction tbl as [|x tbl IH]; simpl; intros Hnd Hin; [contradiction|].
  inversion Hnd as [|? ? Hx Hnd']; subst.
  destruct Hin as [->|Hin].
  - now rewrite Z.eqb_refl.
  - destruct (Z.eqb_spec (m_id x) (m_id m)) as [E|_]; [|now apply IH].
    exfalso. apply Hx. rewrite E. now apply in_map.
Qed.

Lemma next_id_above (ids : list Z) (k : Z) : In k ids -> k < next_id ids.
Proof.
  unfold next_id. induction ids as [|x ids IH]; cbn [fold_right In];
    [contradiction|].
  intros [->|H]; [lia|]. specialize (IH H). lia.
Qed.

Lemma next_id_positive (ids : list Z) : 0 < next_id ids.
Proof.
  unfold next_id. induction ids as [|x ids IH]; cbn [fold_right]; lia.
Qed.

(** ** The read flip *)

Lemma flipped_id keys m : m_id (flipped keys m) = m_id m.
Proof. unfold flipped. now destruct (existsb _ keys). Qed.

Lemma flipped_sender keys m : sender_id (flipped keys m) = sender_id m.
Proof. unfold flipped. now destruct (existsb _ keys). Qed.

Lemma flipped_receiver keys m : receiver_id (flipped keys m) = receiver_id m.
Proof. unfold flipped. now destruct (existsb _ keys). Qed.

Lemma flipped_timestamp keys m : timestamp (flipped keys m) = timestamp m.
Proof. unfold flipped. now destruct (existsb _ keys). Qed.

Lemma flipped_nil m : flipped [] m = m.
Proof. reflexivity. Qed.

Lemma set_is_read_same m : set_is_read (is_read m) m = m.
Proof. now destruct m. Qed.

Lemma mark_read_users keys st : users (mark_read keys st) = users st.
Proof.
  unfold mark_read. revert st.
  induction keys as [|k keys IH]; intros st; simpl; [reflexivity|].
  now rewrite IH.
Qed.

Lemma mark_read_messages keys st :
  messages (mark_read keys st) = map (flipped keys) (messages st).
Proof.
  unfold mark_read. revert st.
  induction keys as [|k keys IH]; intros st; simpl.
  - rewrite <- (map_id (messages st)) at 1. apply map_ext.
    intros m. now rewrite flipped_nil.
  - rewrite IH. cbn [update_message messages]. rewrite map_map.
    apply map_ext. intros m. unfold flipped. cbn [existsb].
    destruct (Z.eqb_spec (m_id m) k) as [->|Hne]; cbn [orb m_id set_is_read].
    + now destruct (existsb _ keys).
    + reflexivity.
Qed.

Lemma mark_read_nil st : mark_read [] st = st.
Proof. reflexivity. Qed.

Lemma existsb_key (k : Z) (keys : list Z) :
  existsb (Z.eqb k) keys = true <-> In k keys.
Proof.
  rewrite existsb_exists. split.
  - intros [x [Hin E]]. apply Z.eqb_eq in E. now subst.
  - intros H. exists k. split; [assumption|apply Z.eqb_refl].
Qed.

Lemma in_select p st k :
  In k (select p st)
  <-> exists m, In m (messages st) /\ p m = true /\ m_id m = k.
Proof.
  unfold select. rewrite in_map_iff. split.
  - intros [m [E H]]. apply filter_In in H. destruct H. eauto.
  - intros [m [Hin [Hp E]]]. exists m. split; [assumption|].
    apply filter_In. auto.
Qed.

Lemma active_authenticated (u : User) :
  is_active u = true -> is_authenticated u = true.
Proof.
  unfold is_authenticated. intros ->. now destruct authenticated_if_active.
Qed.

(** ** Opening a conversation *)

(** C1. After [chat] completes for viewer [v] and a reachable counterpart
    [c], every stored message of the conversation whose receiver is [v] is
    read, however many there were, and the flips are committed. *)
Theorem chat_marks_incoming_read (st : Store) (v c : Z) (me target : User) :
  get_user st v = Some me -> is_active me = true ->
  get_user st c = Some target -> can_chat target = true ->
  (exists rows, result (run (chat (Some v) c) st) = RenderChat target rows) /\
  commits (run (chat (Some v) c) st) = 1%nat /\
  forall m, In m (messages (store_after (run (chat (Some v) c) st))) ->
    in_conversation v c m = true -> receiver_id m = v -> is_read m = true.
Proof.
  intros Hme Hact Htarget Hchat.
  destruct (get_user_id _ _ _ Hme) as [Hv _].
  unfold chat. run_handler. enter_as Hme (active_authenticated me Hact).
  rewrite Hact. cbn [negb].
  run_handler. rewrite Htarget, Hchat. cbn [negb]. run_handler.
  split; [eexists; reflexivity|]. split; [reflexivity|].
  intros m Hin Hconv Hrecv.
  rewrite mark_read_messages in Hin. apply in_map_iff in Hin.
  destruct Hin as [m0 [<- Hin0]].
  rewrite flipped_receiver in Hrecv.
  unfold in_conversation in Hconv.
  rewrite flipped_sender, flipped_receiver in Hconv.
  assert (Hsend : sender_id m0 = c) by lia.
  unfold flipped.
  destruct (existsb (Z.eqb (m_id m0)) _) eqn:Hk; [reflexivity|].
  destruct (is_read m0) eqn:Hread; [reflexivity|].
  exfalso. apply Bool.not_true_iff_false in Hk. apply Hk.
  apply existsb_key. apply in_select. exists m0.
  rewrite Hread, Hv, Hrecv, Hsend, !Z.eqb_refl. auto.
Qed.

(** ** Ordering by timestamp *)

Lemma insert_by_timestamp_perm m l :
  Permutation (insert_by_timestamp m l) (m :: l).
Proof.
  induction l as [|x l IH]; simpl; [reflexivity|].
  destruct (timestamp m <=? timestamp x); [reflexivity|].
  rewrite IH. apply perm_swap.
Qed.

Lemma order_by_timestamp_perm l : Permutation (order_by_timestamp l) l.
Proof.
  induction l as [|x l IH]; simpl; [reflexivity|].
  rewrite insert_by_timestamp_perm. now constructor.
Qed.

Lemma insert_by_timestamp_sorted m l :
  Sorted by_timestamp l -> Sorted by_timestamp (insert_by_timestamp m l).
Proof.
  induction l as [|x l IH]; simpl; intros Hs.
  - repeat constructor.
  - destruct (Z.leb_spec (timestamp m) (timestamp x)) as [Hle|Hgt].
    + constructor; [assumption|]. now constructor.
    + inversion Hs as [|? ? Hs' Hhd]; subst.
      constructor; [now apply IH|].
      destruct l as [|y l]; simpl.
      * constructor. unfold by_timestamp. lia.
      * destruct (timestamp m <=? timestamp y);
          constructor; inversion Hhd; subst; unfold by_timestamp in *; lia.
Qed.

Lemma order_by_timestamp_sorted l :
  StronglySorted by_timestamp (order_by_timestamp l).
Proof.
  apply Sorted_StronglySorted.
  - intros a b c. unfold by_timestamp. lia.
  - induction l as [|x l IH]; simpl; [constructor|].
    now apply insert_by_timestamp_sorted.
Qed.



Lemma filter_map_commute {A} (p : A -> bool) (g : A -> A) l :
  (forall x, p (g x) = p x) -> filter p (map g l) = map g (filter p l).
Proof.
  intros Hg. induction l as [|x l IH]; simpl; [reflexivity|].
  rewrite Hg, IH. now destruct (p x).
Qed.

Lemma StronglySorted_map_timestamp (g : Message -> Message) l :
  (forall x, timestamp (g x) = timestamp x) ->
  StronglySorted by_timestamp l -> StronglySorted by_timestamp (map g l).
Proof.
  intros Hg. induction 1 as [|x l Hs IH Hall]; simpl; constructor.
  - assumption.
  - rewrite Forall_forall in *. intros y Hy. apply in_map_iff in Hy.
    destruct Hy as [y0 [<- Hy0]]. unfold by_timestamp. rewrite !Hg.
    now apply Hall.
Qed.

(** ** Loaded objects *)

Lemma get_message_mark_read keys st k :
  get_message (mark_read keys st) k
  = option_map (flipped keys) (get_message st k).
Proof.
  unfold get_message. rewrite mark_read_messages.
  induction (messages st) as [|x l IH]; simpl; [reflexivity|].
  rewrite flipped_id. destruct (m_id x =? k); [reflexivity|apply IH].
Qed.

Lemma load_mark_read keys st ks :
  load (mark_read keys st) ks = map (flipped keys) (load st ks).
Proof.
  unfold load. induction ks as [|k ks IH]; simpl; [reflexivity|].
  rewrite map_app, IH, get_message_mark_read.
  now destruct (get_message st k).
Qed.

Lemma load_keys st (l : list Message) :
  NoDup (map m_id (messages st)) -> incl l (messages st) ->
  load st (map m_id l) = l.
Proof.
  intros Hnd. unfold load, get_message.
  induction l as [|x l IH]; simpl; intros Hincl; [reflexivity|].
  rewrite find_unique_key; [|assumption|apply Hincl; now left].
  simpl. f_equal. apply IH. intros y Hy. apply Hincl. now right.
Qed.

Lemma ordered_incl p tbl : incl (order_by_timestamp (filter p tbl)) tbl.
Proof.
  intros x Hx.
  apply (Permutation_in _ (order_by_timestamp_perm _)) in Hx.
  apply filter_In in Hx. tauto.
Qed.

Lemma in_conversation_flipped keys a b m :
  in_conversation a b (flipped keys m) = in_conversation a b m.
Proof.
  unfold in_conversation. now rewrite flipped_sender, flipped_receiver.
Qed.

(** What [chat] answers on any table: the conversation, in ascending order
    of creation timestamp. *)
Lemma chat_rows (st : Store) (v c : Z) (me target : User) :
  NoDup (map m_id (messages st)) ->
  get_user st v = Some me -> is_active me = true ->
  get_user st c = Some target -> can_chat target = true ->
  exists rows,
    result (run (chat (Some v) c) st) = RenderChat target rows
    /\ Permutation rows
         (filter (in_conversation v c)
                 (messages (store_after (run (chat (Some v) c) st))))
    /\ StronglySorted by_timestamp rows.
Proof.
  intros Hnd Hme Hact Htarget Hchat.
  destruct (get_user_id _ _ _ Hme) as [Hv _].
  unfold chat. run_handler. enter_as Hme (active_authenticated me Hact).
  rewrite Hact. cbn [negb].
  run_handler. rewrite Htarget, Hchat. cbn [negb]. run_handler.
  eexists. split; [reflexivity|].
  rewrite load_mark_read, mark_read_messages. unfold select_ordered.
  rewrite load_keys by (assumption || apply ordered_incl).
  rewrite Hv. split.
  - rewrite filter_map_commute by apply in_conversation_flipped.
    apply Permutation_map, order_by_timestamp_perm.
  - apply StronglySorted_map_timestamp; [apply flipped_timestamp|].
    apply order_by_timestamp_sorted.
Qed.

(** The query orders by timestamp alone; the sort keeps the scan order
    among equal timestamps, so a table the engine scans in key order is
    returned with ties in key order. *)
Lemma insert_by_timestamp_then_id m l :
  StronglySorted by_timestamp_then_id l ->
  (forall x, In x l -> m_id m <= m_id x) ->
  StronglySorted by_timestamp_then_id (insert_by_timestamp m l).
Proof.
  induction 1 as [|x r Hs IH Hall]; intros Hm; simpl.
  - repeat constructor.
  - rewrite Forall_forall in Hall.
    destruct (Z.leb_spec (timestamp m) (timestamp x)) as [Hle|Hgt].
    + constructor; [now constructor; [|apply Forall_forall]|].
      apply Forall_forall. intros y Hy.
      pose proof (Hm y Hy) as Hid. unfold by_timestamp_then_id.
      destruct Hy as [<-|Hy]; [lia|].
      specialize (Hall y Hy). unfold by_timestamp_then_id in Hall. lia.
    + constructor; [apply IH; intros y Hy; apply Hm; now right|].
      apply Forall_forall. intros y Hy.
      apply (Permutation_in _ (insert_by_timestamp_perm m r)) in Hy.
      destruct Hy as [<-|Hy]; [|now apply Hall].
      unfold by_timestamp_then_id. lia.
Qed.

Lemma order_by_timestamp_then_id l :
  StronglySorted (fun a b => m_id a < m_id b) l ->
  StronglySorted by_timestamp_then_id (order_by_timestamp l).
Proof.
  induction 1 as [|x r Hs IH Hall]; simpl; [constructor|].
  apply insert_by_timestamp_then_id; [assumption|].
  rewrite Forall_forall in Hall. intros y Hy.
  apply (Permutation_in _ (order_by_timestamp_perm r)) in Hy.
  specialize (Hall y Hy). lia.
Qed.

Lemma filter_scan_order (p : Message -> bool) l :
  StronglySorted (fun a b => m_id a < m_id b) l ->
  StronglySorted (fun a b => m_id a < m_id b) (filter p l).
Proof.
  induction 1 as [|x r Hs IH Hall]; simpl; [constructor|].
  destruct (p x); [|assumption]. constructor; [assumption|].
  rewrite Forall_forall in *. intros y Hy. apply filter_In in Hy.
  apply Hall. tauto.
Qed.

Lemma scan_order_unique_keys l :
  StronglySorted (fun a b => m_id a < m_id b) l -> NoDup (map m_id l).
Proof.
  induction 1 as [|x r Hs IH Hall]; simpl; constructor; [|assumption].
  rewrite Forall_forall in Hall. intros Hin. apply in_map_iff in Hin.
  destruct Hin as [y [E Hy]]. specialize (Hall y Hy). lia.
Qed.

Lemma chat_ties_by_identifier_in_key_order
  (st : Store) (v c : Z) (me target : User) :
  key_ordered (messages st) ->
  get_user st v = Some me -> is_active me = true ->
  get_user st c = Some target -> can_chat target = true ->
  exists rows,
    result (run (chat (Some v) c) st) = RenderChat target rows
    /\ StronglySorted by_timestamp_then_id rows.
Proof.
  intros Hscan Hme Hact Htarget Hchat.
  pose proof (scan_order_unique_keys _ Hscan) as Hnd.
  unfold chat. run_handler. enter_as Hme (active_authenticated me Hact).
  rewrite Hact. cbn [negb].
  run_handler. rewrite Htarget, Hchat. cbn [negb]. run_handler.
  eexists. split; [reflexivity|].
  rewrite load_mark_read. unfold select_ordered.
  rewrite load_keys by (assumption || apply ordered_incl).
  set (keys := select _ st).
  pose proof (order_by_timestamp_then_id _
                (filter_scan_order (in_conversation (u_id me) c) _ Hscan))
    as Hsorted.
  induction Hsorted as [|x r Hs IH Hall]; simpl; constructor; [assumption|].
  rewrite Forall_forall in *. intros y Hy. apply in_map_iff in Hy.
  destruct Hy as [y0 [<- Hy0]]. specialize (Hall y0 Hy0).
  unfold by_timestamp_then_id in *.
  now rewrite !flipped_timestamp, !flipped_id.
Qed.

Lemma in_conversation_between a b m :
  in_conversation a b m = true <-> between a b m.
Proof.
  unfold in_conversation, between.
  rewrite orb_true_iff, !andb_true_iff, !Z.eqb_eq. tauto.
Qed.

Lemma flipped_key_ordered keys tbl :
  key_ordered tbl -> key_ordered (map (flipped keys) tbl).
Proof.
  induction 1 as [|x r Hs IH Hall]; simpl; constructor; [assumption|].
  rewrite Forall_forall in *. intros y Hy. apply in_map_iff in Hy.
  destruct Hy as [y0 [<- Hy0]]. rewrite !flipped_id. auto.
Qed.

(** C2. On a table the engine scans in key order, [chat] returns exactly
    the messages exchanged between the viewer and the counterpart, in
    either direction and each once, in ascending order of creation
    timestamp, messages of equal timestamp in the order of their
    identifiers. *)
Theorem chat_returns_conversation_in_order
  (st : Store) (v c : Z) (me target : User) :
  key_ordered (messages st) ->
  get_user st v = Some me -> is_active me = true ->
  get_user st c = Some target -> can_chat target = true ->
  exists rows,
    result (run (chat (Some v) c) st) = RenderChat target rows
    /\ (forall m,
          In m rows
          <-> In m (messages (store_after (run (chat (Some v) c) st)))
              /\ between v c m)
    /\ NoDup (map m_id rows)
    /\ StronglySorted by_timestamp_then_id rows.
Proof.
  intros Hscan Hme Hact Htarget Hchat.
  pose proof (scan_order_unique_keys _ Hscan) as Hnd.
  destruct (chat_rows st v c me target Hnd Hme Hact Htarget Hchat)
    as [rows [Hres [Hperm _]]].
  destruct (chat_ties_by_identifier_in_key_order st v c me target Hscan Hme
              Hact Htarget Hchat) as [rows' [Hres' Hsorted]].
  rewrite Hres in Hres'. injection Hres' as <-.
  exists rows. split; [exact Hres|]. split; [|split; [|exact Hsorted]].
  - intros m. split.
    + intros Hm. apply (Permutation_in _ Hperm) in Hm.
      apply filter_In in Hm. now rewrite <- in_conversation_between.
    + intros [Hm Hb]. apply (Permutation_in _ (Permutation_sym Hperm)).
      apply filter_In. now rewrite in_conversation_between.
  - apply (Permutation_NoDup (Permutation_sym (Permutation_map m_id Hperm))).
    apply scan_order_unique_keys, filter_scan_order.
    revert Hperm. clear Hres Hsorted.
    unfold chat. run_handler. enter_as Hme (active_authenticated me Hact).
    rewrite Hact. cbn [negb].
    run_handler. rewrite Htarget, Hchat. cbn [negb]. run_handler.
    intros _. rewrite mark_read_messages. now apply flipped_key_ordered.
Qed.

(** ** Polling for new messages *)

Lemma map_option_total {A B} (f : A -> option B) (l : list A) :
  (forall a, In a l -> f a <> None) -> exists bs, map_option f l = Some bs.
Proof.
  induction l as [|a l IH]; simpl; intros H; [eauto|].
  destruct (f a) as [b|] eqn:E; [|exfalso; apply (H a); auto].
  destruct IH as [bs ->]; [intros x Hx; apply H; auto|]. eauto.
Qed.

Lemma map_option_ext {A B} (f g : A -> option B) (l : list A) :
  (forall a, f a = g a) -> map_option f l = map_option g l.
Proof.
  intros H. induction l as [|a l IH]; simpl; [reflexivity|].
  now rewrite H, IH.
Qed.

Lemma filter_none {A} (p : A -> bool) (l : list A) :
  (forall a, In a l -> p a = false) -> filter p l = [].
Proof.
  induction l as [|a l IH]; simpl; intros H; [reflexivity|].
  rewrite (H a) by auto. apply IH. intros x Hx. apply H. auto.
Qed.

Lemma keys_where_rows st q (l : list Message) :
  NoDup (map m_id (messages st)) -> incl l (messages st) ->
  keys_where st q (map m_id l) = map m_id (filter q l).
Proof.
  intros Hnd. unfold keys_where, get_message.
  induction l as [|x l IH]; simpl; intros Hincl; [reflexivity|].
  rewrite find_unique_key; [|assumption|apply Hincl; now left].
  rewrite IH by (intros y Hy; apply Hincl; now right).
  now destruct (q x).
Qed.

Lemma to_dict_users st st' m :
  users st' = users st -> to_dict st' m = to_dict st m.
Proof. unfold to_dict, get_user. now intros ->. Qed.

(** [get_messages] for an active viewer, unfolded to the store, from any
    state of the session's bookkeeping. *)
Lemma get_messages_on st0 st n v c arg me :
  get_user st v = Some me -> is_active me = true ->
  in_int64 c && in_int64 (cursor arg) = true ->
  let msgs := select_ordered (newer_in_conversation v c (cursor arg)) st in
  let unread :=
    keys_where st (fun m => (receiver_id m =? v) && negb (is_read m)) msgs in
  get_messages (Some v) c arg (mkDb st0 st n)
  = (match map_option (to_dict st) (load (mark_read unread st) msgs) with
     | Some ds => JsonMessages ds
     | None => Error500
     end,
     mkDb (match unread with [] => st0 | _ :: _ => mark_read unread st end)
          (mark_read unread st)
          (match unread with [] => n | _ :: _ => S n end)).
Proof.
  intros Hme Hact Hrange msgs unread.
  destruct (get_user_id _ _ _ Hme) as [Hv _].
  unfold get_messages. run_handler.
  enter_as Hme (active_authenticated me Hact). rewrite Hact. cbn [negb].
  change (args_get py_int 0 arg) with (cursor arg).
  rewrite Hrange. cbn [negb].
  run_handler. rewrite Hv.
  fold (newer_in_conversation v c (cursor arg)).
  subst unread msgs. unfold keys_where.
  set (msgs := select_ordered _ st).
  generalize (filter (fun k => match get_message st k with
                               | Some m =>
                                   (receiver_id m =? v) && negb (is_read m)
                               | None => false
                               end) msgs).
  intros unread.
  assert (Hd : forall ks, map_option (to_dict (mark_read unread st)) ks
                          = map_option (to_dict st) ks)
    by (intros ks; apply map_option_ext; intros a;
        apply to_dict_users, mark_read_users).
  destruct unread as [|k unread]; cbn [pending durable n_commits].
  - rewrite mark_read_nil. now destruct (map_option _ _).
  - rewrite Hd. now destruct (map_option _ _).
Qed.

(** A key or a cursor the driver cannot bind: the 500 page, and the
    session as it was. *)
Lemma get_messages_overflow st0 st n v c arg me :
  get_user st v = Some me -> is_active me = true ->
  in_int64 c && in_int64 (cursor arg) = false ->
  get_messages (Some v) c arg (mkDb st0 st n) = (Error500, mkDb st0 st n).
Proof.
  intros Hme Hact Hrange. unfold get_messages. run_handler.
  enter_as Hme (active_authenticated me Hact). rewrite Hact. cbn [negb].
  change (args_get py_int 0 arg) with (cursor arg).
  now rewrite Hrange.
Qed.

Lemma get_messages_refused st v c arg me :
  get_user st v = Some me -> is_active me = true ->
  in_int64 c && in_int64 (cursor arg) = false ->
  run (get_messages (Some v) c arg) st = mkOutcome Error500 st 0%nat.
Proof.
  intros Hme Hact Hrange. unfold run.
  now rewrite (get_messages_overflow st st 0%nat v c arg me Hme Hact Hrange).
Qed.

Lemma get_messages_run st v c arg me :
  get_user st v = Some me -> is_active me = true ->
  in_int64 c && in_int64 (cursor arg) = true ->
  let msgs := select_ordered (newer_in_conversation v c (cursor arg)) st in
  let unread :=
    keys_where st (fun m => (receiver_id m =? v) && negb (is_read m)) msgs in
  run (get_messages (Some v) c arg) st
  = mkOutcome
      (match map_option (to_dict st) (load (mark_read unread st) msgs) with
       | Some ds => JsonMessages ds
       | None => Error500
       end)
      (mark_read unread st)
      (match unread with [] => 0%nat | _ :: _ => 1%nat end).
Proof.
  intros Hme Hact Hrange msgs unread. unfold run.
  rewrite (get_messages_on st st 0%nat v c arg me Hme Hact Hrange).
  fold msgs. fold unread. cbn [durable n_commits].
  destruct unread; reflexivity.
Qed.

Lemma unique_key_row (tbl : list Message) (m m' : Message) :
  NoDup (map m_id tbl) -> In m tbl -> In m' tbl -> m_id m = m_id m' -> m = m'.
Proof.
  intros Hnd Hm Hm' E.
  pose proof (find_unique_key tbl m Hnd Hm) as F.
  pose proof (find_unique_key tbl m' Hnd Hm') as F'.
  rewrite E in F. congruence.
Qed.

Lemma filter_keeps_keys_unique {Row} (key : Row -> Z) (keep : Row -> bool)
  (tbl : list Row) :
  NoDup (map key tbl) -> NoDup (map key (filter keep tbl)).
Proof.
  induction tbl as [|row tbl IH]; simpl; intros Hnd; [constructor|].
  inversion Hnd as [|? ? Hfresh Hrest]; subst.
  destruct (keep row); simpl; [|now apply IH].
  constructor; [|now apply IH].
  intros Hin. apply Hfresh. apply in_map_iff in Hin.
  destruct Hin as [x [E Hx]]. apply filter_In in Hx.
  rewrite <- E. apply in_map. tauto.
Qed.

Lemma filter_perm {A} (p : A -> bool) (l l' : list A) :
  Permutation l l' -> Permutation (filter p l) (filter p l').
Proof.
  induction 1 as [|x l l' _ IH|x y l|l l' l'' _ IH1 _ IH2]; simpl.
  - constructor.
  - destruct (p x); [now constructor|assumption].
  - destruct (p x), (p y); try reflexivity. apply perm_swap.
  - now transitivity (filter p l').
Qed.

Lemma filter_both {A} (p q : A -> bool) (l : list A) :
  filter q (filter p l) = filter (fun a => p a && q a) l.
Proof.
  induction l as [|a l IH]; simpl; [reflexivity|].
  destruct (p a); simpl; [|assumption]. destruct (q a); now rewrite IH.
Qed.

Lemma unread_for_split v c last m :
  unread_for v c last m
  = newer_in_conversation v c last m
    && ((receiver_id m =? v) && negb (is_read m)).
Proof. unfold unread_for. now rewrite andb_assoc. Qed.

(** With unique keys, the keys [get_messages] collects denote exactly the
    rows that satisfy [unread_for]. *)
Lemma unread_keys_rows st v c last :
  NoDup (map m_id (messages st)) ->
  let keys :=
    keys_where st (fun m => (receiver_id m =? v) && negb (is_read m))
      (select_ordered (newer_in_conversation v c last) st) in
  Permutation keys (map m_id (filter (unread_for v c last) (messages st)))
  /\ forall m, In m (messages st) ->
       existsb (Z.eqb (m_id m)) keys = unread_for v c last m.
Proof.
  intros Hnd keys. subst keys. unfold select_ordered.
  rewrite keys_where_rows by (assumption || apply ordered_incl).
  assert (Hp : Permutation
                 (filter (fun m => (receiver_id m =? v) && negb (is_read m))
                    (order_by_timestamp
                       (filter (newer_in_conversation v c last) (messages st))))
                 (filter (unread_for v c last) (messages st))).
  { rewrite (filter_perm _ _ _ (order_by_timestamp_perm _)), filter_both.
    erewrite filter_ext; [reflexivity|].
    intros a. symmetry. apply unread_for_split. }
  split; [now apply Permutation_map|].
  intros m Hm.
  destruct (unread_for v c last m) eqn:Hu.
  - apply existsb_key. apply in_map.
    apply (Permutation_in _ (Permutation_sym Hp)). apply filter_In. auto.
  - apply Bool.not_true_iff_false. intros Hk. apply existsb_key in Hk.
    apply in_map_iff in Hk. destruct Hk as [m' [E Hm']].
    apply (Permutation_in _ Hp) in Hm'. apply filter_In in Hm'.
    destruct Hm' as [Hin' Hu'].
    rewrite (unique_key_row _ _ _ Hnd Hin' Hm E) in Hu'. congruence.
Qed.

(** The rows [get_messages] answers, through the filter the query is
    written with. *)
Lemma get_messages_rows (st : Store) (v c : Z) (arg : option str)
  (me : User) :
  NoDup (map m_id (messages st)) ->
  (forall m, In m (messages st) -> get_user st (sender_id m) <> None) ->
  get_user st v = Some me -> is_active me = true ->
  in_int64 c && in_int64 (cursor arg) = true ->
  exists rows ds,
    result (run (get_messages (Some v) c arg) st) = JsonMessages ds
    /\ map_option (to_dict st) rows = Some ds
    /\ Permutation rows
         (filter (newer_in_conversation v c (cursor arg))
            (messages (store_after (run (get_messages (Some v) c arg) st))))
    /\ StronglySorted by_timestamp rows.
Proof.
  intros Hnd Hfk Hme Hact Hrange.
  rewrite (get_messages_run st v c arg me Hme Hact Hrange).
  cbn [result store_after].
  set (keys := keys_where st _ _).
  unfold select_ordered.
  rewrite load_mark_read, load_keys by (assumption || apply ordered_incl).
  set (rows := map (flipped keys) _).
  destruct (map_option_total (to_dict st) rows) as [ds Hds].
  { intros a Ha. unfold rows in Ha. apply in_map_iff in Ha.
    destruct Ha as [m [<- Hm]]. apply ordered_incl in Hm.
    unfold to_dict. rewrite flipped_sender.
    specialize (Hfk m Hm). now destruct (get_user st (sender_id m)). }
  exists rows, ds. rewrite Hds.
  split; [reflexivity|]. split; [reflexivity|]. split.
  - rewrite mark_read_messages. unfold rows.
    rewrite filter_map_commute.
    + apply Permutation_map, order_by_timestamp_perm.
    + intros x. unfold newer_in_conversation.
      now rewrite in_conversation_flipped, flipped_id.
  - apply StronglySorted_map_timestamp; [apply flipped_timestamp|].
    apply order_by_timestamp_sorted.
Qed.

Lemma in_int64_range (n : Z) :
  in_int64 n = true <-> - 2 ^ 63 <= n < 2 ^ 63.
Proof. unfold in_int64. rewrite andb_true_iff, Z.leb_le, Z.ltb_lt. tauto. Qed.

Lemma bound_for_driver (c last : Z) :
  0 <= c < 2 ^ 63 -> - 2 ^ 63 <= last < 2 ^ 63 ->
  in_int64 c && in_int64 last = true.
Proof.
  intros Hc Hl. apply andb_true_iff. rewrite !in_int64_range. lia.
Qed.

Lemma map_option_Forall2 {A B} (f : A -> option B) (l : list A)
  (bs : list B) :
  map_option f l = Some bs -> Forall2 (fun a b => f a = Some b) l bs.
Proof.
  revert bs. induction l as [|a l IH]; simpl; intros bs H.
  - injection H as <-. constructor.
  - destruct (f a) as [b|] eqn:Ha; [|discriminate].
    destruct (map_option f l) as [r|]; [|discriminate].
    injection H as <-. constructor; [assumption|now apply IH].
Qed.

Lemma to_dict_describes st m d :
  to_dict st m = Some d -> describes (users st) m d.
Proof.
  unfold to_dict, describes.
  destruct (get_user st (sender_id m)) as [u|] eqn:Hu; [|discriminate].
  destruct (get_user_id _ _ _ Hu) as [Hid Hin].
  intros [= <-]. cbn. repeat (split; [reflexivity|]).
  exists u. auto.
Qed.

Lemma answered_rows st rows ds :
  map_option (to_dict st) rows = Some ds ->
  Forall2 (describes (users st)) rows ds /\ map d_id ds = map m_id rows.
Proof.
  intros H. apply map_option_Forall2 in H.
  induction H as [|m d rows ds Hd _ [IH1 IH2]]; [now split; constructor|].
  pose proof (to_dict_describes _ _ _ Hd) as Hdesc. split.
  - now constructor.
  - simpl. rewrite IH2. f_equal. apply Hdesc.
Qed.




Lemma as_read_set (m : Message) : set_is_read true m = as_read m.
Proof. now destruct m. Qed.

Lemma Forall2_map_in {A B} (R : A -> B -> Prop) (f : A -> B) (l : list A) :
  (forall a, In a l -> R a (f a)) -> Forall2 R l (map f l).
Proof.
  induction l as [|a l IH]; simpl; intros H; constructor; auto.
Qed.

Lemma bound_exceeded (c last : Z) :
  0 <= c -> ~ (c < 2 ^ 63 /\ - 2 ^ 63 <= last < 2 ^ 63) ->
  in_int64 c && in_int64 last = false.
Proof.
  intros Hc Hout. apply Bool.not_true_iff_false. intros H. apply Hout.
  apply andb_true_iff in H. rewrite !in_int64_range in H. lia.
Qed.

(** The rows the handler flips are those the answer marks out. *)
Lemma unread_for_to_flip st v c last rows ds m :
  NoDup (map m_id (messages st)) ->
  map_option (to_dict st) rows = Some ds ->
  Permutation (map m_id rows)
    (map m_id (filter (newer_in_conversation v c last) (messages st))) ->
  In m (messages st) ->
  unread_for v c last m = true <-> to_flip ds v m.
Proof.
  intros Hnd Hds Hperm Hm. unfold to_flip.
  rewrite (proj2 (answered_rows _ _ _ Hds)).
  rewrite unread_for_split, !andb_true_iff, Z.eqb_eq, negb_true_iff.
  assert (Hin : In (m_id m) (map m_id rows)
                <-> newer_in_conversation v c last m = true).
  { rewrite Hperm. split.
    - intros H. apply in_map_iff in H. destruct H as [m' [E H']].
      apply filter_In in H'. destruct H' as [Hin' Hq].
      now rewrite (unique_key_row _ _ _ Hnd Hin' Hm E) in Hq.
    - intros Hq. apply in_map. apply filter_In. auto. }
  rewrite Hin. tauto.
Qed.

(** The keys [get_messages] answers are those of the rows its filter
    keeps. *)
Lemma answered_keys (st : Store) (v c : Z) (arg : option str) (me : User)
  (rows : list Message) :
  get_user st v = Some me -> is_active me = true ->
  in_int64 c && in_int64 (cursor arg) = true ->
  Permutation rows
    (filter (newer_in_conversation v c (cursor arg))
       (messages (store_after (run (get_messages (Some v) c arg) st)))) ->
  Permutation (map m_id rows)
    (map m_id (filter (newer_in_conversation v c (cursor arg))
                 (messages st))).
Proof.
  intros Hme Hact Hrange Hperm.
  rewrite (Permutation_map m_id Hperm).
  rewrite (get_messages_run st v c arg me Hme Hact Hrange).
  cbn [store_after]. rewrite mark_read_messages.
  rewrite filter_map_commute
    by (intros x; unfold newer_in_conversation;
        now rewrite in_conversation_flipped, flipped_id).
  rewrite map_map. erewrite map_ext; [reflexivity|]. apply flipped_id.
Qed.

(** The flips of [get_messages], through the filter the handler is written
    with. *)
Lemma get_messages_flips (st : Store) (v c : Z) (arg : option str)
  (me : User) :
  NoDup (map m_id (messages st)) ->
  get_user st v = Some me -> is_active me = true ->
  in_int64 c && in_int64 (cursor arg) = true ->
  messages (store_after (run (get_messages (Some v) c arg) st))
  = map (fun m => if unread_for v c (cursor arg) m
                  then set_is_read true m else m) (messages st)
  /\ users (store_after (run (get_messages (Some v) c arg) st)) = users st
  /\ commits (run (get_messages (Some v) c arg) st)
     = match filter (unread_for v c (cursor arg)) (messages st) with
       | [] => 0%nat
       | _ :: _ => 1%nat
       end
  /\ (filter (unread_for v c (cursor arg)) (messages st) = [] ->
      store_after (run (get_messages (Some v) c arg) st) = st).
Proof.
  intros Hnd Hme Hact Hrange.
  rewrite (get_messages_run st v c arg me Hme Hact Hrange).
  cbn [result store_after commits].
  destruct (unread_keys_rows st v c (cursor arg) Hnd) as [Hperm Hrow].
  set (keys := keys_where st _ _) in *.
  split; [|split; [apply mark_read_users|split]].
  - rewrite mark_read_messages. apply map_ext_in. intros m Hm.
    unfold flipped. now rewrite (Hrow m Hm).
  - destruct (filter (unread_for v c (cursor arg)) (messages st)) as [|x l].
    + apply Permutation_sym, Permutation_nil in Hperm. now rewrite Hperm.
    + destruct keys; [|reflexivity].
      apply Permutation_nil in Hperm. discriminate.
  - intros Hnone. rewrite Hnone in Hperm.
    apply Permutation_sym, Permutation_nil in Hperm. now rewrite Hperm.
Qed.

(** C4. [get_messages] flips to read exactly the answered messages that
    are addressed to the viewer and unread, and leaves every other row and
    every account as it was; it commits when there is such a message, and
    otherwise commits nothing and leaves the store as it was.  A request the
    driver cannot bind is answered the 500 page and changes nothing. *)
Theorem get_messages_flips_only_unread (st : Store) (v c : Z)
  (arg : option str) (me : User) :
  NoDup (map m_id (messages st)) ->
  (forall m, In m (messages st) -> get_user st (sender_id m) <> None) ->
  get_user st v = Some me -> is_active me = true ->
  0 <= c ->
  (c < 2 ^ 63 /\ - 2 ^ 63 <= cursor arg < 2 ^ 63 ->
   exists ds,
     result (run (get_messages (Some v) c arg) st) = JsonMessages ds
     /\ users (store_after (run (get_messages (Some v) c arg) st)) = users st
     /\ Forall2 (fun m m' => (to_flip ds v m -> m' = as_read m)
                             /\ (~ to_flip ds v m -> m' = m))
          (messages st)
          (messages (store_after (run (get_messages (Some v) c arg) st)))
     /\ ((exists m, In m (messages st) /\ to_flip ds v m) ->
         commits (run (get_messages (Some v) c arg) st) = 1%nat)
     /\ ((forall m, In m (messages st) -> ~ to_flip ds v m) ->
         commits (run (get_messages (Some v) c arg) st) = 0%nat
         /\ store_after (run (get_messages (Some v) c arg) st) = st))
  /\ (~ (c < 2 ^ 63 /\ - 2 ^ 63 <= cursor arg < 2 ^ 63) ->
      run (get_messages (Some v) c arg) st = mkOutcome Error500 st 0%nat).
Proof.
  intros Hnd Hfk Hme Hact Hc. split.
  - intros [Hc' Hcur].
    assert (Hrange : in_int64 c && in_int64 (cursor arg) = true)
      by (apply bound_for_driver; lia).
    destruct (get_messages_rows st v c arg me Hnd Hfk Hme Hact Hrange)
      as [rows [ds [Hres [Hds [Hperm _]]]]].
    destruct (get_messages_flips st v c arg me Hnd Hme Hact Hrange)
      as [Hmsgs [Husers [Hcommits Hnone]]].
    assert (Hiff : forall m, In m (messages st) ->
                     unread_for v c (cursor arg) m = true <-> to_flip ds v m).
    { intros m Hm. apply (unread_for_to_flip st v c _ rows); try assumption.
      now apply (answered_keys st v c arg me). }
    exists ds. split; [exact Hres|]. split; [exact Husers|].
    split; [|split].
    + rewrite Hmsgs. apply Forall2_map_in. intros m Hm.
      destruct (unread_for v c (cursor arg) m) eqn:Hu.
      * split; [intros _; apply as_read_set|].
        intros Hno. exfalso. apply Hno. now apply Hiff.
      * split; [|reflexivity].
        intros Hyes. apply Hiff in Hyes; [congruence|assumption].
    + intros [m [Hm Hflip]]. rewrite Hcommits.
      destruct (filter (unread_for v c (cursor arg)) (messages st)) eqn:Hf;
        [|reflexivity].
      exfalso. apply (proj2 (Hiff m Hm)) in Hflip.
      assert (Hin : In m (filter (unread_for v c (cursor arg)) (messages st)))
        by (apply filter_In; auto).
      now rewrite Hf in Hin.
    + intros Hno.
      assert (Hf : filter (unread_for v c (cursor arg)) (messages st) = []).
      { apply filter_none. intros m Hm. apply Bool.not_true_iff_false.
        intros Hu. apply (Hno m Hm). now apply Hiff. }
      rewrite Hcommits, Hf. split; [reflexivity|now apply Hnone].
  - intros Hout. apply (get_messages_refused st v c arg me Hme Hact).
    now apply bound_exceeded.
Qed.


(** *** The poll as the application serves it

    [update_last_seen] runs before the handler and commits the viewer's
    [last_seen]; the response, the flips and the handler's own commit are
    those of [get_messages]. *)

Lemma get_user_touch st pk t k :
  get_user (update_user pk (set_last_seen t) st) k
  = option_map (fun u => if u_id u =? pk then set_last_seen t u else u)
      (get_user st k).
Proof.
  unfold get_user, update_user. cbn [users].
  induction (users st) as [|x l IH]; simpl; [reflexivity|].
  replace (u_id (if u_id x =? pk then set_last_seen t x else x)) with (u_id x)
    by now destruct (u_id x =? pk).
  destruct (u_id x =? k); [reflexivity|apply IH].
Qed.

Lemma to_dict_touch st pk t m :
  to_dict (update_user pk (set_last_seen t) st) m = to_dict st m.
Proof.
  unfold to_dict. rewrite get_user_touch.
  destruct (get_user st (sender_id m)) as [u|]; [|reflexivity].
  cbn [option_map]. now destruct (u_id u =? pk).
Qed.

Lemma mark_read_touch keys pk t st :
  mark_read keys (update_user pk (set_last_seen t) st)
  = update_user pk (set_last_seen t) (mark_read keys st).
Proof.
  unfold mark_read. revert st.
  induction keys as [|k keys IH]; intros st; simpl; [reflexivity|].
  now rewrite <- IH.
Qed.

Lemma load_messages st st' ks :
  messages st' = messages st -> load st' ks = load st ks.
Proof. unfold load, get_message. now intros ->. Qed.

Lemma served_poll (st : Store) (env : Env) (c : Z) (arg : option str)
  (v : Z) (me : User) :
  session_user env = Some v -> get_user st v = Some me ->
  is_active me = true ->
  result (run (serve env (GetMessages c arg)) st)
  = result (run (get_messages (Some v) c arg) st)
  /\ store_after (run (serve env (GetMessages c arg)) st)
     = update_user v (set_last_seen (clock env))
         (store_after (run (get_messages (Some v) c arg) st))
  /\ commits (run (serve env (GetMessages c arg)) st)
     = S (commits (run (get_messages (Some v) c arg) st)).
Proof.
  intros Hs Hme Hact.
  destruct (get_user_id _ _ _ Hme) as [Hv _].
  assert (Hme1 : get_user (update_user v (set_last_seen (clock env)) st) v
                 = Some (if u_id me =? v then set_last_seen (clock env) me
                         else me))
    by (now rewrite get_user_touch, Hme).
  destruct (in_int64 c && in_int64 (cursor arg)) eqn:Hrange.
  2:{ rewrite (get_messages_refused st v c arg me Hme Hact Hrange).
      cbn [result store_after commits].
      unfold run, serve, route. rewrite Hs.
      cbv [bind update_last_seen current_user query modify commit ret].
      cbn [pending durable n_commits fst snd].
      enter_as Hme (active_authenticated me Hact). rewrite Hv.
      cbn [pending durable n_commits fst snd].
      rewrite (get_messages_overflow _ _ 1%nat v c arg _ Hme1)
        by (assumption || now destruct (u_id me =? v)).
      now cbn. }
  rewrite (get_messages_run st v c arg me Hme Hact Hrange).
  cbn [result store_after commits].
  unfold run, serve, route. rewrite Hs.
  cbv [bind update_last_seen current_user query modify commit ret].
  cbn [pending durable n_commits fst snd].
  enter_as Hme (active_authenticated me Hact). rewrite Hv.
  cbn [pending durable n_commits fst snd].
  set (st1 := update_user v (set_last_seen (clock env)) st).
  fold st1 in Hme1.
  rewrite (get_messages_on st1 st1 1%nat v c arg _ Hme1)
    by (assumption || now destruct (u_id me =? v)).
  change (select_ordered (newer_in_conversation v c (cursor arg)) st1)
    with (select_ordered (newer_in_conversation v c (cursor arg)) st).
  set (msgs := select_ordered _ st).
  change (keys_where st1 (fun m => (receiver_id m =? v) && negb (is_read m))
            msgs)
    with (keys_where st (fun m => (receiver_id m =? v) && negb (is_read m))
            msgs).
  set (unread := keys_where st _ msgs).
  cbn [result store_after commits durable n_commits].
  rewrite (map_option_ext (to_dict st1) (to_dict st))
    by (intros a; apply to_dict_touch).
  rewrite (load_messages (mark_read unread st) (mark_read unread st1))
    by (now rewrite !mark_read_messages).
  split; [reflexivity|].
  unfold st1. rewrite mark_read_touch.
  destruct unread; split; reflexivity.
Qed.

(** ** Sending *)

Lemma find_past_prefix {A} (p : A -> bool) (l1 l2 : list A) (a : A) :
  (forall x, In x l1 -> p x = false) -> p a = true ->
  find p (l1 ++ a :: l2) = Some a.
Proof.
  intros Hl1 Ha. induction l1 as [|x l1 IH]; simpl.
  - now rewrite Ha.
  - rewrite (Hl1 x) by now left. apply IH. intros y Hy. apply Hl1. now right.
Qed.

Lemma in_firstn {A} (n : nat) (l : list A) (x : A) :
  In x (firstn n l) -> In x l.
Proof.
  intros H. rewrite <- (firstn_skipn n l). apply in_or_app. now left.
Qed.

Lemma in_skipn {A} (n : nat) (l : list A) (x : A) :
  In x (skipn n l) -> In x l.
Proof.
  intros H. rewrite <- (firstn_skipn n l). apply in_or_app. now right.
Qed.

Lemma insert_at_perm {A} (pos : nat) (a : A) (l : list A) :
  Permutation (insert_at pos a l) (a :: l).
Proof.
  unfold insert_at. rewrite <- (firstn_skipn pos l) at 3.
  symmetry. apply Permutation_middle.
Qed.

(** A new row is found under its own key. *)
Lemma get_message_new st pos (row : Message) :
  m_id row = next_id (map m_id (messages st)) ->
  get_message (add_message pos row st) (next_id (map m_id (messages st)))
  = Some row.
Proof.
  intros Hid. unfold get_message, add_message, insert_at. cbn [messages].
  apply find_past_prefix.
  - intros x Hx. apply in_firstn in Hx.
    pose proof (next_id_above (map m_id (messages st)) (m_id x)
                  (in_map m_id _ _ Hx)).
    apply Z.eqb_neq. lia.
  - apply Z.eqb_eq. assumption.
Qed.

(** The insert of [send_message], unfolded to the store. *)
Lemma store_message_run (st st0 : Store) (n : nat) (me receiver : User)
  (text : str) (url type public_id : option str) (pos : nat) (now : datetime) :
  get_user st (u_id me) = Some me ->
  exists d,
    to_dict st (new_message st text url type (u_id me) (u_id receiver) now)
    = Some d
    /\ store_message me receiver text url type public_id pos now
         (mkDb st0 st n)
       = (JsonSent d public_id,
          mkDb (add_message pos
                  (new_message st text url type (u_id me) (u_id receiver) now)
                  st)
               (add_message pos
                  (new_message st text url type (u_id me) (u_id receiver) now)
                  st)
               (S n)).
Proof.
  intros Hme.
  set (row := new_message st text url type (u_id me) (u_id receiver) now).
  assert (Hd : exists d, to_dict st row = Some d).
  { unfold to_dict. cbn [row new_message sender_id]. rewrite Hme. eauto. }
  destruct Hd as [d Hd]. exists d. split; [assumption|].
  unfold store_message. run_handler. fold row.
  rewrite get_message_new by reflexivity.
  rewrite (to_dict_users st (add_message pos row st)) by reflexivity.
  now rewrite Hd.
Qed.

(** C5 (as amended).  For an active sender and a request that names a
    receiver: [send_message] fails with [NotReachable] when the receiver
    does not exist or cannot chat, whatever the content; it fails with
    [EmptyMessage] when the receiver can chat, the trimmed text is empty
    and no file is attached.  In both cases the store is unchanged and
    nothing is committed. *)
Theorem send_message_rejections (st : Store) (v : Z) (me : User)
  (rid text : str) (file : option FileStorage) (reply : CloudinaryReply)
  (pos : nat) (now : datetime) :
  get_user st v = Some me -> is_active me = true -> truthy rid = true ->
  ((forall r, match pk_of_text rid with
              | Some pk => get_user st pk
              | None => None
              end = Some r -> can_chat r = false) ->
   run (send_message (Some v) (Some rid) text file reply pos now) st
   = mkOutcome (JsonError NotReachable) st 0%nat)
  /\ (forall r,
        match pk_of_text rid with
        | Some pk => get_user st pk
        | None => None
        end = Some r -> can_chat r = true ->
        truthy (strip text) = false -> has_file file = false ->
        run (send_message (Some v) (Some rid) text file reply pos now) st
        = mkOutcome (JsonError EmptyMessage) st 0%nat).
Proof.
  intros Hme Hact Hrid. unfold send_message. run_handler.
  enter_as Hme (active_authenticated me Hact).
  rewrite Hact, Hrid. cbn [negb]. run_handler.
  destruct (match pk_of_text rid with
            | Some pk => get_user st pk
            | None => None
            end) as [r|]; split.
  - intros H. now rewrite (H r eq_refl).
  - intros r' E Hchat Htext Hfile. injection E as <-.
    now rewrite Hchat, Htext, Hfile.
  - reflexivity.
  - discriminate.
Qed.

(** What [send_message] does with a message it accepts, through the row
    and the answer the handler builds. *)
Lemma send_message_accepts (st : Store) (v r : Z)
  (me receiver : User) (rid text : str) (file : option FileStorage)
  (reply : CloudinaryReply) (pos : nat) (now : datetime) :
  get_user st v = Some me -> is_active me = true ->
  truthy rid = true -> pk_of_text rid = Some r ->
  get_user st r = Some receiver -> can_chat receiver = true ->
  (has_file file = false -> truthy (strip text) = true ->
   exists d,
     to_dict st (new_message st (strip text) None None v r now) = Some d
     /\ run (send_message (Some v) (Some rid) text file reply pos now) st
        = mkOutcome (JsonSent d None)
            (add_message pos
               (new_message st (strip text) None None v r now) st)
            1%nat)
  /\ (forall f url public_id resource_type,
        file = Some f -> truthy (filename f) = true ->
        file_size f < max_file_size ->
        upload_to_cloudinary f "chat_app" reply
        = UploadOk url public_id resource_type ->
        exists d,
          to_dict st (new_message st (strip text) (Some url)
                        (Some resource_type) v r now) = Some d
          /\ run (send_message (Some v) (Some rid) text file reply pos now) st
             = mkOutcome (JsonSent d (Some public_id))
                 (add_message pos
                    (new_message st (strip text) (Some url)
                       (Some resource_type) v r now) st)
                 1%nat).
Proof.
  intros Hme Hact Hrid Hpk Hrecv Hchat.
  destruct (get_user_id _ _ _ Hme) as [Hv _].
  destruct (get_user_id _ _ _ Hrecv) as [Hr _].
  assert (Hme' : get_user st (u_id me) = Some me) by now rewrite Hv.
  split.
  - intros Hfile Htext.
    destruct (store_message_run st st 0%nat me receiver (strip text)
                None None None pos now Hme') as [d [Hd Hrun]].
    rewrite Hv, Hr in Hd, Hrun. exists d. split; [assumption|].
    unfold send_message. run_handler.
    enter_as Hme (active_authenticated me Hact).
    rewrite Hact, Hrid, Hpk. cbn [negb]. run_handler.
    rewrite Hrecv.
    rewrite Hchat, Htext. cbn [negb andb].
    destruct file as [f|]; [|now rewrite Hrun].
    cbn [has_file] in Hfile. rewrite Hfile. now rewrite Hrun.
  - intros f url public_id resource_type -> Hname Hsize Hup.
    destruct (store_message_run st st 0%nat me receiver (strip text)
                (Some url) (Some resource_type) (Some public_id) pos now Hme')
      as [d [Hd Hrun]].
    rewrite Hv, Hr in Hd, Hrun. exists d. split; [assumption|].
    unfold send_message. run_handler.
    enter_as Hme (active_authenticated me Hact).
    rewrite Hact, Hrid, Hpk. cbn [negb]. run_handler.
    rewrite Hrecv.
    rewrite Hchat. cbn [has_file negb]. rewrite Hname.
    cbn [negb]. rewrite andb_false_r.
    destruct (Z.ltb_spec max_file_size (file_size f)); [lia|].
    rewrite Hup. now rewrite Hrun.
Qed.

Lemma truthy_nonempty (s : str) : truthy s = true <-> s <> [].
Proof. destruct s; simpl; split; congruence. Qed.

Lemma next_id_fresh (tbl : list Message) :
  ~ In (next_id (map m_id tbl)) (map m_id tbl)
  /\ forall m, In m tbl -> m_id m < next_id (map m_id tbl).
Proof.
  split.
  - intros H. apply next_id_above in H. lia.
  - intros m Hm. apply next_id_above. now apply in_map.
Qed.

Lemma stored_and_answered (st : Store) (row : Message) (d : MessageDict)
  (public_id : option str) (pos : nat) (out : Outcome Response) :
  to_dict st row = Some d ->
  out = mkOutcome (JsonSent d public_id) (add_message pos row st) 1%nat ->
  sent st out row public_id.
Proof.
  intros Hd ->. unfold sent. cbn [result commits store_after].
  split; [exists d; split; [reflexivity|now apply to_dict_describes]|].
  split; [reflexivity|]. split; [reflexivity|]. apply insert_at_perm.
Qed.

(** C10. The sender's [is_blocked] flag is never looked at: for an
    authenticated sender with [is_active], whatever [is_blocked] says, a
    message with text, or with an attachment the media host accepts, to a
    receiver who can chat is stored and answered: one row under a key above
    every key of the table, unread, stamped with the clock, from the sender
    to the receiver, added under one commit that changes no account and no
    other message.  The form is one the server has read: its text and its
    file came in a body within [MAX_CONTENT_LENGTH]. *)
Theorem send_message_ignores_sender_block (st : Store) (v r : Z)
  (me receiver : User) (rid text : str) (file : option FileStorage)
  (reply : CloudinaryReply) (pos : nat) (now : datetime) :
  get_user st v = Some me -> is_active me = true ->
  fits_body text file ->
  rid <> [] -> pk_of_text rid = Some r ->
  get_user st r = Some receiver ->
  is_active receiver = true -> is_blocked receiver = false ->
  (strip text <> [] ->
   file = None \/ (exists f, file = Some f /\ filename f = []) ->
   exists key,
     (forall m, In m (messages st) -> m_id m < key)
     /\ sent st
          (run (send_message (Some v) (Some rid) text file reply pos now) st)
          (mkMessage key (Some (strip text)) None None false now v r)
          None)
  /\ (forall f url public_id,
        file = Some f -> filename f <> [] ->
        reply = Uploaded url public_id ->
        exists key kind,
          (forall m, In m (messages st) -> m_id m < key)
          /\ (kind = lit "image" \/ kind = lit "video" \/ kind = lit "auto")
          /\ sent st
               (run (send_message (Some v) (Some rid) text file reply pos now)
                  st)
               (mkMessage key
                  (match strip text with
                   | [] => None
                   | _ :: _ => Some (strip text)
                   end)
                  (Some url) (Some kind) false now v r)
               (Some public_id)).
Proof.
  intros Hme Hact Hfits Hrid Hpk Hrecv Hra Hrb.
  assert (Hchat : can_chat receiver = true)
    by (unfold can_chat; now rewrite Hra, Hrb).
  apply truthy_nonempty in Hrid.
  destruct (send_message_accepts st v r me receiver rid text file reply pos
              now Hme Hact Hrid Hpk Hrecv Hchat) as [Htext Hfile].
  destruct (next_id_fresh (messages st)) as [_ Habove].
  split.
  - intros Hnonempty Hnofile. apply truthy_nonempty in Hnonempty.
    assert (Hno : has_file file = false)
      by (destruct Hnofile as [-> | [f [-> Hf]]];
          [reflexivity|cbn [has_file]; now rewrite Hf]).
    destruct (Htext Hno Hnonempty) as [d [Hd Hrun]].
    exists (next_id (map m_id (messages st))). split; [exact Habove|].
    unfold new_message in Hd, Hrun. rewrite Hnonempty in Hd, Hrun.
    exact (stored_and_answered _ _ _ _ _ _ Hd Hrun).
  - intros f url public_id Hf Hname Hreply.
    apply truthy_nonempty in Hname.
    assert (Hsize : file_size f < max_file_size).
    { unfold fits_body, max_content_length in Hfits. rewrite Hf in Hfits.
      unfold max_file_size. lia. }
    assert (Hup : exists kind,
               (kind = lit "image" \/ kind = lit "video" \/ kind = lit "auto")
               /\ upload_to_cloudinary f "chat_app" reply
                  = UploadOk url public_id kind).
    { rewrite Hreply. unfold upload_to_cloudinary.
      repeat match goal with
             | |- context [if ?b then _ else _] => destruct b
             end; eauto. }
    destruct Hup as [kind [Hkind Hup]].
    destruct (Hfile f url public_id kind Hf Hname Hsize Hup) as [d [Hd Hrun]].
    exists (next_id (map m_id (messages st))), kind.
    split; [exact Habove|]. split; [exact Hkind|].
    unfold new_message in Hd, Hrun.
    assert (Hcontent : (if truthy (strip text) then Some (strip text)
                        else None)
                       = match strip text with
                         | [] => None
                         | _ :: _ => Some (strip text)
                         end)
      by now destruct (strip text).
    rewrite Hcontent in Hd, Hrun.
    exact (stored_and_answered _ _ _ _ _ _ Hd Hrun).
Qed.

(** ** Deleting an account *)

(** C9. [delete_user], called by an authenticated admin: on an admin
    target it is refused and changes nothing; on any other target it
    deletes every message the target sent or received and the account
    itself under one commit, after which no stored message mentions the
    deleted key. *)
Theorem delete_user_cascades (st : Store) (a target : Z) (me user : User) :
  get_user st a = Some me -> is_authenticated me = true ->
  is_admin me = true ->
  get_user st target = Some user ->
  (is_admin user = true ->
   run (delete_user (Some a) target) st
   = mkOutcome
       (Redirect "admin_dashboard"
          [flash "Tidak dapat menghapus admin lain!" "error"])
       st 0%nat)
  /\ (is_admin user = false ->
      store_after (run (delete_user (Some a) target) st)
      = remove_user target (delete_messages_of target st)
      /\ commits (run (delete_user (Some a) target) st) = 1%nat
      /\ List.length
           (filter (references target)
              (messages (store_after (run (delete_user (Some a) target) st))))
         = 0%nat
      /\ get_user (store_after (run (delete_user (Some a) target) st)) target
         = None
      /\ (forall m, In m (messages st) -> references target m = false ->
          In m (messages
                  (store_after (run (delete_user (Some a) target) st))))).
Proof.
  intros Hme Hauth Hadm Huser.
  destruct (get_user_id _ _ _ Huser) as [Hid _].
  unfold delete_user. run_handler. enter_as Hme Hauth.
  rewrite Hadm. cbn [negb].
  run_handler. rewrite Huser.
  split; intros Hu; rewrite Hu; [reflexivity|].
  run_handler. rewrite Hid.
  split; [reflexivity|]. split; [reflexivity|].
  cbn [remove_user delete_messages_of messages users].
  split; [|split].
  - rewrite filter_both. rewrite filter_none; [reflexivity|].
    intros m _. unfold references. apply andb_negb_l.
  - unfold get_user. cbn [users].
    destruct (find _ _) as [u|] eqn:F; [|reflexivity].
    apply find_some in F. destruct F as [F E]. apply filter_In in F.
    destruct F as [_ F]. rewrite E in F. discriminate.
  - intros m Hm Href. apply filter_In. split; [assumption|].
    unfold references in Href. now rewrite Href.
Qed.

(** ** What a request may do to the tables *)

Lemma route_message_effect env req st n :
  message_effect (session_user env) (messages st)
    (messages (durable (snd (route env req (mkDb st st n))))).
Proof.
  destruct req.
  5:{ (* get_messages *)
    unfold_handlers.
    destruct (session_user env) as [z|]; [|apply effect_none].
    destruct (get_user st z) as [u|] eqn:Hu; [|apply effect_none].
    destruct (is_authenticated u); [|apply effect_none].
    destruct (negb (is_active u)); [apply effect_none|]. cbv beta.
    destruct (negb (in_int64 _ && in_int64 _)); [apply effect_none|].
    cbn [pending durable n_commits fst snd].
    destruct (get_user_id _ _ _ Hu) as [Hz _].
    match goal with |- context [select_ordered ?p st] =>
      set (msgs := select_ordered p st) end.
    match goal with |- context [filter ?q msgs] =>
      set (keys := filter q msgs) end.
    assert (Hkeys : forall k, In k keys ->
              exists m, In m (messages st) /\ m_id m = k
                        /\ receiver_id m = z).
    { intros k Hk. apply filter_In in Hk. destruct Hk as [_ Hq].
      destruct (get_message st k) as [m|] eqn:Hget; [|discriminate].
      destruct (find_key_id _ _ _ Hget) as [Hid Hin].
      exists m. repeat split; [assumption..|]. lia. }
    destruct keys as [|k keys].
    - cbn. destruct (map_option _ _); apply effect_none.
    - cbn [pending durable fst snd].
      destruct (map_option _ _); cbn [durable snd];
        rewrite mark_read_messages; now apply (effect_read _ _ z). }
  all: unfold_handlers; split_cases; try apply effect_none;
    try (apply effect_insert; reflexivity); try apply effect_delete.
  - (* chat *)
    rewrite mark_read_messages. apply (effect_read _ _ z); [reflexivity|].
    intros k Hk. apply in_select in Hk. destruct Hk as [m [Hin [Hp E]]].
    exists m. repeat split; [assumption..|].
    match goal with H : get_user st z = Some _ |- _ =>
      destruct (get_user_id _ _ _ H) end.
    lia.
  - (* delete_all_messages *)
    rewrite <- (filter_none (fun _ => false) (messages st)) by reflexivity.
    apply effect_delete.
Qed.

Lemma route_user_effect env req st n :
  user_effect (users st)
    (users (durable (snd (route env req (mkDb st st n))))).
Proof.
  destruct req.
  5:{ (* get_messages *)
    unfold_handlers.
    destruct (session_user env) as [z|]; [|apply user_same].
    destruct (get_user st z) as [u|] eqn:Hu; [|apply user_same].
    destruct (is_authenticated u); [|apply user_same].
    destruct (negb (is_active u)); [apply user_same|]. cbv beta.
    destruct (negb (in_int64 _ && in_int64 _)); [apply user_same|].
    cbn [pending durable n_commits fst snd].
    match goal with |- context [select_ordered ?p st] =>
      set (msgs := select_ordered p st) end.
    match goal with |- context [filter ?q msgs] =>
      set (keys := filter q msgs) end.
    destruct keys as [|k keys].
    - cbn. destruct (map_option _ _); apply user_same.
    - cbn [pending durable fst snd].
      destruct (map_option _ _); cbn [durable snd];
        rewrite mark_read_users; apply user_same. }
  all: unfold_handlers; split_cases; try rewrite mark_read_users.
  all: repeat first
         [ apply user_same
         | apply user_update; [|intros ?; split; reflexivity]
         | apply user_add; [|reflexivity] ].
  apply user_remove; [apply user_same| |assumption].
  eapply get_user_id; eassumption.
Qed.

Lemma user_effect_trans a b c :
  user_effect a b -> user_effect b c -> user_effect a c.
Proof.
  intros Hab Hbc. induction Hbc; [assumption|..].
  - now apply user_update.
  - now apply user_add.
  - now apply user_remove.
Qed.

(** A request is the hook, which touches [last_seen] only, and then the
    route on the committed result. *)
Lemma step_route env req st :
  exists st1 n,
    step env req st = durable (snd (route env req (mkDb st1 st1 n)))
    /\ (st1 = st
        \/ exists pk, st1 = update_user pk (set_last_seen (clock env)) st).
Proof.
  cbv [step run serve bind update_last_seen current_user query modify
       commit ret].
  cbn [pending durable n_commits fst snd].
  match goal with
  | |- context [match ?x with Some _ => _ | None => _ end
                  {| durable := st; pending := st; n_commits := 0 |}] =>
      destruct x as [me|]
  end.
  - exists (update_user (u_id me) (set_last_seen (clock env)) st), 1%nat.
    split; [|right; eauto].
    destruct (route env req _) as [r d]. reflexivity.
  - exists st, 0%nat. split; [|now left].
    destruct (route env req _) as [r d]. reflexivity.
Qed.

Lemma step_message_effect env req st :
  message_effect (session_user env) (messages st) (messages (step env req st)).
Proof.
  destruct (step_route env req st) as [st1 [n [-> [->|[pk ->]]]]].
  - apply route_message_effect.
  - apply (route_message_effect env req
             (update_user pk (set_last_seen (clock env)) st) n).
Qed.

Lemma step_user_effect env req st :
  user_effect (users st) (users (step env req st)).
Proof.
  destruct (step_route env req st) as [st1 [n [-> [->|[pk ->]]]]];
    [apply route_user_effect|].
  eapply user_effect_trans; [|apply route_user_effect].
  cbn [users update_user]. apply user_update; [apply user_same|].
  intros u. split; reflexivity.
Qed.

(** ** Invariants of the reachable states *)

Lemma str_eqb_eq (a b : str) : str_eqb a b = true <-> a = b.
Proof.
  revert b. induction a as [|x a IH]; intros [|y b]; simpl;
    try (split; [discriminate|discriminate]); [tauto|].
  rewrite andb_true_iff, N.eqb_eq, IH. split.
  - intros [-> ->]. reflexivity.
  - intros E. injection E. auto.
Qed.

Lemma message_effect_well_formed who tbl tbl' :
  message_effect who tbl tbl' ->
  NoDup (map m_id tbl) -> (forall m, In m tbl -> 0 < m_id m) ->
  NoDup (map m_id tbl') /\ (forall m, In m tbl' -> 0 < m_id m).
Proof.
  intros [|v keys _ _|pos row Hid|p] Hnd Hpos.
  - auto.
  - split.
    + rewrite map_map. erewrite map_ext; [exact Hnd|]. apply flipped_id.
    + intros m Hm. apply in_map_iff in Hm. destruct Hm as [m0 [<- Hm0]].
      rewrite flipped_id. auto.
  - split.
    + apply (Permutation_NoDup
               (Permutation_map m_id
                  (Permutation_sym (insert_at_perm pos row tbl)))).
      simpl. constructor; [|assumption].
      intros Hin. apply next_id_above in Hin. lia.
    + intros m Hm. apply (Permutation_in _ (insert_at_perm pos row tbl)) in Hm.
      destruct Hm as [<-|Hm]; [|auto].
      rewrite Hid. apply next_id_positive.
  - split; [now apply filter_keeps_keys_unique|].
    intros m Hm. apply filter_In in Hm. apply Hpos. tauto.
Qed.

Lemma unique_user_row (tbl : list User) (u u' : User) :
  NoDup (map u_id tbl) -> In u tbl -> In u' tbl -> u_id u = u_id u' -> u = u'.
Proof.
  induction tbl as [|x tbl IH]; simpl; intros Hnd Hu Hu' E; [contradiction|].
  inversion Hnd as [|? ? Hnin Hnd']; subst.
  destruct Hu as [->|Hu], Hu' as [->|Hu']; auto.
  - exfalso. apply Hnin. rewrite E. now apply in_map.
  - exfalso. apply Hnin. rewrite <- E. now apply in_map.
Qed.

Lemma user_effect_invariant tbl tbl' :
  user_effect tbl tbl' -> NoDup (map u_id tbl) ->
  NoDup (map u_id tbl') /\ (has_admin tbl -> has_admin tbl').
Proof.
  induction 1 as [|tbl' pk f _ IH Hf|tbl' u _ IH Hid|tbl' u _ IH Hin Hu];
    intros Hnd; [tauto|..]; destruct (IH Hnd) as [Hnd' Hadm]; clear IH.
  - split.
    + rewrite map_map. erewrite map_ext; [exact Hnd'|].
      intros x. simpl. destruct (u_id x =? pk); [apply Hf|reflexivity].
    + intros Ha. destruct (Hadm Ha) as [x [Hx Hxa]].
      exists (if u_id x =? pk then f x else x). split.
      * apply in_map_iff. eauto.
      * destruct (u_id x =? pk); [|assumption].
        now rewrite (proj2 (Hf x)).
  - split.
    + rewrite map_app. simpl.
      apply (Permutation_NoDup (Permutation_cons_append _ _)).
      constructor; [|assumption].
      intros Hin. apply next_id_above in Hin. lia.
    + intros Ha. destruct (Hadm Ha) as [x [Hx Hxa]].
      exists x. split; [apply in_or_app; now left|assumption].
  - split; [now apply filter_keeps_keys_unique|].
    intros Ha. destruct (Hadm Ha) as [x [Hx Hxa]].
    exists x. split; [|assumption]. apply filter_In. split; [assumption|].
    apply negb_true_iff, Z.eqb_neq. intros E.
    rewrite (unique_user_row _ _ _ Hnd' Hx Hin E) in Hxa. congruence.
Qed.

Lemma create_tables_store salt now :
  create_tables salt now
  = mkStore [mkUser 1 admin_username admin_email
               (generate_password_hash salt admin_password) default_avatar
               [] [] true true false now now] [].
Proof. reflexivity. Qed.

Lemma reachable_invariant st :
  reachable st -> well_formed st /\ has_admin (users st).
Proof.
  induction 1 as [salt now|st env req _ [[Hm Hp Hu] Ha]].
  - rewrite create_tables_store. split.
    + constructor; simpl; [constructor|contradiction|].
      constructor; [intros []|constructor].
    + eexists. split; [now left|reflexivity].
  - destruct (message_effect_well_formed _ _ _
                (step_message_effect env req st) Hm Hp) as [Hm' Hp'].
    destruct (user_effect_invariant _ _ (step_user_effect env req st) Hu)
      as [Hu' Ha'].
    split; [constructor; assumption|auto].
Qed.

(** C7. In every reachable state and for every request, a message that is
    stored before and after is the same row except possibly for [is_read];
    [is_read] never goes from true to false; and where it changed, the
    requester is the message's receiver. *)
Theorem messages_change_only_by_read_flip (st : Store) (env : Env)
  (req : Request) (m m' : Message) :
  reachable st ->
  In m (messages st) -> In m' (messages (step env req st)) ->
  m_id m' = m_id m ->
  m' = set_is_read (is_read m') m
  /\ (is_read m = true -> is_read m' = true)
  /\ (is_read m' <> is_read m -> session_user env = Some (receiver_id m)).
Proof.
  intros Hreach Hm Hm' Hid.
  destruct (reachable_invariant st Hreach) as [[Hnd _ _] _].
  assert (Hsame : In m' (messages st) ->
            m' = set_is_read (is_read m') m
            /\ (is_read m = true -> is_read m' = true)
            /\ (is_read m' <> is_read m ->
                session_user env = Some (receiver_id m))).
  { intros Hin. rewrite (unique_key_row _ _ _ Hnd Hin Hm Hid).
    rewrite set_is_read_same. tauto. }
  destruct (step_message_effect env req st) as [|v keys Hwho Hkeys|pos row Hrow|p].
  - auto.
  - apply in_map_iff in Hm'. destruct Hm' as [m0 [<- Hm0]].
    rewrite flipped_id in Hid.
    rewrite (unique_key_row _ _ _ Hnd Hm0 Hm Hid). clear m0 Hm0 Hid Hsame.
    unfold flipped. destruct (existsb (Z.eqb (m_id m)) keys) eqn:Hk.
    + cbn [is_read set_is_read]. repeat split.
      intros _. apply existsb_key in Hk.
      destruct (Hkeys _ Hk) as [mk [Hmk [E Hrecv]]].
      rewrite (unique_key_row _ _ _ Hnd Hmk Hm E) in Hrecv.
      now rewrite Hwho, Hrecv.
    + rewrite set_is_read_same. tauto.
  - apply (Permutation_in _ (insert_at_perm pos row _)) in Hm'.
    destruct Hm' as [<-|Hin]; [|auto].
    exfalso. pose proof (next_id_above _ _ (in_map m_id _ _ Hm)). lia.
  - apply filter_In in Hm'. tauto.
Qed.

(** ** The admin account *)

Lemma find_named_admin (tbl : list User) :
  match find (fun u => str_eqb (username u) admin_username && is_admin u) tbl
  with
  | Some _ => has_named_admin tbl
  | None => ~ has_named_admin tbl
  end.
Proof.
  destruct (find _ tbl) as [u|] eqn:F.
  - apply find_some in F. destruct F as [Hin Hp].
    apply andb_true_iff in Hp. destruct Hp as [Hn Ha].
    apply str_eqb_eq in Hn. exists u. auto.
  - intros [u [Hin [Hn Ha]]].
    pose proof (find_none _ _ F u Hin) as Hp. cbv beta in Hp.
    apply str_eqb_eq in Hn. rewrite Hn, Ha in Hp. discriminate.
Qed.

Lemma exists_taken (tbl : list User) :
  existsb (fun u => str_eqb (username u) admin_username
                    || str_eqb (email u) admin_email) tbl = true
  <-> name_or_email_taken tbl.
Proof.
  rewrite existsb_exists. unfold name_or_email_taken.
  split; intros [u [Hin H]]; exists u; (split; [assumption|]).
  - apply orb_true_iff in H. now rewrite !str_eqb_eq in H.
  - apply orb_true_iff. now rewrite !str_eqb_eq.
Qed.

(** [ensure_admin_exists], unfolded to the store. *)
Lemma ensure_admin_exists_run salt now st :
  (has_named_admin (users st) ->
   run (ensure_admin_exists salt now) st = mkOutcome None st 0%nat)
  /\ (~ has_named_admin (users st) -> name_or_email_taken (users st) ->
      run (ensure_admin_exists salt now) st
      = mkOutcome (Some IntegrityError) st 0%nat)
  /\ (~ has_named_admin (users st) -> ~ name_or_email_taken (users st) ->
      run (ensure_admin_exists salt now) st
      = mkOutcome None
          (add_user (new_user st admin_username admin_email
                       (generate_password_hash salt admin_password) true now)
                    st)
          1%nat).
Proof.
  unfold ensure_admin_exists. run_handler.
  pose proof (find_named_admin (users st)) as Hf.
  pose proof (exists_taken (users st)) as Ht.
  destruct (find _ (users st)) as [u|].
  - split; [reflexivity|]. split; intros H; contradiction.
  - run_handler.
    destruct (existsb _ (users st)).
    + split; [intros H; contradiction|]. split; [reflexivity|].
      intros _ H. exfalso. apply H. now apply Ht.
    + split; [intros H; contradiction|]. split; [|reflexivity].
      intros _ H. apply Ht in H. discriminate.
Qed.

(** C8 (as amended). Every reachable state has at least one account with
    [is_admin]: no request removes an admin or clears the flag.  A run of
    [ensure_admin_exists] completes unless the well-known username or email
    is held by an account that is not the named admin, and when it
    completes an admin with the well-known username exists, created if
    there was none. *)
Theorem admin_account_persists (st : Store) :
  reachable st ->
  has_admin (users st)
  /\ forall salt now,
       (result (run (ensure_admin_exists salt now) st) = None
        <-> (has_named_admin (users st)
             \/ ~ name_or_email_taken (users st)))
       /\ (result (run (ensure_admin_exists salt now) st) = None ->
           has_named_admin
             (users (store_after (run (ensure_admin_exists salt now) st))))
       /\ (has_named_admin (users st) ->
           store_after (run (ensure_admin_exists salt now) st) = st).
Proof.
  intros Hreach. split; [apply (reachable_invariant st Hreach)|].
  intros salt now.
  destruct (ensure_admin_exists_run salt now st) as [H1 [H2 H3]].
  pose proof (find_named_admin (users st)) as Hf.
  pose proof (exists_taken (users st)) as Ht.
  destruct (find _ (users st)) as [u|].
  - rewrite (H1 Hf). cbn [result store_after]. tauto.
  - destruct (existsb _ (users st)).
    + rewrite (H2 Hf (proj1 Ht eq_refl)). cbn [result store_after].
      split; [split; [discriminate|]|split; [discriminate|contradiction]].
      intros [H|H]; [contradiction|]. exfalso. apply H. now apply Ht.
    + assert (Hnt : ~ name_or_email_taken (users st))
        by (intros H; apply Ht in H; discriminate).
      rewrite (H3 Hf Hnt). cbn [result store_after].
      split; [split; auto|split; [|contradiction]].
      intros _. eexists. split; [apply in_or_app; right; now left|].
      split; reflexivity.
Qed.

(** ** Senders are accounts *)

Lemma table_effect_trans a b c :
  table_effect a b -> table_effect b c -> table_effect a c.
Proof.
  intros Hab Hbc. induction Hbc; [assumption|..].
  - now apply tables_update.
  - now apply tables_add.
  - now apply tables_read.
  - now apply tables_insert.
  - now apply tables_delete.
  - now apply tables_remove.
Qed.

Lemma table_effect_senders s s' :
  table_effect s s' -> senders_known (fst s) (snd s) ->
  senders_known (fst s') (snd s').
Proof.
  unfold senders_known.
  induction 1 as [|U M pk f _ IH Hf|U M u _ IH|U M keys _ IH
                  |U M pos row _ IH Hrow|U M p _ IH|U M u _ IH Hu Hrefs];
    intros Hs; [assumption|..]; specialize (IH Hs); cbn [fst snd] in *.
  - intros m Hm. rewrite map_map.
    erewrite map_ext; [now apply IH|].
    intros x. cbv beta. destruct (u_id x =? pk); [apply Hf|reflexivity].
  - intros m Hm. rewrite map_app. apply in_or_app. left. now apply IH.
  - intros m Hm. apply in_map_iff in Hm. destruct Hm as [m0 [<- Hm0]].
    rewrite flipped_sender. now apply IH.
  - intros m Hm. apply (Permutation_in _ (insert_at_perm pos row M)) in Hm.
    destruct Hm as [<-|Hm]; [assumption|now apply IH].
  - intros m Hm. apply filter_In in Hm. apply IH. tauto.
  - intros m Hm. specialize (IH m Hm). apply in_map_iff in IH.
    destruct IH as [x [E Hx]]. apply in_map_iff. exists x.
    split; [assumption|]. apply filter_In. split; [assumption|].
    apply negb_true_iff, Z.eqb_neq. intros E'.
    specialize (Hrefs m Hm). unfold references in Hrefs.
    apply orb_false_iff in Hrefs. destruct Hrefs as [Hsend _].
    apply Z.eqb_neq in Hsend. congruence.
Qed.

Lemma route_table_effect env req st n :
  table_effect (users st, messages st)
    (users (durable (snd (route env req (mkDb st st n)))),
     messages (durable (snd (route env req (mkDb st st n))))).
Proof.
  destruct req.
  5:{ (* get_messages *)
    unfold_handlers.
    destruct (session_user env) as [z|]; [|apply tables_same].
    destruct (get_user st z) as [u|] eqn:Hu; [|apply tables_same].
    destruct (is_authenticated u); [|apply tables_same].
    destruct (negb (is_active u)); [apply tables_same|]. cbv beta.
    destruct (negb (in_int64 _ && in_int64 _)); [apply tables_same|].
    cbn [pending durable n_commits fst snd].
    match goal with |- context [select_ordered ?p st] =>
      set (msgs := select_ordered p st) end.
    match goal with |- context [filter ?q msgs] =>
      set (keys := filter q msgs) end.
    destruct keys as [|k keys].
    - cbn. destruct (map_option _ _); apply tables_same.
    - cbn [pending durable fst snd].
      destruct (map_option _ _); cbn [durable snd];
        rewrite mark_read_users, mark_read_messages;
        apply tables_read, tables_same. }
  all: unfold_handlers; split_cases;
    try rewrite mark_read_users; try rewrite mark_read_messages.
  all: repeat first
         [ apply tables_same
         | apply tables_update; [|intros ?; split; reflexivity]
         | apply tables_add
         | apply tables_read ].
  all: try (apply tables_delete; apply tables_same).
  all: try (apply tables_insert;
            [ apply tables_same
            | cbn [new_message sender_id]; apply in_map;
              eapply get_user_id; eassumption ]).
  - (* delete_user *)
    apply tables_remove; [apply tables_delete, tables_same| |].
    + eapply get_user_id; eassumption.
    + intros m Hm. apply filter_In in Hm. destruct Hm as [_ Hm].
      apply negb_true_iff in Hm.
      match goal with H : get_user st ?k = Some ?u |- _ =>
        destruct (get_user_id _ _ _ H) as [-> _] end.
      exact Hm.
  - (* delete_all_messages *)
    rewrite <- (filter_none (fun _ => false) (messages st)) by reflexivity.
    apply tables_delete, tables_same.
Qed.

Lemma step_table_effect env req st :
  table_effect (users st, messages st)
    (users (step env req st), messages (step env req st)).
Proof.
  destruct (step_route env req st) as [st1 [n [-> [->|[pk ->]]]]];
    [apply route_table_effect|].
  eapply table_effect_trans; [|apply route_table_effect].
  cbn [users messages update_user]. apply tables_update; [apply tables_same|].
  intros u. split; reflexivity.
Qed.

Lemma reachable_senders_known st :
  reachable st -> senders_known (users st) (messages st).
Proof.
  induction 1 as [salt now|st env req _ IH].
  - intros m [].
  - apply (table_effect_senders _ _ (step_table_effect env req st) IH).
Qed.

(** The hypotheses of the polling theorems hold in every reachable
    state. *)
Lemma reachable_poll_ready st :
  reachable st ->
  NoDup (map m_id (messages st))
  /\ (forall m, In m (messages st) -> 0 < m_id m)
  /\ (forall m, In m (messages st) -> get_user st (sender_id m) <> None).
Proof.
  intros Hreach.
  destruct (reachable_invariant st Hreach) as [[Hnd Hpos _] _].
  split; [assumption|]. split; [assumption|].
  intros m Hm Hnone.
  apply (reachable_senders_known st Hreach) in Hm.
  apply in_map_iff in Hm. destruct Hm as [u [E Hu]].
  apply (find_none _ _ Hnone) in Hu. cbv beta in Hu.
  apply Z.eqb_neq in Hu. contradiction.
Qed.

(** ** Refusals of [chat] *)

(** X1. [chat] of an active viewer with a counterpart key of the route,
    below 2^63 so that the driver binds it, that no account has answers
    404, and with a counterpart that cannot chat it redirects to the
    dashboard; in both cases no message is flipped and nothing is
    committed. *)
Theorem chat_refuses_unreachable (st : Store) (v c : Z) (me : User) :
  get_user st v = Some me -> is_active me = true ->
  0 <= c < 2 ^ 63 ->
  (get_user st c = None ->
   run (chat (Some v) c) st = mkOutcome Abort404 st 0%nat)
  /\ (forall target,
        get_user st c = Some target -> can_chat target = false ->
        run (chat (Some v) c) st
        = mkOutcome
            (Redirect "dashboard" [flash "User tidak dapat dihubungi." "error"])
            st 0%nat).
Proof.
  intros Hme Hact _. unfold chat. run_handler.
  enter_as Hme (active_authenticated me Hact). rewrite Hact. cbn [negb].
  run_handler. split.
  - intros ->. reflexivity.
  - intros target -> ->. reflexivity.
Qed.

(** ** Unread counts *)

Lemma filter_map_length {A} (p : A -> bool) (g : A -> A) (l : list A) :
  (forall a, In a l -> p (g a) = p a) ->
  List.length (filter p (map g l)) = List.length (filter p l).
Proof.
  induction l as [|a l IH]; simpl; intros H; [reflexivity|].
  rewrite (H a) by auto.
  destruct (p a); simpl; rewrite IH; auto.
Qed.

(** X2. Once [chat] has shown viewer [v] the conversation with [c], the
    unread count [get_unread_count] gives [v] for [c] is 0, and the count of
    every other pair of accounts is what it was. *)
Theorem chat_clears_unread_count (st : Store) (v c : Z) (me target : User) :
  NoDup (map m_id (messages st)) ->
  get_user st v = Some me -> is_active me = true ->
  get_user st c = Some target -> can_chat target = true ->
  get_unread_count (store_after (run (chat (Some v) c) st)) me c = 0
  /\ forall self c', u_id self <> v \/ c' <> c ->
       get_unread_count (store_after (run (chat (Some v) c) st)) self c'
       = get_unread_count st self c'.
Proof.
  intros Hnd Hme Hact Htarget Hchat.
  destruct (get_user_id _ _ _ Hme) as [Hv _].
  unfold chat. run_handler. enter_as Hme (active_authenticated me Hact).
  rewrite Hact. cbn [negb].
  run_handler. rewrite Htarget, Hchat. cbn [negb]. run_handler.
  unfold get_unread_count. rewrite mark_read_messages, Hv.
  set (keys := select _ st).
  split.
  - rewrite filter_none; [reflexivity|].
    intros a Ha. apply in_map_iff in Ha. destruct Ha as [m [<- Hm]].
    unfold flipped. destruct (existsb (Z.eqb (m_id m)) keys) eqn:Hk.
    + cbn [is_read set_is_read negb]. apply andb_false_r.
    + apply Bool.not_true_iff_false. intros Hq.
      apply Bool.not_true_iff_false in Hk. apply Hk.
      apply existsb_key. apply in_select. exists m.
      apply andb_true_iff in Hq. destruct Hq as [Hq Hr].
      apply andb_true_iff in Hq. destruct Hq as [Hs Hrc].
      rewrite Hs, Hrc, Hr. auto.
  - intros self c' Hother. f_equal. apply filter_map_length.
    intros m Hm. unfold flipped.
    destruct (existsb (Z.eqb (m_id m)) keys) eqn:Hk; [|reflexivity].
    apply existsb_key in Hk. apply in_select in Hk.
    destruct Hk as [m1 [Hm1 [Hp E]]].
    rewrite (unique_key_row _ _ _ Hnd Hm1 Hm E) in Hp.
    apply andb_true_iff in Hp. destruct Hp as [Hp _].
    apply andb_true_iff in Hp. destruct Hp as [Hrc Hs].
    cbn [sender_id receiver_id set_is_read is_read].
    assert (Hno : (sender_id m =? c') && (receiver_id m =? u_id self) = false).
    { apply andb_false_iff. destruct Hother; [right|left]; lia. }
    now rewrite Hno.
Qed.

(** ** A poll that has seen everything *)

(** X3. When no message of the conversation has an identifier above the
    cursor, [get_messages], for a counterpart key of the route and a cursor
    that are below 2^63, answers the empty list, flips nothing and does not
    commit. *)
Theorem get_messages_up_to_date (st : Store) (v c : Z) (arg : option str)
  (me : User) :
  get_user st v = Some me -> is_active me = true ->
  0 <= c < 2 ^ 63 -> - 2 ^ 63 <= cursor arg < 2 ^ 63 ->
  (forall m, In m (messages st) -> in_conversation v c m = true ->
             m_id m <= cursor arg) ->
  run (get_messages (Some v) c arg) st = mkOutcome (JsonMessages []) st 0%nat.
Proof.
  intros Hme Hact Hc Hcur Hseen.
  rewrite (get_messages_run st v c arg me Hme Hact
             (bound_for_driver _ _ Hc Hcur)).
  assert (E : select_ordered (newer_in_conversation v c (cursor arg)) st = []).
  { unfold select_ordered. rewrite filter_none; [reflexivity|].
    intros m Hm. unfold newer_in_conversation.
    destruct (in_conversation v c m) eqn:Hconv; [|reflexivity].
    specialize (Hseen m Hm Hconv). cbn [andb]. lia. }
  rewrite E. reflexivity.
Qed.

(** ** Deleting a message *)

(** X4. [delete_message] of an active requester, for a key of the route:
    for an unknown key below 2^63 it answers the 404 that [get_or_404]
    raised and the handler caught, as an error, and for a key from 2^63 on
    the [OverflowError] of the driver, caught the same way; a message of
    another sender is refused to a requester who is not an admin; in these
    cases the store is unchanged.  For its sender or an admin every row with
    that key goes and every other row stays, under one commit, and the same
    request again finds nothing. *)
Theorem delete_message_outcomes (st : Store) (v k : Z) (me : User) :
  get_user st v = Some me -> is_active me = true ->
  0 <= k ->
  (get_message st k = None -> k < 2 ^ 63 ->
   run (delete_message (Some v) k) st
   = mkOutcome (JsonRaised NotFound) st 0%nat)
  /\ (get_message st k = None -> 2 ^ 63 <= k ->
      run (delete_message (Some v) k) st
      = mkOutcome (JsonRaised OverflowError) st 0%nat)
  /\ (forall m, get_message st k = Some m ->
        sender_id m <> v -> is_admin me = false ->
        run (delete_message (Some v) k) st
        = mkOutcome (JsonError (lit "Anda tidak memiliki akses")) st 0%nat)
  /\ (forall m, get_message st k = Some m ->
        sender_id m = v \/ is_admin me = true ->
        run (delete_message (Some v) k) st
        = mkOutcome JsonSuccess (remove_message k st) 1%nat
        /\ (forall m', In m' (messages (remove_message k st))
                       <-> In m' (messages st) /\ m_id m' <> k)
        /\ (k < 2 ^ 63 ->
            run (delete_message (Some v) k) (remove_message k st)
            = mkOutcome (JsonRaised NotFound) (remove_message k st) 0%nat)).
Proof.
  intros Hme Hact Hk.
  destruct (get_user_id _ _ _ Hme) as [Hv _].
  assert (Hgone : get_message (remove_message k st) k = None).
  { unfold get_message, remove_message. cbn [messages].
    destruct (find _ _) as [x|] eqn:F; [|reflexivity].
    apply find_some in F. destruct F as [F E]. apply filter_In in F.
    destruct F as [_ F]. rewrite E in F. discriminate. }
  assert (Hnone : forall s, get_user s v = Some me -> get_message s k = None ->
            run (delete_message (Some v) k) s
            = mkOutcome
                (JsonRaised (if in_int64 k then NotFound else OverflowError))
                s 0%nat).
  { intros s Hs Hgone'. unfold delete_message. run_handler.
    enter_as Hs (active_authenticated me Hact). rewrite Hact. cbn [negb].
    run_handler. now rewrite Hgone'. }
  assert (Hin : k < 2 ^ 63 -> in_int64 k = true)
    by (intros H; apply in_int64_range; lia).
  assert (Hout : 2 ^ 63 <= k -> in_int64 k = false).
  { intros H. apply Bool.not_true_iff_false. rewrite in_int64_range. lia. }
  split; [intros Hno Hlt; rewrite (Hnone st Hme Hno), (Hin Hlt); reflexivity|].
  split; [intros Hno Hge; rewrite (Hnone st Hme Hno), (Hout Hge); reflexivity|].
  split.
  - intros m Hm Hs Ha. unfold delete_message. run_handler.
    enter_as Hme (active_authenticated me Hact). rewrite Hact. cbn [negb].
    run_handler. rewrite Hm, Ha, Hv.
    destruct (Z.eqb_spec (sender_id m) v); [contradiction|reflexivity].
  - intros m Hm Hmay. destruct (find_key_id _ _ _ Hm) as [Hid _].
    split; [|split].
    + unfold delete_message. run_handler.
      enter_as Hme (active_authenticated me Hact). rewrite Hact. cbn [negb].
      run_handler. rewrite Hm, Hv, Hid.
      destruct Hmay as [E | E]; rewrite E;
        [rewrite Z.eqb_refl|rewrite andb_false_r]; reflexivity.
    + intros m'. unfold remove_message. cbn [messages].
      rewrite filter_In, negb_true_iff, Z.eqb_neq. tauto.
    + intros Hlt. rewrite Hnone, (Hin Hlt); [reflexivity|exact Hme|exact Hgone].
Qed.

(** ** What [send_message] stores *)

Lemma lstrip_fixed (s : str) : lstrip (lstrip s) = lstrip s.
Proof.
  induction s as [|c s IH]; simpl; [reflexivity|].
  destruct (isspace c) eqn:E; [assumption|]. simpl. now rewrite E.
Qed.

Lemma lstrip_snoc (s : str) (c : N) :
  isspace c = false -> lstrip (s ++ [c]) = lstrip s ++ [c].
Proof.
  intros Hc. induction s as [|x s IH]; simpl; [now rewrite Hc|].
  destruct (isspace x); [assumption|reflexivity].
Qed.

Lemma rstrip_fixed (s : str) : rstrip (rstrip s) = rstrip s.
Proof. unfold rstrip. now rewrite rev_involutive, lstrip_fixed. Qed.

(** Trimming the right end keeps a left end that is already trimmed. *)
Lemma lstrip_rstrip (s : str) : lstrip (rstrip (lstrip s)) = rstrip (lstrip s).
Proof.
  destruct (lstrip s) as [|c r] eqn:E; [reflexivity|].
  assert (Hc : isspace c = false).
  { pose proof (lstrip_fixed s) as F. rewrite E in F. simpl in F.
    destruct (isspace c); [|reflexivity].
    exfalso. apply (f_equal (@List.length N)) in F. simpl in F.
    assert (L : forall t : str, (List.length (lstrip t) <= List.length t)%nat).
    { induction t as [|x t IHt]; simpl; [lia|].
      destruct (isspace x); simpl; lia. }
    specialize (L r). lia. }
  unfold rstrip. simpl rev. rewrite lstrip_snoc by assumption.
  rewrite rev_app_distr. simpl. now rewrite Hc.
Qed.

(** [strip] is idempotent: a stored text has no white space at its ends. *)
Lemma strip_fixed (s : str) : strip (strip s) = strip s.
Proof. unfold strip. now rewrite lstrip_rstrip, rstrip_fixed. Qed.

Lemma upload_resource_type file folder reply url public_id resource_type :
  upload_to_cloudinary file folder reply
  = UploadOk url public_id resource_type ->
  resource_type = lit "image" \/ resource_type = lit "video"
  \/ resource_type = lit "auto".
Proof.
  unfold upload_to_cloudinary. destruct reply; [|discriminate].
  intros [= _ _ <-].
  repeat match goal with
         | |- context [if ?b then _ else _] => destruct b
         end; auto.
Qed.

Lemma stored_text_only st text v r now :
  truthy (strip text) = true ->
  stored_row (new_message st (strip text) None None v r now).
Proof.
  intros Ht. unfold stored_row, new_message.
  cbn [content media_url media_type]. rewrite Ht.
  split; [|exact I]. split; [|apply strip_fixed].
  intros E. now rewrite E in Ht.
Qed.

Lemma stored_with_media st text url ty v r now :
  ty = lit "image" \/ ty = lit "video" \/ ty = lit "auto" ->
  stored_row (new_message st (strip text) (Some url) (Some ty) v r now).
Proof.
  intros Hty. unfold stored_row, new_message.
  cbn [content media_url media_type]. split; [|assumption].
  destruct (truthy (strip text)) eqn:Ht; [|discriminate].
  split; [|apply strip_fixed]. intros E. now rewrite E in Ht.
Qed.

(** A branch that answers without touching the session. *)
Ltac refused := solve [left; cbn [fst snd]; split; eauto].

(** [send_message] unfolded to the store, for every request: it leaves
    the session as it found it and answers an error or the login redirect,
    or it stores one row for an active sender and a receiver who can chat,
    commits and answers the row. *)
Lemma send_message_on (st0 st : Store) (n : nat) (cu : option Z)
  (rid : option str) (text : str) (file : option FileStorage)
  (reply : CloudinaryReply) (pos : nat) (now : datetime) :
  (snd (send_message cu rid text file reply pos now (mkDb st0 st n))
   = mkDb st0 st n
   /\ ((exists e, fst (send_message cu rid text file reply pos now
                        (mkDb st0 st n)) = JsonError e)
       \/ exists fl, fst (send_message cu rid text file reply pos now
                            (mkDb st0 st n)) = Redirect "login" fl))
  \/ exists me receiver url ty public_id d,
       cu = Some (u_id me) /\ get_user st (u_id me) = Some me
       /\ is_active me = true
       /\ get_user st (u_id receiver) = Some receiver
       /\ can_chat receiver = true
       /\ stored_row (new_message st (strip text) url ty (u_id me)
                        (u_id receiver) now)
       /\ to_dict st (new_message st (strip text) url ty (u_id me)
                        (u_id receiver) now) = Some d
       /\ send_message cu rid text file reply pos now (mkDb st0 st n)
          = (JsonSent d public_id,
             mkDb (add_message pos
                     (new_message st (strip text) url ty (u_id me)
                        (u_id receiver) now) st)
                  (add_message pos
                     (new_message st (strip text) url ty (u_id me)
                        (u_id receiver) now) st)
                  (S n)).
Proof.
  unfold send_message. run_handler.
  destruct cu as [v|]; [|refused].
  destruct (get_user st v) as [me|] eqn:Hme; [|refused].
  destruct (is_authenticated me); [|refused].
  destruct (is_active me) eqn:Hact; cbn [negb]; [|refused].
  destruct rid as [r|]; [|refused].
  destruct (truthy r); cbn [negb]; [|refused].
  run_handler.
  destruct (match pk_of_text r with
            | Some pk => get_user st pk
            | None => None
            end) as [receiver|] eqn:Hrecv; [|refused].
  destruct (can_chat receiver) eqn:Hchat; cbn [negb]; [|refused].
  destruct (get_user_id _ _ _ Hme) as [Hv _]. subst v.
  assert (Hr : get_user st (u_id receiver) = Some receiver).
  { destruct (pk_of_text r) as [pk|]; [|discriminate].
    destruct (get_user_id _ _ _ Hrecv) as [-> _]. assumption. }
  destruct (negb (truthy (strip text)) && negb (has_file file)) eqn:Hempty;
    cbv beta iota; [refused|].
  assert (Hplain : has_file file = false ->
            exists m1 r1 url ty public_id d,
              Some (u_id me) = Some (u_id m1)
              /\ get_user st (u_id m1) = Some m1
              /\ is_active m1 = true
              /\ get_user st (u_id r1) = Some r1
              /\ can_chat r1 = true
              /\ stored_row (new_message st (strip text) url ty (u_id m1)
                               (u_id r1) now)
              /\ to_dict st (new_message st (strip text) url ty (u_id m1)
                               (u_id r1) now) = Some d
              /\ store_message me receiver (strip text) None None None pos
                   now (mkDb st0 st n)
                 = (JsonSent d public_id,
                    mkDb (add_message pos
                            (new_message st (strip text) url ty (u_id m1)
                               (u_id r1) now) st)
                         (add_message pos
                            (new_message st (strip text) url ty (u_id m1)
                               (u_id r1) now) st)
                         (S n))).
  { intros Hfile.
    destruct (store_message_run st st0 n me receiver (strip text)
                None None None pos now Hme) as [d [Hd Hrun]].
    exists me, receiver, None, None, None, d.
    split; [reflexivity|]. do 4 (split; [assumption|]).
    split; [|split; assumption].
    apply stored_text_only. rewrite Hfile, andb_true_r in Hempty.
    now apply negb_false_iff. }
  destruct file as [f|]; [|right; now apply Hplain].
  cbn [has_file] in Hplain.
  destruct (truthy (filename f)) eqn:Hname; [|right; now apply Hplain].
  destruct (max_file_size <? file_size f); [refused|].
  destruct (upload_to_cloudinary f "chat_app" reply)
    as [url public_id resource_type|e] eqn:Hup; [|refused].
  right.
  destruct (store_message_run st st0 n me receiver (strip text)
              (Some url) (Some resource_type) (Some public_id) pos now Hme)
    as [d [Hd Hrun]].
  exists me, receiver, (Some url), (Some resource_type), (Some public_id), d.
  split; [reflexivity|]. do 4 (split; [assumption|]).
  split; [|split; assumption].
  apply stored_with_media. eapply upload_resource_type. eassumption.
Qed.

Lemma send_message_run (st : Store) (cu : option Z) (rid : option str)
  (text : str) (file : option FileStorage) (reply : CloudinaryReply)
  (pos : nat) (now : datetime) :
  (store_after (run (send_message cu rid text file reply pos now) st) = st
   /\ commits (run (send_message cu rid text file reply pos now) st) = 0%nat
   /\ ((exists e, result (run (send_message cu rid text file reply pos now) st)
                  = JsonError e)
       \/ exists fl, result (run (send_message cu rid text file reply pos now)
                               st) = Redirect "login" fl))
  \/ exists me receiver url ty public_id d,
       cu = Some (u_id me) /\ get_user st (u_id me) = Some me
       /\ is_active me = true
       /\ get_user st (u_id receiver) = Some receiver
       /\ can_chat receiver = true
       /\ stored_row (new_message st (strip text) url ty (u_id me)
                        (u_id receiver) now)
       /\ to_dict st (new_message st (strip text) url ty (u_id me)
                        (u_id receiver) now) = Some d
       /\ run (send_message cu rid text file reply pos now) st
          = mkOutcome (JsonSent d public_id)
              (add_message pos
                 (new_message st (strip text) url ty (u_id me)
                    (u_id receiver) now) st)
              1%nat.
Proof.
  unfold run.
  destruct (send_message_on st st 0%nat cu rid text file reply pos now)
    as [[Hdb Hres]|[me [receiver [url [ty [public_id [d H]]]]]]].
  - left. destruct (send_message _ _ _ _ _ _ _ _) as [r db].
    cbn [fst snd] in Hdb, Hres. subst db. auto.
  - right. exists me, receiver, url, ty, public_id, d.
    destruct H as [H1 [H2 [H3 [H4 [H5 [H6 [H7 H8]]]]]]].
    rewrite H8. auto 10.
Qed.

Lemma to_dict_columns st m d :
  to_dict st m = Some d ->
  d_id d = m_id m /\ d_sender_id d = sender_id m
  /\ d_receiver_id d = receiver_id m /\ d_is_read d = is_read m
  /\ d_content d = content m
  /\ to_dict st (set_is_read true m) = Some (read_dict d).
Proof.
  unfold to_dict. cbn [sender_id set_is_read].
  destruct (get_user st (sender_id m)); [|discriminate].
  intros [= <-]. auto 10.
Qed.

(** X5. For a request whose form the server has read, so that the text
    and the file it carries came in a body within [MAX_CONTENT_LENGTH],
    [send_message]
    either leaves the store as it was, commits nothing and answers an error
    or the login redirect, or answers the stored message after one commit
    that added exactly one row: under a new key, unread, stamped with the
    clock, sent by the requester to an account that can chat. *)
Theorem send_message_all_or_nothing (st : Store) (cu : option Z)
  (rid : option str) (text : str) (file : option FileStorage)
  (reply : CloudinaryReply) (pos : nat) (now : datetime) :
  fits_body text file ->
  (store_after (run (send_message cu rid text file reply pos now) st) = st
   /\ commits (run (send_message cu rid text file reply pos now) st) = 0%nat
   /\ ((exists e, result (run (send_message cu rid text file reply pos now) st)
                  = JsonError e)
       \/ exists fl, result (run (send_message cu rid text file reply pos now)
                               st) = Redirect "login" fl))
  \/ exists row d public_id receiver,
       run (send_message cu rid text file reply pos now) st
       = mkOutcome (JsonSent d public_id) (add_message pos row st) 1%nat
       /\ Permutation (messages (add_message pos row st)) (row :: messages st)
       /\ users (add_message pos row st) = users st
       /\ m_id row = next_id (map m_id (messages st))
       /\ d_id d = m_id row
       /\ cu = Some (sender_id row)
       /\ get_user st (receiver_id row) = Some receiver
       /\ can_chat receiver = true
       /\ is_read row = false /\ timestamp row = now
       /\ stored_row row.
Proof.
  intros _.
  destruct (send_message_run st cu rid text file reply pos now)
    as [H|[me [receiver [url [ty [public_id [d H]]]]]]]; [now left|].
  destruct H as [H1 [H2 [H3 [H4 [H5 [H6 [H7 H8]]]]]]].
  right.
  exists (new_message st (strip text) url ty (u_id me) (u_id receiver) now),
    d, public_id, receiver.
  split; [assumption|]. split; [apply insert_at_perm|].
  destruct (to_dict_columns _ _ _ H7) as [Hid _].
  repeat (split; [first [assumption|reflexivity]|]). assumption.
Qed.

Lemma filter_insert_length {A} (p : A -> bool) (pos : nat) (a : A)
  (l : list A) :
  List.length (filter p (insert_at pos a l))
  = if p a then S (List.length (filter p l)) else List.length (filter p l).
Proof.
  rewrite (Permutation_length (filter_perm p _ _ (insert_at_perm pos a l))).
  simpl. now destruct (p a).
Qed.

(** X6. A message [send_message] accepts raises by one the unread count
    [get_unread_count] gives its receiver for its sender, and leaves every
    other count as it was. *)
Theorem send_message_counts_unread (st : Store) (v : Z) (rid : option str)
  (text : str) (file : option FileStorage) (reply : CloudinaryReply)
  (pos : nat) (now : datetime) (d : MessageDict) (p : option str) :
  result (run (send_message (Some v) rid text file reply pos now) st)
  = JsonSent d p ->
  forall self c,
    get_unread_count
      (store_after (run (send_message (Some v) rid text file reply pos now) st))
      self c
    = get_unread_count st self c
      + if (c =? v) && (u_id self =? d_receiver_id d) then 1 else 0.
Proof.
  intros Hres self c.
  destruct (send_message_run st (Some v) rid text file reply pos now)
    as [[_ [_ [[e H]|[fl H]]]]|[me [receiver [url [ty [public_id [d' H]]]]]]];
    try congruence.
  destruct H as [H1 [_ [_ [_ [_ [_ [H7 H8]]]]]]].
  rewrite H8 in Hres |- *. cbn [result store_after] in Hres |- *.
  injection Hres as <- _. injection H1 as ->.
  destruct (to_dict_columns _ _ _ H7) as [_ [_ [Hr _]]].
  cbn [new_message receiver_id] in Hr. rewrite Hr.
  unfold get_unread_count, add_message. cbn [messages].
  rewrite filter_insert_length.
  cbn [new_message sender_id receiver_id is_read negb].
  rewrite andb_true_r, (Z.eqb_sym (u_id me) c),
    (Z.eqb_sym (u_id receiver) (u_id self)).
  destruct ((c =? u_id me) && (u_id self =? u_id receiver)); lia.
Qed.

(** X7. The receiver's next poll delivers a message [send_message]
    accepted: with a cursor that covers the earlier messages of the
    conversation and lies below the new key, [get_messages] of the receiver
    answers exactly that message, now read, flips its row and commits.  The
    sender's key is one the route yields and the cursor one the driver binds:
    both are below 2^63, and the cursor is not below -2^63. *)
Theorem sent_message_reaches_next_poll (st : Store) (a : Z) (rid : option str)
  (text : str) (file : option FileStorage) (reply : CloudinaryReply)
  (pos : nat) (now : datetime) (d : MessageDict) (p : option str)
  (arg : option str) :
  result (run (send_message (Some a) rid text file reply pos now) st)
  = JsonSent d p ->
  0 <= a < 2 ^ 63 -> - 2 ^ 63 <= cursor arg < 2 ^ 63 ->
  (forall m, In m (messages st) ->
             in_conversation (d_receiver_id d) a m = true ->
             m_id m <= cursor arg) ->
  cursor arg < d_id d ->
  run (get_messages (Some (d_receiver_id d)) a arg)
    (store_after (run (send_message (Some a) rid text file reply pos now) st))
  = mkOutcome (JsonMessages [read_dict d])
      (mark_read [d_id d]
         (store_after
            (run (send_message (Some a) rid text file reply pos now) st)))
      1%nat.
Proof.
  intros Hres Ha Hcur Hseen Hnew.
  destruct (send_message_run st (Some a) rid text file reply pos now)
    as [[_ [_ [[e H]|[fl H]]]]|[me [receiver [url [ty [public_id [d' H]]]]]]];
    try congruence.
  destruct H as [H1 [_ [_ [H4 [H5 [_ [H7 H8]]]]]]].
  rewrite H8 in Hres |- *. cbn [result store_after] in Hres |- *.
  injection Hres as <- _. injection H1 as ->.
  set (row := new_message st (strip text) url ty (u_id me) (u_id receiver) now)
    in *.
  destruct (to_dict_columns _ _ _ H7) as [Hid [_ [Hr [_ [_ Hread]]]]].
  cbn [row new_message receiver_id] in Hr. rewrite Hr in *.
  assert (Hkey : d_id d' = next_id (map m_id (messages st)))
    by (rewrite Hid; reflexivity).
  rewrite Hkey in *.
  set (st1 := add_message pos row st).
  assert (Hact : is_active receiver = true).
  { unfold can_chat in H5. now apply andb_true_iff in H5. }
  assert (Hme1 : get_user st1 (u_id receiver) = Some receiver) by exact H4.
  rewrite (get_messages_run st1 (u_id receiver) (u_id me) arg receiver Hme1
             Hact (bound_for_driver _ _ Ha Hcur)).
  assert (Hrow : newer_in_conversation (u_id receiver) (u_id me) (cursor arg)
                   row = true).
  { unfold newer_in_conversation, in_conversation.
    cbn [row new_message sender_id receiver_id m_id].
    rewrite !Z.eqb_refl, orb_true_r. cbn [andb]. lia. }
  assert (Hold : forall l, incl l (messages st) ->
            filter (newer_in_conversation (u_id receiver) (u_id me)
                      (cursor arg)) l = []).
  { intros l Hl. apply filter_none. intros m Hm.
    unfold newer_in_conversation.
    destruct (in_conversation _ _ m) eqn:Hc; [|reflexivity].
    specialize (Hseen m (Hl m Hm) Hc). cbn [andb]. lia. }
  assert (Hsel : select_ordered
                   (newer_in_conversation (u_id receiver) (u_id me)
                      (cursor arg)) st1
                 = [next_id (map m_id (messages st))]).
  { unfold select_ordered, st1, add_message, insert_at. cbn [messages].
    rewrite filter_app. cbn [filter]. rewrite Hrow.
    rewrite (Hold (firstn pos (messages st)))
      by (intros x; apply in_firstn).
    rewrite (Hold (skipn pos (messages st)))
      by (intros x; apply in_skipn).
    reflexivity. }
  rewrite Hsel.
  assert (Hget : get_message st1 (next_id (map m_id (messages st))) = Some row)
    by (apply get_message_new; reflexivity).
  unfold keys_where. cbn [filter]. rewrite Hget.
  cbn [row new_message receiver_id is_read negb].
  rewrite Z.eqb_refl. cbn [andb].
  rewrite load_mark_read. unfold load. cbn [flat_map]. rewrite Hget.
  cbn [app map]. unfold flipped at 1.
  cbn [row new_message m_id existsb]. rewrite Z.eqb_refl. cbn [orb].
  cbn [map_option].
  rewrite (to_dict_users st st1) by reflexivity.
  fold row. now rewrite Hread.
Qed.

(** ** Blocking and deactivating *)

Lemma get_user_update st pk (f : User -> User) k :
  (forall u, u_id (f u) = u_id u) ->
  get_user (update_user pk f st) k
  = option_map (fun u => if u_id u =? pk then f u else u) (get_user st k).
Proof.
  intros Hf. unfold get_user, update_user. cbn [users].
  induction (users st) as [|x l IH]; simpl; [reflexivity|].
  replace (u_id (if u_id x =? pk then f x else x)) with (u_id x)
    by (destruct (u_id x =? pk); [now rewrite Hf|reflexivity]).
  destruct (u_id x =? k); [reflexivity|apply IH].
Qed.


Lemma toggle_block_user_run st a t me user :
  get_user st a = Some me -> is_authenticated me = true ->
  is_admin me = true ->
  get_user st t = Some user -> is_admin user = false ->
  store_after (run (toggle_block_user (Some a) t) st)
  = update_user t (set_is_blocked (negb (is_blocked user))) st
  /\ commits (run (toggle_block_user (Some a) t) st) = 1%nat.
Proof.
  intros Hme Hauth Hadm Huser Hu.
  destruct (get_user_id _ _ _ Huser) as [Hid _].
  unfold toggle_block_user. run_handler. enter_as Hme Hauth.
  rewrite Hadm. cbn [negb]. run_handler. rewrite Huser, Hu.
  run_handler. rewrite Hid. split; reflexivity.
Qed.

Lemma toggle_active_user_run st a t me user :
  get_user st a = Some me -> is_authenticated me = true ->
  is_admin me = true ->
  get_user st t = Some user -> is_admin user = false ->
  store_after (run (toggle_active_user (Some a) t) st)
  = update_user t (set_is_active (negb (is_active user))) st
  /\ commits (run (toggle_active_user (Some a) t) st) = 1%nat.
Proof.
  intros Hme Hauth Hadm Huser Hu.
  destruct (get_user_id _ _ _ Huser) as [Hid _].
  unfold toggle_active_user. run_handler. enter_as Hme Hauth.
  rewrite Hadm. cbn [negb]. run_handler. rewrite Huser, Hu.
  run_handler. rewrite Hid. split; reflexivity.
Qed.

(** The requester of an admin route on another kind of account is not
    that account, and stays what it was when a flag of the target changes. *)
Lemma requester_kept st a t me user (f : User -> User) :
  get_user st a = Some me -> is_admin me = true ->
  get_user st t = Some user -> is_admin user = false ->
  (forall u, u_id (f u) = u_id u) ->
  get_user (update_user t f st) a = Some me
  /\ get_user (update_user t f st) t = Some (f user).
Proof.
  intros Hme Hadm Huser Hu Hf.
  destruct (get_user_id _ _ _ Hme) as [Ha _].
  destruct (get_user_id _ _ _ Huser) as [Ht _].
  rewrite !get_user_update by assumption. rewrite Hme, Huser.
  cbn [option_map]. rewrite Ha, Ht, Z.eqb_refl.
  destruct (Z.eqb_spec a t) as [E|_]; [|auto].
  subst t. congruence.
Qed.


Lemma send_message_unreachable st v me rid text file reply pos now :
  get_user st v = Some me -> is_active me = true -> truthy rid = true ->
  (forall r, match pk_of_text rid with
             | Some pk => get_user st pk
             | None => None
             end = Some r -> can_chat r = false) ->
  run (send_message (Some v) (Some rid) text file reply pos now) st
  = mkOutcome (JsonError NotReachable) st 0%nat.
Proof.
  intros Hme Hact Hrid H. unfold send_message. run_handler.
  enter_as Hme (active_authenticated me Hact).
  rewrite Hact, Hrid. cbn [negb]. run_handler.
  destruct (match pk_of_text rid with
            | Some pk => get_user st pk
            | None => None
            end) as [r|]; [|reflexivity].
  now rewrite (H r eq_refl).
Qed.

(** X9. Once an admin has blocked or deactivated an account that could
    chat, no active user reaches it: [chat] with it redirects to the
    dashboard and [send_message] to it fails with [NotReachable], whatever
    is sent, and neither writes. *)
Theorem blocked_account_is_unreachable (st st1 : Store) (a t : Z)
  (me user : User) :
  get_user st a = Some me -> is_authenticated me = true ->
  is_admin me = true ->
  get_user st t = Some user -> is_admin user = false ->
  can_chat user = true ->
  st1 = store_after (run (toggle_block_user (Some a) t) st)
  \/ st1 = store_after (run (toggle_active_user (Some a) t) st) ->
  forall v sender,
    get_user st1 v = Some sender -> is_active sender = true ->
    run (chat (Some v) t) st1
    = mkOutcome
        (Redirect "dashboard" [flash "User tidak dapat dihubungi." "error"])
        st1 0%nat
    /\ forall rid text file reply pos now,
         truthy rid = true -> pk_of_text rid = Some t ->
         run (send_message (Some v) (Some rid) text file reply pos now) st1
         = mkOutcome (JsonError NotReachable) st1 0%nat.
Proof.
  intros Hme Hauth Hadm Huser Hu Hchat Hst1 v sender Hv Hact.
  assert (Ht : exists user', get_user st1 t = Some user'
                             /\ can_chat user' = false).
  { unfold can_chat in Hchat. apply andb_true_iff in Hchat.
    destruct Hchat as [Hua Hub]. apply negb_true_iff in Hub.
    destruct Hst1 as [->| ->].
    - rewrite (proj1 (toggle_block_user_run st a t me user Hme Hauth Hadm
                        Huser Hu)).
      eexists. split.
      + apply (requester_kept st a t me user
                 (set_is_blocked (negb (is_blocked user))) Hme Hadm Huser Hu
                 (fun _ => eq_refl)).
      + unfold can_chat. cbn [is_active is_blocked set_is_blocked].
        rewrite Hub. apply andb_false_r.
    - rewrite (proj1 (toggle_active_user_run st a t me user Hme Hauth Hadm
                        Huser Hu)).
      eexists. split.
      + apply (requester_kept st a t me user
                 (set_is_active (negb (is_active user))) Hme Hadm Huser Hu
                 (fun _ => eq_refl)).
      + unfold can_chat. cbn [is_active is_blocked set_is_active].
        now rewrite Hua. }
  destruct Ht as [user' [Ht Hno]]. split.
  - unfold chat. run_handler.
    enter_as Hv (active_authenticated sender Hact). rewrite Hact.
    cbn [negb]. run_handler. now rewrite Ht, Hno.
  - intros rid text file reply pos now Hrid Hpk.
    apply (send_message_unreachable st1 v sender); try assumption.
    rewrite Hpk, Ht. now intros r [= <-].
Qed.

(** ** Provisioning the admin account again *)

(** X10. [ensure_admin_exists] is idempotent: run on the store a first
    run left, it changes nothing, commits nothing and ends as the first run
    did, whatever the salt and the clock. *)
Theorem ensure_admin_exists_again (st : Store) (salt salt' : str)
  (now now' : datetime) :
  run (ensure_admin_exists salt' now')
    (store_after (run (ensure_admin_exists salt now) st))
  = mkOutcome (result (run (ensure_admin_exists salt now) st))
      (store_after (run (ensure_admin_exists salt now) st)) 0%nat.
Proof.
  destruct (ensure_admin_exists_run salt now st) as [H1 [H2 H3]].
  pose proof (find_named_admin (users st)) as Hf.
  pose proof (exists_taken (users st)) as Ht.
  destruct (find _ (users st)) as [u|].
  - rewrite (H1 Hf). cbn [result store_after].
    apply (ensure_admin_exists_run salt' now' st), Hf.
  - destruct (existsb _ (users st)).
    + assert (Htaken : name_or_email_taken (users st)) by now apply Ht.
      rewrite (H2 Hf Htaken). cbn [result store_after].
      now apply (ensure_admin_exists_run salt' now' st).
    + assert (Hfree : ~ name_or_email_taken (users st)).
      { intros H. apply Ht in H. discriminate. }
      rewrite (H3 Hf Hfree). cbn [result store_after].
      apply ensure_admin_exists_run. eexists. split.
      * cbn [users add_user]. apply in_or_app. right. now left.
      * split; reflexivity.
Qed.

(** ** The settings of the admin *)

Lemma find_map_same {A} (p : A -> bool) (g : A -> A) (l : list A) :
  (forall x, p (g x) = p x) -> find p (map g l) = option_map g (find p l).
Proof.
  intros H. induction l as [|x l IH]; simpl; [reflexivity|].
  rewrite H. now destruct (p x).
Qed.

Lemma str_eqb_neq (a b : str) : a <> b -> str_eqb a b = false.
Proof.
  intros H. apply Bool.not_true_iff_false. intros E. apply H.
  now apply str_eqb_eq.
Qed.

(** X11. [admin_settings] changes nothing when a new username or a new
    email belongs to an account already: it redirects with the error and
    never commits, so that a username it had accepted on the way to the
    email check is rolled back with the request. *)
Theorem admin_settings_conflict (st : Store) (a : Z) (me other : User)
  (form_username form_email form_bio : str) (names urls : list str)
  (picture : option FileStorage) (reply : CloudinaryReply) :
  get_user st a = Some me -> is_authenticated me = true ->
  is_admin me = true ->
  (strip form_username <> username me ->
   find_by_username (strip form_username) st = Some other ->
   run (admin_settings (Some a) form_username form_email form_bio names urls
          picture reply) st
   = mkOutcome
       (Redirect "admin_settings" [flash "Username sudah digunakan!" "error"])
       st 0%nat)
  /\ (strip form_username = username me
      \/ find_by_username (strip form_username) st = None ->
      strip form_email <> email me ->
      find_by_email (strip form_email) st = Some other ->
      run (admin_settings (Some a) form_username form_email form_bio names
             urls picture reply) st
      = mkOutcome
          (Redirect "admin_settings" [flash "Email sudah digunakan!" "error"])
          st 0%nat).
Proof.
  intros Hme Hauth Hadm.
  unfold admin_settings. run_handler. enter_as Hme Hauth.
  rewrite Hadm. cbn [negb]. run_handler. split.
  - intros Hn Hfound. rewrite (str_eqb_neq _ _ Hn). cbn [negb].
    run_handler. now rewrite Hfound.
  - intros Hname Hm Hfound.
    rewrite (str_eqb_neq _ _ Hm).
    destruct (str_eqb (strip form_username) (username me)) eqn:Hn;
      cbn [negb]; run_handler.
    + now rewrite Hfound.
    + destruct Hname as [E|Hfree];
        [apply str_eqb_eq in E; congruence|].
      rewrite Hfree. run_handler.
      unfold find_by_email, update_user in Hfound |- *. cbn [users].
      rewrite find_map_same, Hfound; [reflexivity|].
      intros x. now destruct (u_id x =? u_id me).
Qed.

(** ** Changing the password *)


(** ** The profile form *)



(** ** Registration *)


(** ** Signing in *)

(** X16. [login] never writes.  For an anonymous request it signs an
    account in exactly when the trimmed username names it, the password
    verifies against its hash, and it is active and not blocked; an unknown
    username and a wrong password get the same answer. *)
Theorem login_outcomes (st : Store) (cu : option Z)
  (form_username password : str) (form_remember arg_next : option str) :
  (store_after
     (run (login cu form_username password form_remember arg_next) st) = st
   /\ commits
        (run (login cu form_username password form_remember arg_next) st)
      = 0%nat)
  /\ (forall user_id remember flashes next_page,
        result (run (login cu form_username password form_remember arg_next)
                  st)
        = LoggedIn user_id remember flashes next_page ->
        exists user,
          find_by_username (strip form_username) st = Some user
          /\ u_id user = user_id
          /\ check_password user password = true
          /\ is_active user = true /\ is_blocked user = false)
  /\ (forall user,
        find_by_username (strip form_username) st = Some user ->
        check_password user password = true -> can_chat user = true ->
        exists remember flashes next_page,
          result (run (login None form_username password form_remember
                         arg_next) st)
          = LoggedIn (u_id user) remember flashes next_page)
  /\ (find_by_username (strip form_username) st = None
      \/ (exists user,
            find_by_username (strip form_username) st = Some user
            /\ check_password user password = false) ->
      result (run (login None form_username password form_remember arg_next)
                st)
      = Answered
          (RenderTemplate "login.html"
             [flash "Username atau password salah!" "error"])).
Proof.
  unfold login. run_handler.
  split; [|split; [|split]].
  - destruct (match cu with Some _ => _ | None => _ end);
      [split; reflexivity|].
    run_handler.
    destruct (find_by_username (strip form_username) st) as [user|];
      [|split; reflexivity].
    destruct (check_password user password); [|split; reflexivity].
    destruct (is_active user); cbn [negb]; [|split; reflexivity].
    destruct (is_blocked user); split; reflexivity.
  - intros user_id remember flashes next_page.
    destruct (match cu with Some _ => _ | None => _ end);
      [discriminate|].
    run_handler.
    destruct (find_by_username (strip form_username) st) as [user|];
      [|discriminate].
    destruct (check_password user password) eqn:Hpw; [|discriminate].
    destruct (is_active user) eqn:Hact; cbn [negb]; [|discriminate].
    destruct (is_blocked user) eqn:Hblk; [discriminate|].
    cbn [result]. intros [= <- _ _ _]. exists user. auto.
  - intros user -> Hpw Hchat. run_handler. rewrite Hpw.
    unfold can_chat in Hchat. apply andb_true_iff in Hchat.
    destruct Hchat as [-> Hblk]. apply negb_true_iff in Hblk.
    rewrite Hblk. cbn [negb result]. eauto.
  - intros [->|[user [-> Hpw]]]; run_handler; [reflexivity|].
    now rewrite Hpw.
Qed.

(** ** After an account is deleted *)

Lemma get_user_remove st pk k :
  get_user (remove_user pk st) k
  = if k =? pk then None else get_user st k.
Proof.
  unfold get_user, remove_user. cbn [users].
  induction (users st) as [|x l IH]; simpl.
  - now destruct (k =? pk).
  - destruct (Z.eqb_spec (u_id x) pk) as [E|E]; cbn [negb find].
    + rewrite IH. destruct (Z.eqb_spec (u_id x) k) as [E'|E']; [|reflexivity].
      rewrite <- E', E, Z.eqb_refl. reflexivity.
    + destruct (Z.eqb_spec (u_id x) k) as [E'|E']; [|apply IH].
      subst k. now rewrite (proj2 (Z.eqb_neq _ _) E).
Qed.

(** X17. Once an admin has deleted an account, the account is gone and
    every other account is as it was; a session that still names the
    deleted key is sent to the login page by every view under
    [login_required]; [chat] with the key and a second [delete_user] answer
    404, and [send_message] to it fails with [NotReachable]. *)
Theorem deleted_account_is_gone (st : Store) (a t : Z) (me user : User) :
  get_user st a = Some me -> is_authenticated me = true ->
  is_admin me = true ->
  get_user st t = Some user -> is_admin user = false ->
  (forall u, In u (users (store_after (run (delete_user (Some a) t) st)))
             <-> In u (users st) /\ u_id u <> t)
  /\ (forall f,
        run (login_required (Some t) f)
          (store_after (run (delete_user (Some a) t) st))
        = mkOutcome
            (Redirect "login"
               [flash "Silakan login untuk mengakses halaman ini." "message"])
            (store_after (run (delete_user (Some a) t) st)) 0%nat)
  /\ run (delete_user (Some a) t)
       (store_after (run (delete_user (Some a) t) st))
     = mkOutcome Abort404 (store_after (run (delete_user (Some a) t) st)) 0%nat
  /\ forall v sender,
       get_user (store_after (run (delete_user (Some a) t) st)) v
       = Some sender ->
       is_active sender = true ->
       run (chat (Some v) t) (store_after (run (delete_user (Some a) t) st))
       = mkOutcome Abort404 (store_after (run (delete_user (Some a) t) st))
           0%nat
       /\ forall rid text file reply pos now,
            truthy rid = true -> pk_of_text rid = Some t ->
            run (send_message (Some v) (Some rid) text file reply pos now)
              (store_after (run (delete_user (Some a) t) st))
            = mkOutcome (JsonError NotReachable)
                (store_after (run (delete_user (Some a) t) st)) 0%nat.
Proof.
  intros Hme Hauth Hadm Huser Hu.
  destruct (get_user_id _ _ _ Huser) as [Hid _].
  destruct (get_user_id _ _ _ Hme) as [Ha _].
  assert (Hrun : store_after (run (delete_user (Some a) t) st)
                 = remove_user t (delete_messages_of t st)).
  { unfold delete_user. run_handler. enter_as Hme Hauth.
    rewrite Hadm. cbn [negb]. run_handler. rewrite Huser, Hu.
    run_handler. now rewrite Hid. }
  rewrite Hrun. set (st1 := remove_user t (delete_messages_of t st)).
  assert (Hgone : get_user st1 t = None).
  { unfold st1. rewrite get_user_remove. now rewrite Z.eqb_refl. }
  assert (Hme1 : get_user st1 a = Some me).
  { unfold st1. rewrite get_user_remove.
    destruct (Z.eqb_spec a t) as [E|_]; [subst t; congruence|exact Hme]. }
  split; [|split; [|split]].
  - intros u. unfold st1, remove_user. cbn [users].
    rewrite filter_In, negb_true_iff, Z.eqb_neq. tauto.
  - intros f. run_handler. now rewrite Hgone.
  - unfold delete_user. run_handler. enter_as Hme1 Hauth.
    rewrite Hadm. cbn [negb]. run_handler. now rewrite Hgone.
  - intros v sender Hv Hact. split.
    + unfold chat. run_handler.
      enter_as Hv (active_authenticated sender Hact). rewrite Hact.
      cbn [negb]. run_handler. now rewrite Hgone.
    + intros rid text file reply pos now Hrid Hpk.
      apply (send_message_unreachable st1 v sender); try assumption.
      rewrite Hpk, Hgone. discriminate.
Qed.

(** ** The unique columns and the admins *)

Lemma existsb_false {A} (f : A -> bool) (l : list A) :
  existsb f l = false -> forall x, In x l -> f x = false.
Proof.
  intros H x Hx. apply Bool.not_true_iff_false. intros Hf.
  assert (E : existsb f l = true) by (apply existsb_exists; eauto).
  congruence.
Qed.

(** A value no row carries in a column, by what the lookups found. *)
Ltac column_free :=
  match goal with
  | H : find _ ?l = None, Hx : In ?x ?l, E : _ = _ |- False =>
      let F := fresh in
      pose proof (find_none _ _ H x Hx) as F; cbv beta in F;
      rewrite E in F; rewrite (proj2 (str_eqb_eq _ _) eq_refl) in F;
      discriminate F
  | H : existsb _ ?l = false, Hx : In ?x ?l, E : _ = _ |- False =>
      let F := fresh in
      pose proof (existsb_false _ _ H x Hx) as F; cbv beta in F;
      rewrite E in F; rewrite (proj2 (str_eqb_eq _ _) eq_refl) in F;
      rewrite ?orb_true_r in F; discriminate F
  end.

Lemma route_account_effect env req st n :
  account_effect (users st)
    (users (durable (snd (route env req (mkDb st st n))))).
Proof.
  destruct req.
  5:{ (* get_messages *)
    unfold_handlers.
    destruct (session_user env) as [z|]; [|apply account_same].
    destruct (get_user st z) as [u|] eqn:Hu; [|apply account_same].
    destruct (is_authenticated u); [|apply account_same].
    destruct (negb (is_active u)); [apply account_same|]. cbv beta.
    destruct (negb (in_int64 _ && in_int64 _)); [apply account_same|].
    cbn [pending durable n_commits fst snd].
    match goal with |- context [select_ordered ?p st] =>
      set (msgs := select_ordered p st) end.
    match goal with |- context [filter ?q msgs] =>
      set (keys := filter q msgs) end.
    destruct keys as [|k keys].
    - cbn. destruct (map_option _ _); apply account_same.
    - cbn [pending durable fst snd].
      destruct (map_option _ _); cbn [durable snd];
        rewrite mark_read_users; apply account_same. }
  all: unfold_handlers; split_cases; try rewrite mark_read_users.
  all: repeat first
         [ apply account_same
         | apply account_edit;
           [|unfold keeps_identity; intros ?; repeat split; reflexivity]
         | apply account_rename; [|intros x Hx E; column_free]
         | apply account_remail; [|intros x Hx E; column_free]
         | apply account_flag;
           [|eapply get_user_id; eassumption|assumption
            |intros ?; repeat split; reflexivity]
         | apply account_add;
           [|reflexivity
            |intros x Hx; cbn [username email new_user];
             split; intros E; column_free
            |reflexivity|reflexivity]
         | apply account_remove;
           [|eapply get_user_id; eassumption|assumption] ].
Qed.

Lemma account_effect_trans a b c :
  account_effect a b -> account_effect b c -> account_effect a c.
Proof.
  intros Hab Hbc. induction Hbc; [assumption|..].
  - now apply account_edit.
  - now apply account_rename.
  - now apply account_remail.
  - now apply account_flag.
  - now apply account_add.
  - now apply account_remove.
Qed.

Lemma step_account_effect env req st :
  account_effect (users st) (users (step env req st)).
Proof.
  destruct (step_route env req st) as [st1 [n [-> [->|[pk ->]]]]];
    [apply route_account_effect|].
  eapply account_effect_trans; [|apply route_account_effect].
  cbn [users update_user]. apply account_edit; [apply account_same|].
  intros u. repeat split; reflexivity.
Qed.

Lemma column_kept (col : User -> str) (g : User -> User) (tbl : list User) :
  (forall u, col (g u) = col u) -> map col (map g tbl) = map col tbl.
Proof. intros H. rewrite map_map. now apply map_ext. Qed.

Lemma keys_kept (g : User -> User) (tbl : list User) :
  (forall u, u_id (g u) = u_id u) -> map u_id (map g tbl) = map u_id tbl.
Proof. intros H. rewrite map_map. now apply map_ext. Qed.

(** A unique column stays unique when the row of one key takes a value no
    row carries. *)
Lemma column_assigned (col : User -> str) (assign : User -> User) (v : str)
  (pk : Z) (tbl : list User) :
  (forall u, col (assign u) = v) ->
  NoDup (map u_id tbl) -> NoDup (map col tbl) ->
  (forall u, In u tbl -> col u <> v) ->
  NoDup (map col (map (fun u => if u_id u =? pk then assign u else u) tbl)).
Proof.
  intros Hv. induction tbl as [|x tbl IH]; simpl; intros Hk Hc Hfree;
    [constructor|].
  inversion Hk as [|? ? Hkx Hk']; subst.
  inversion Hc as [|? ? Hcx Hc']; subst.
  assert (IH' := IH Hk' Hc' (fun u Hu => Hfree u (or_intror Hu))).
  constructor; [|assumption].
  intros Hin. apply in_map_iff in Hin. destruct Hin as [y' [E Hy']].
  apply in_map_iff in Hy'. destruct Hy' as [y [<- Hy]].
  destruct (Z.eqb_spec (u_id x) pk) as [Ex|Ex];
    destruct (Z.eqb_spec (u_id y) pk) as [Ey|Ey].
  - apply Hkx. apply in_map_iff. exists y. split; [congruence|assumption].
  - rewrite Hv in E. apply (Hfree y); auto.
  - rewrite Hv in E. apply (Hfree x); auto.
  - apply Hcx. apply in_map_iff. eauto.
Qed.

Lemma column_filtered (col : User -> str) (keep : User -> bool)
  (tbl : list User) :
  NoDup (map col tbl) -> NoDup (map col (filter keep tbl)).
Proof.
  intros H. induction tbl as [|x tbl IH]; [exact H|].
  simpl in H. apply NoDup_cons_iff in H. destruct H as [Hx H].
  simpl. destruct (keep x); [|exact (IH H)].
  simpl. apply NoDup_cons_iff. split; [|exact (IH H)].
  rewrite in_map_iff. intros [y [E Hy]]. apply Hx.
  rewrite in_map_iff. exists y. apply filter_In in Hy. tauto.
Qed.

Lemma column_added (col : User -> str) (u : User) (tbl : list User) :
  NoDup (map col tbl) -> (forall x, In x tbl -> col x <> col u) ->
  NoDup (map col (tbl ++ [u])).
Proof.
  intros H Hfree. rewrite map_app. simpl.
  apply (Permutation_NoDup (Permutation_cons_append _ _)).
  constructor; [|assumption].
  intros Hin. apply in_map_iff in Hin. destruct Hin as [x [E Hx]].
  now apply (Hfree x).
Qed.

(** What [account_effect] keeps: the unique columns, admins that can chat,
    and every admin account under its key. *)
Lemma account_effect_sound tbl tbl' :
  account_effect tbl tbl' -> sound_accounts tbl ->
  sound_accounts tbl'
  /\ forall u, In u tbl -> is_admin u = true ->
       exists u', In u' tbl' /\ u_id u' = u_id u /\ is_admin u' = true.
Proof.
  induction 1 as [|tbl' pk f _ IH Hf|tbl' pk name _ IH Hfree
                  |tbl' pk mail _ IH Hfree|tbl' v f _ IH Hv Hna Hf
                  |tbl' v _ IH Hid Hfree Hact Hblk|tbl' v _ IH Hv Hna];
    intros Hs; [split; [assumption|eauto]|..];
    destruct (IH Hs) as [[Hk Hn He Ha] Hadm]; clear IH.
  - (* an edit that keeps the identity *)
    split.
    + constructor.
      * rewrite keys_kept; [assumption|].
        intros u. destruct (u_id u =? pk); [apply Hf|reflexivity].
      * rewrite column_kept; [assumption|].
        intros u. destruct (u_id u =? pk); [apply Hf|reflexivity].
      * rewrite column_kept; [assumption|].
        intros u. destruct (u_id u =? pk); [apply Hf|reflexivity].
      * intros u' Hu' Hadmin. apply in_map_iff in Hu'.
        destruct Hu' as [u [<- Hu]].
        destruct (u_id u =? pk); [|now apply Ha].
        destruct (Hf u) as [_ [_ [_ [E1 [E2 E3]]]]].
        unfold can_chat. rewrite E2, E3. rewrite E1 in Hadmin.
        now apply Ha.
    + intros u Hu Hadmin. destruct (Hadm u Hu Hadmin) as [u1 [H1 [H2 H3]]].
      exists (if u_id u1 =? pk then f u1 else u1). split.
      * apply in_map_iff. eauto.
      * destruct (u_id u1 =? pk); [|auto].
        destruct (Hf u1) as [E0 [_ [_ [E1 _]]]]. rewrite E0, E1. auto.
  - (* a new username *)
    split.
    + constructor.
      * rewrite keys_kept; [assumption|].
        intros u. now destruct (u_id u =? pk).
      * now apply (column_assigned username (set_username name) name).
      * rewrite column_kept; [assumption|].
        intros u. now destruct (u_id u =? pk).
      * intros u' Hu' Hadmin. apply in_map_iff in Hu'.
        destruct Hu' as [u [<- Hu]].
        destruct (u_id u =? pk); exact (Ha u Hu Hadmin).
    + intros u Hu Hadmin. destruct (Hadm u Hu Hadmin) as [u1 [H1 [H2 H3]]].
      exists (if u_id u1 =? pk then set_username name u1 else u1). split.
      * apply in_map_iff. eauto.
      * now destruct (u_id u1 =? pk).
  - (* a new email *)
    split.
    + constructor.
      * rewrite keys_kept; [assumption|].
        intros u. now destruct (u_id u =? pk).
      * rewrite column_kept; [assumption|].
        intros u. now destruct (u_id u =? pk).
      * now apply (column_assigned email (set_email mail) mail).
      * intros u' Hu' Hadmin. apply in_map_iff in Hu'.
        destruct Hu' as [u [<- Hu]].
        destruct (u_id u =? pk); exact (Ha u Hu Hadmin).
    + intros u Hu Hadmin. destruct (Hadm u Hu Hadmin) as [u1 [H1 [H2 H3]]].
      exists (if u_id u1 =? pk then set_email mail u1 else u1). split.
      * apply in_map_iff. eauto.
      * now destruct (u_id u1 =? pk).
  - (* a flag of an account that is not an admin *)
    split.
    + constructor.
      * rewrite keys_kept; [assumption|].
        intros u. destruct (u_id u =? u_id v); [apply Hf|reflexivity].
      * rewrite column_kept; [assumption|].
        intros u. destruct (u_id u =? u_id v); [apply Hf|reflexivity].
      * rewrite column_kept; [assumption|].
        intros u. destruct (u_id u =? u_id v); [apply Hf|reflexivity].
      * intros u' Hu' Hadmin. apply in_map_iff in Hu'.
        destruct Hu' as [u [<- Hu]].
        destruct (Z.eqb_spec (u_id u) (u_id v)) as [E|_]; [|now apply Ha].
        exfalso. rewrite (unique_user_row _ _ _ Hk Hu Hv E) in Hadmin.
        destruct (Hf v) as [_ [_ [_ E1]]]. congruence.
    + intros u Hu Hadmin. destruct (Hadm u Hu Hadmin) as [u1 [H1 [H2 H3]]].
      exists (if u_id u1 =? u_id v then f u1 else u1). split.
      * apply in_map_iff. eauto.
      * destruct (u_id u1 =? u_id v); [|auto].
        destruct (Hf u1) as [E0 [_ [_ E1]]]. rewrite E0, E1. auto.
  - (* a new account *)
    split.
    + constructor.
      * rewrite map_app. simpl.
        apply (Permutation_NoDup (Permutation_cons_append _ _)).
        constructor; [|assumption].
        intros Hin. apply next_id_above in Hin. lia.
      * apply column_added; [assumption|]. intros x Hx. now apply Hfree.
      * apply column_added; [assumption|]. intros x Hx. now apply Hfree.
      * intros u' Hu' Hadmin. apply in_app_or in Hu'.
        destruct Hu' as [Hu'|[<-|[]]]; [now apply Ha|].
        unfold can_chat. now rewrite Hact, Hblk.
    + intros u Hu Hadmin. destruct (Hadm u Hu Hadmin) as [u1 [H1 H2]].
      exists u1. split; [apply in_or_app; now left|assumption].
  - (* an account that is not an admin removed *)
    split.
    + constructor.
      * now apply filter_keeps_keys_unique.
      * now apply column_filtered.
      * now apply column_filtered.
      * intros u' Hu' Hadmin. apply filter_In in Hu'. apply Ha; tauto.
    + intros u Hu Hadmin. destruct (Hadm u Hu Hadmin) as [u1 [H1 [H2 H3]]].
      exists u1. split; [|auto]. apply filter_In. split; [assumption|].
      apply negb_true_iff, Z.eqb_neq. intros E.
      rewrite (unique_user_row _ _ _ Hk H1 Hv E) in H3. congruence.
Qed.

Lemma reachable_sound_accounts st :
  reachable st -> sound_accounts (users st).
Proof.
  induction 1 as [salt now|st env req _ IH].
  - rewrite create_tables_store. cbn [users].
    constructor; simpl; try (constructor; [intros []|constructor]).
    intros u [<-|[]] _. reflexivity.
  - apply (account_effect_sound _ _ (step_account_effect env req st) IH).
Qed.

(** X18. In every state the application reaches no two accounts share a
    username or an email: the checks of [register], [admin_settings] and
    [ensure_admin_exists] keep the unique columns unique. *)
Theorem reachable_unique_names (st : Store) :
  reachable st ->
  NoDup (map username (users st)) /\ NoDup (map email (users st)).
Proof.
  intros H. destruct (reachable_sound_accounts st H). auto.
Qed.

(** X19. No admin account is ever blocked or deactivated: in every state
    the application reaches every account with [is_admin] is active and
    not blocked. *)
Theorem reachable_admins_usable (st : Store) (u : User) :
  reachable st -> In u (users st) -> is_admin u = true ->
  is_active u = true /\ is_blocked u = false.
Proof.
  intros H Hu Ha. destruct (reachable_sound_accounts st H) as [_ _ _ Hadm].
  specialize (Hadm u Hu Ha). unfold can_chat in Hadm.
  apply andb_true_iff in Hadm. destruct Hadm as [H1 H2].
  apply negb_true_iff in H2. auto.
Qed.

(** X20. No request deletes or demotes an admin: from a reachable state,
    after any request every admin account is still stored under its key,
    is still an admin and can still chat. *)
Theorem admins_survive_requests (st : Store) (env : Env) (req : Request)
  (u : User) :
  reachable st -> In u (users st) -> is_admin u = true ->
  exists u', In u' (users (step env req st))
             /\ u_id u' = u_id u /\ is_admin u' = true
             /\ can_chat u' = true.
Proof.
  intros H Hu Ha.
  destruct (account_effect_sound _ _ (step_account_effect env req st)
              (reachable_sound_accounts st H)) as [[_ _ _ Hadm] Hkeep].
  destruct (Hkeep u Hu Ha) as [u' [H1 [H2 H3]]].
  exists u'. auto.
Qed.

(** ** Stored rows, and who deletes them *)

Lemma stored_row_flipped keys m : stored_row m -> stored_row (flipped keys m).
Proof. unfold flipped. now destruct (existsb _ keys). Qed.

(** The row [send_message] builds, from what it checked on the way. *)
Ltac new_row_stored :=
  first
    [ apply stored_with_media; eapply upload_resource_type; eassumption
    | apply stored_text_only;
      match goal with
      | H : negb (truthy ?t) && negb _ = false |- truthy ?t = true =>
          cbn [has_file] in H;
          repeat match goal with
                 | E : truthy _ = false |- _ => rewrite E in H
                 end;
          cbn [negb] in H; rewrite andb_true_r in H;
          now apply negb_false_iff in H
      end ].

Lemma route_message_change env req st n :
  NoDup (map m_id (messages st)) ->
  message_change (session_user env) (may_delete st (session_user env))
    (messages st)
    (messages (durable (snd (route env req (mkDb st st n))))).
Proof.
  intros Hnd. destruct req.
  5:{ (* get_messages *)
    unfold_handlers.
    destruct (session_user env) as [z|]; [|apply change_none].
    destruct (get_user st z) as [u|] eqn:Hu; [|apply change_none].
    destruct (is_authenticated u); [|apply change_none].
    destruct (negb (is_active u)); [apply change_none|]. cbv beta.
    destruct (negb (in_int64 _ && in_int64 _)); [apply change_none|].
    cbn [pending durable n_commits fst snd].
    match goal with |- context [select_ordered ?p st] =>
      set (msgs := select_ordered p st) end.
    match goal with |- context [filter ?q msgs] =>
      set (keys := filter q msgs) end.
    destruct keys as [|k keys].
    - cbn. destruct (map_option _ _); apply change_none.
    - cbn [pending durable fst snd].
      destruct (map_option _ _); cbn [durable snd];
        rewrite mark_read_messages; apply change_read. }
  all: unfold_handlers; split_cases; try apply change_none;
    try (rewrite mark_read_messages; apply change_read).
  all: try match goal with
           | Hs : session_user _ = Some ?z, Hu : get_user _ ?z = Some ?u
             |- message_change _ _ _ (insert_at _ _ _) =>
               apply change_insert;
               [cbn [new_message sender_id];
                now rewrite (proj1 (get_user_id _ _ _ Hu))
               |reflexivity
               |new_row_stored]
           end.
  - (* delete_message *)
    apply change_delete. intros x Hx Hp.
    apply negb_false_iff, Z.eqb_eq in Hp.
    match goal with
    | Hu : get_user _ ?z = Some ?u,
      Hg : get_message _ _ = Some ?row, Hc : _ && _ = false |- _ =>
        destruct (find_key_id _ _ _ Hg) as [_ Hrow];
        rewrite (unique_key_row _ _ _ Hnd Hx Hrow Hp);
        exists z, u; split; [reflexivity|]; split; [assumption|];
        destruct (get_user_id _ _ _ Hu) as [Hz _];
        destruct (is_admin u); [now left|right];
        rewrite andb_true_r in Hc; apply negb_false_iff, Z.eqb_eq in Hc;
        congruence
    end.
  - (* delete_user *)
    apply change_delete. intros x Hx Hp.
    match goal with
    | Hu : get_user _ ?z = Some ?u, Ha : negb (is_admin ?u) = false |- _ =>
        exists z, u; split; [reflexivity|]; split; [assumption|];
        left; now apply negb_false_iff
    end.
  - (* delete_all_messages *)
    rewrite <- (filter_none (fun _ => false) (messages st)) by reflexivity.
    apply change_delete. intros x Hx Hp.
    match goal with
    | Hu : get_user _ ?z = Some ?u, Ha : negb (is_admin ?u) = false |- _ =>
        exists z, u; split; [reflexivity|]; split; [assumption|];
        left; now apply negb_false_iff
    end.
Qed.

Lemma step_message_change env req st :
  NoDup (map m_id (messages st)) ->
  message_change (session_user env) (may_delete st (session_user env))
    (messages st) (messages (step env req st)).
Proof.
  intros Hnd.
  destruct (step_route env req st) as [st1 [n [-> [->|[pk ->]]]]];
    [now apply route_message_change|].
  pose proof (route_message_change env req
                (update_user pk (set_last_seen (clock env)) st) n Hnd) as H.
  cbn [messages update_user] in H.
  assert (Hmay : forall m,
            may_delete (update_user pk (set_last_seen (clock env)) st)
              (session_user env) m ->
            may_delete st (session_user env) m).
  { intros m [k [me [Hs [Hme Hok]]]]. rewrite get_user_touch in Hme.
    destruct (get_user st k) as [me0|] eqn:Hget; [|discriminate].
    exists k, me0. split; [assumption|]. split; [assumption|].
    cbn [option_map] in Hme. injection Hme as <-.
    now destruct (u_id me0 =? pk). }
  destruct H as [|keys|pos row H1 H2 H3|p Hp].
  - apply change_none.
  - apply change_read.
  - now apply change_insert.
  - apply change_delete. intros m Hm Hpm. apply Hmay. now apply Hp.
Qed.

(** X21. Every message of a reachable state is as [send_message] stores
    it: its text, if any, is trimmed and not empty; a message without text
    has an attachment; the address and the type of the attachment are set
    together, and the type is image, video or auto. *)
Theorem reachable_rows_stored (st : Store) (m : Message) :
  reachable st -> In m (messages st) -> stored_row m.
Proof.
  intros H. revert m.
  induction H as [salt now|st env req Hreach IH]; intros m Hm.
  - rewrite create_tables_store in Hm. destruct Hm.
  - destruct (reachable_invariant st Hreach) as [[Hnd _ _] _].
    destruct (step_message_change env req st Hnd)
      as [|keys|pos row _ _ Hrow|p _].
    + auto.
    + apply in_map_iff in Hm. destruct Hm as [m0 [<- Hm0]].
      apply stored_row_flipped. auto.
    + apply (Permutation_in _ (insert_at_perm pos row _)) in Hm.
      destruct Hm as [<-|Hm]; auto.
    + apply filter_In in Hm. apply IH. tauto.
Qed.

(** X22. Only its sender or an admin deletes a message: when a message
    of a reachable state is no longer stored after a request, the session
    of the request names an account that is an admin or sent the message. *)
Theorem only_sender_or_admin_deletes (st : Store) (env : Env) (req : Request)
  (m : Message) :
  reachable st -> In m (messages st) ->
  ~ In (m_id m) (map m_id (messages (step env req st))) ->
  exists k me, session_user env = Some k /\ get_user st k = Some me
               /\ (is_admin me = true \/ sender_id m = k).
Proof.
  intros Hreach Hm Hgone.
  destruct (reachable_invariant st Hreach) as [[Hnd _ _] _].
  destruct (step_message_change env req st Hnd)
    as [|keys|pos row _ _ _|p Hp].
  - exfalso. apply Hgone. now apply in_map.
  - exfalso. apply Hgone. rewrite map_map.
    erewrite map_ext; [now apply in_map|]. apply flipped_id.
  - exfalso. apply Hgone. apply in_map.
    apply (Permutation_in _ (Permutation_sym (insert_at_perm pos row _))).
    now right.
  - destruct (p m) eqn:Hpm.
    + exfalso. apply Hgone. apply in_map. apply filter_In. auto.
    + exact (Hp m Hm Hpm).
Qed.

(** ** What an account that is not an admin can change *)

Lemma route_own_effect env req st n :
  (forall k me, session_user env = Some k -> get_user st k = Some me ->
                is_admin me = false) ->
  own_effect (session_user env) (users st)
    (users (durable (snd (route env req (mkDb st st n))))).
Proof.
  intros Hna. destruct req.
  5:{ (* get_messages *)
    unfold_handlers.
    destruct (session_user env) as [z|]; [|apply own_same].
    destruct (get_user st z) as [u|] eqn:Hu; [|apply own_same].
    destruct (is_authenticated u); [|apply own_same].
    destruct (negb (is_active u)); [apply own_same|]. cbv beta.
    destruct (negb (in_int64 _ && in_int64 _)); [apply own_same|].
    cbn [pending durable n_commits fst snd].
    match goal with |- context [select_ordered ?p st] =>
      set (msgs := select_ordered p st) end.
    match goal with |- context [filter ?q msgs] =>
      set (keys := filter q msgs) end.
    destruct keys as [|k keys].
    - cbn. destruct (map_option _ _); apply own_same.
    - cbn [pending durable fst snd].
      destruct (map_option _ _); cbn [durable snd];
        rewrite mark_read_users; apply own_same. }
  all: unfold_handlers; split_cases; try rewrite mark_read_users.
  all: try match goal with
           | Hu : get_user _ ?z = Some ?u,
             Ha : negb (is_admin ?u) = false |- _ =>
               exfalso; rewrite (Hna z u eq_refl Hu) in Ha; discriminate Ha
           end.
  all: repeat first
         [ apply own_same
         | apply own_add
         | apply own_update;
           [|match goal with
             | Hu : get_user _ ?z = Some ?u |- Some ?z = Some (u_id ?u) =>
                 now rewrite (proj1 (get_user_id _ _ _ Hu))
             end
            |intros ?; repeat split; reflexivity] ].
Qed.

Lemma own_effect_trans who a b c :
  own_effect who a b -> own_effect who b c -> own_effect who a c.
Proof.
  intros Hab Hbc. induction Hbc; [assumption|..].
  - now apply own_update.
  - now apply own_add.
Qed.

Lemma own_effect_keeps who tbl tbl' :
  own_effect who tbl tbl' ->
  forall u, In u tbl ->
    (who <> Some (u_id u) -> In u tbl')
    /\ exists u', In u' tbl' /\ u_id u' = u_id u
                  /\ is_admin u' = is_admin u
                  /\ is_active u' = is_active u
                  /\ is_blocked u' = is_blocked u.
Proof.
  induction 1 as [|tbl' pk f _ IH Hwho Hf|tbl' v _ IH]; intros u Hu.
  - split; [auto|]. exists u. auto.
  - destruct (IH u Hu) as [Hkeep [u1 [H1 [H2 [H3 [H4 H5]]]]]]. split.
    + intros Hne. apply in_map_iff. exists u. split; [|auto].
      destruct (Z.eqb_spec (u_id u) pk) as [E|_]; [|reflexivity].
      exfalso. apply Hne. now rewrite Hwho, E.
    + exists (if u_id u1 =? pk then f u1 else u1). split.
      * apply in_map_iff. eauto.
      * destruct (u_id u1 =? pk); [|auto].
        destruct (Hf u1) as [E0 [E1 [E2 E3]]].
        rewrite E0, E1, E2, E3. auto.
  - destruct (IH u Hu) as [Hkeep [u1 [H1 H2]]]. split.
    + intros Hne. apply in_or_app. left. auto.
    + exists u1. split; [apply in_or_app; now left|assumption].
Qed.

(** The hook touches the account the session names. *)
Lemma step_route_session env req st :
  exists st1 n,
    step env req st = durable (snd (route env req (mkDb st1 st1 n)))
    /\ (st1 = st
        \/ exists pk, session_user env = Some pk
                      /\ st1 = update_user pk (set_last_seen (clock env)) st).
Proof.
  cbv [step run serve bind update_last_seen current_user query modify
       commit ret].
  cbn [pending durable n_commits fst snd].
  destruct (session_user env) as [pk|].
  - destruct (get_user st pk) as [me|] eqn:Hme.
    + destruct (is_authenticated me).
      * exists (update_user pk (set_last_seen (clock env)) st), 1%nat.
        rewrite (proj1 (get_user_id _ _ _ Hme)).
        split; [|right; eauto].
        destruct (route _ req _) as [r d]. reflexivity.
      * exists st, 0%nat. split; [|now left].
        destruct (route _ req _) as [r d]. reflexivity.
    + exists st, 0%nat. split; [|now left].
      destruct (route _ req _) as [r d]. reflexivity.
  - exists st, 0%nat. split; [|now left].
    destruct (route _ req _) as [r d]. reflexivity.
Qed.

(** X23. A request whose session does not name an admin leaves every
    account but the requester's own exactly as it was, and changes the
    [is_admin], [is_active] and [is_blocked] flag of no account, the
    requester's included: a blocked user cannot lift the block. *)
Theorem requests_of_users_keep_accounts (st : Store) (env : Env)
  (req : Request) (u : User) :
  (forall k me, session_user env = Some k -> get_user st k = Some me ->
                is_admin me = false) ->
  In u (users st) ->
  (session_user env <> Some (u_id u) -> In u (users (step env req st)))
  /\ exists u', In u' (users (step env req st)) /\ u_id u' = u_id u
                /\ is_admin u' = is_admin u
                /\ is_active u' = is_active u
                /\ is_blocked u' = is_blocked u.
Proof.
  intros Hna Hu.
  apply (own_effect_keeps (session_user env) (users st)); [|assumption].
  destruct (step_route_session env req st)
    as [st1 [n [-> [->|[pk [Hs ->]]]]]]; [now apply route_own_effect|].
  eapply own_effect_trans; [|apply route_own_effect].
  - cbn [users update_user]. apply own_update; [apply own_same|assumption|].
    intros x. repeat split; reflexivity.
  - intros k me Hk Hme. rewrite get_user_touch in Hme.
    destruct (get_user st k) as [me0|] eqn:Hget; [|discriminate].
    cbn [option_map] in Hme. injection Hme as <-.
    specialize (Hna k me0 Hk Hget). now destruct (u_id me0 =? pk).
Qed.

(** ** A deactivated account *)

(** X24. An account that is not active is locked out of the dashboard
    and of messaging, whether or not it still counts as authenticated:
    [dashboard], [chat], [send_message], [get_messages] and
    [delete_message] each redirect it to the login page, write nothing and
    commit nothing. *)
Theorem deactivated_account_is_locked_out (st : Store) (v : Z) (me : User) :
  get_user st v = Some me -> is_active me = false ->
  (forall salt now,
     exists fl, run (dashboard (Some v) salt now) st
                = mkOutcome (Redirect "login" fl) st 0%nat)
  /\ (forall c,
        exists fl, run (chat (Some v) c) st
                   = mkOutcome (Redirect "login" fl) st 0%nat)
  /\ (forall rid text file reply pos now,
        exists fl, run (send_message (Some v) rid text file reply pos now) st
                   = mkOutcome (Redirect "login" fl) st 0%nat)
  /\ (forall c arg,
        exists fl, run (get_messages (Some v) c arg) st
                   = mkOutcome (Redirect "login" fl) st 0%nat)
  /\ (forall k,
        exists fl, run (delete_message (Some v) k) st
                   = mkOutcome (Redirect "login" fl) st 0%nat).
Proof.
  intros Hme Hact.
  repeat split; intros;
    unfold dashboard, chat, send_message, get_messages, delete_message;
    run_handler; rewrite Hme; cbv beta iota;
    destruct (is_authenticated me); cbv beta iota;
    rewrite ?Hact; cbn [negb]; eauto.
Qed.

(** ** Opening a conversation, then polling *)

Lemma chat_run st v c me target :
  get_user st v = Some me -> is_active me = true ->
  get_user st c = Some target -> can_chat target = true ->
  store_after (run (chat (Some v) c) st)
  = mark_read (select (fun m => (receiver_id m =? v) && (sender_id m =? c)
                                && negb (is_read m)) st) st.
Proof.
  intros Hme Hact Htarget Hchat.
  destruct (get_user_id _ _ _ Hme) as [Hv _].
  unfold chat. run_handler. enter_as Hme (active_authenticated me Hact).
  rewrite Hact. cbn [negb].
  run_handler. rewrite Htarget, Hchat. cbn [negb]. run_handler.
  now rewrite Hv.
Qed.

(** X25. Once [chat] has shown a conversation, a poll of the same viewer
    for the same counterpart finds nothing to flip, whatever its cursor: it
    leaves the store as [chat] left it and does not commit. *)
Theorem chat_then_poll_is_quiet (st : Store) (v c : Z) (me target : User)
  (arg : option str) :
  NoDup (map m_id (messages st)) ->
  get_user st v = Some me -> is_active me = true ->
  get_user st c = Some target -> can_chat target = true ->
  store_after
    (run (get_messages (Some v) c arg) (store_after (run (chat (Some v) c) st)))
  = store_after (run (chat (Some v) c) st)
  /\ commits
       (run (get_messages (Some v) c arg)
          (store_after (run (chat (Some v) c) st))) = 0%nat.
Proof.
  intros Hnd Hme Hact Htarget Hchat.
  rewrite (chat_run st v c me target Hme Hact Htarget Hchat).
  set (keys := select _ st). set (st1 := mark_read keys st).
  assert (Hme1 : get_user st1 v = Some me)
    by (unfold st1, get_user; now rewrite mark_read_users).
  assert (Hnd1 : NoDup (map m_id (messages st1))).
  { unfold st1. rewrite mark_read_messages, map_map.
    erewrite map_ext; [exact Hnd|]. apply flipped_id. }
  destruct (in_int64 c && in_int64 (cursor arg)) eqn:Hrange;
    [|now rewrite (get_messages_refused st1 v c arg me Hme1 Hact Hrange)].
  rewrite (get_messages_run st1 v c arg me Hme1 Hact Hrange).
  cbn [store_after commits].
  destruct (unread_keys_rows st1 v c (cursor arg) Hnd1) as [Hperm _].
  assert (Hnone : filter (unread_for v c (cursor arg)) (messages st1) = []).
  { apply filter_none. intros m' Hm'. unfold st1 in Hm'.
    rewrite mark_read_messages in Hm'. apply in_map_iff in Hm'.
    destruct Hm' as [m [<- Hm]].
    unfold unread_for, newer_in_conversation.
    rewrite in_conversation_flipped, flipped_receiver, flipped_id.
    destruct (in_conversation v c m) eqn:Hc; [|reflexivity].
    destruct (Z.eqb_spec (receiver_id m) v) as [Hr|_];
      [|now rewrite andb_false_r].
    unfold flipped.
    destruct (existsb (Z.eqb (m_id m)) keys) eqn:Hk;
      [cbn [is_read set_is_read negb]; now rewrite andb_false_r|].
    destruct (is_read m) eqn:Hread; [now rewrite andb_false_r|].
    exfalso. apply Bool.not_true_iff_false in Hk. apply Hk.
    apply existsb_key. apply in_select. exists m.
    unfold in_conversation in Hc.
    assert (Hs : sender_id m = c) by lia.
    rewrite Hread, Hr, Hs, !Z.eqb_refl. auto. }
  rewrite Hnone in Hperm. apply Permutation_sym, Permutation_nil in Hperm.
  rewrite Hperm. split; reflexivity.
Qed.

(** ** The time an account was last seen *)

Lemma find_app_found {A} (p : A -> bool) (l l' : list A) (a : A) :
  find p l = Some a -> find p (l ++ l') = Some a.
Proof.
  induction l as [|x l IH]; simpl; [discriminate|].
  destruct (p x); [auto|apply IH].
Qed.

Lemma find_other_key (tbl : list User) (k pk : Z) :
  k <> pk ->
  find (fun u => u_id u =? pk) (filter (fun x => negb (u_id x =? k)) tbl)
  = find (fun u => u_id u =? pk) tbl.
Proof.
  intros Hne. induction tbl as [|x tbl IH]; simpl; [reflexivity|].
  destruct (Z.eqb_spec (u_id x) k) as [E|E]; cbn [negb find].
  - rewrite IH. destruct (Z.eqb_spec (u_id x) pk); [congruence|reflexivity].
  - now rewrite IH.
Qed.

Lemma presence_kept pk tbl tbl' :
  presence_effect pk tbl tbl' ->
  forall me, find (fun u => u_id u =? pk) tbl = Some me ->
    exists me', find (fun u => u_id u =? pk) tbl' = Some me'
                /\ last_seen me' = last_seen me.
Proof.
  induction 1 as [|tbl' k f _ IH Hf|tbl' u _ IH|tbl' k _ IH Hk];
    intros me Hme; [eauto|..]; destruct (IH me Hme) as [me1 [H1 H2]].
  - rewrite find_map_same.
    + rewrite H1. cbn [option_map]. eexists. split; [reflexivity|].
      destruct (u_id me1 =? k); [|assumption].
      now rewrite (proj2 (Hf me1)).
    + intros x. destruct (u_id x =? k); [|reflexivity].
      now rewrite (proj1 (Hf x)).
  - exists me1. split; [now apply find_app_found|assumption].
  - exists me1. split; [|assumption]. now rewrite find_other_key.
Qed.

Lemma route_presence_effect env req st n :
  match session_user env with
  | Some z =>
      presence_effect z (users st)
        (users (durable (snd (route env req (mkDb st st n)))))
  | None => True
  end.
Proof.
  destruct req.
  5:{ (* get_messages *)
    unfold_handlers.
    destruct (session_user env) as [z|]; [|exact I].
    destruct (get_user st z) as [u|] eqn:Hu; [|apply presence_same].
    destruct (is_authenticated u); [|apply presence_same].
    destruct (negb (is_active u)); [apply presence_same|]. cbv beta.
    destruct (negb (in_int64 _ && in_int64 _)); [apply presence_same|].
    cbn [pending durable n_commits fst snd].
    match goal with |- context [select_ordered ?p st] =>
      set (msgs := select_ordered p st) end.
    match goal with |- context [filter ?q msgs] =>
      set (keys := filter q msgs) end.
    destruct keys as [|k keys].
    - cbn. destruct (map_option _ _); apply presence_same.
    - cbn [pending durable fst snd].
      destruct (map_option _ _); cbn [durable snd];
        rewrite mark_read_users; apply presence_same. }
  all: unfold_handlers; split_cases; try exact I; try rewrite mark_read_users.
  all: repeat first
         [ apply presence_same
         | apply presence_add
         | apply presence_update; [|intros ?; split; reflexivity] ].
  (* delete_user: the account removed is not the requester's *)
  apply presence_remove; [apply presence_same|].
  match goal with
  | Hu : get_user _ ?z = Some ?u, Ha : negb (is_admin ?u) = false,
    Ht : get_user _ _ = Some ?t, Hn : is_admin ?t = false |- _ =>
      intros E; destruct (get_user_id _ _ _ Ht) as [Hid _];
      rewrite <- Hid, E, Hu in Ht; injection Ht as ->;
      rewrite Hn in Ha; discriminate Ha
  end.
Qed.

(** X26. Every request of a session that names an authenticated account
    stamps the account with the time of the request, whatever the route
    answers: afterwards its [last_seen] is the clock of the request, so
    that [is_online] holds of it for the next five minutes. *)
Theorem request_stamps_last_seen (st : Store) (env : Env) (req : Request)
  (v : Z) (me : User) :
  session_user env = Some v -> get_user st v = Some me ->
  is_authenticated me = true ->
  exists me',
    get_user (step env req st) v = Some me'
    /\ last_seen me' = clock env
    /\ forall t, clock env <= t < clock env + minutes 5 ->
                 is_online t me' = true.
Proof.
  intros Hs Hme Hauth.
  destruct (get_user_id _ _ _ Hme) as [Hv _].
  assert (Hstep : step env req st
                  = durable
                      (snd (route env req
                              (mkDb
                                 (update_user v (set_last_seen (clock env)) st)
                                 (update_user v (set_last_seen (clock env)) st)
                                 1%nat)))).
  { cbv [step run serve bind update_last_seen current_user query modify
         commit ret].
    cbn [pending durable n_commits fst snd].
    rewrite Hs. enter_as Hme Hauth. rewrite Hv.
    cbn [pending durable n_commits fst snd].
    destruct (route env req _) as [r d]. reflexivity. }
  pose proof (route_presence_effect env req
                (update_user v (set_last_seen (clock env)) st) 1%nat) as H.
  rewrite Hs, <- Hstep in H.
  destruct (presence_kept _ _ _ H (set_last_seen (clock env) me))
    as [me' [H1 H2]].
  { fold (get_user (update_user v (set_last_seen (clock env)) st) v).
    rewrite get_user_touch, Hme. cbn [option_map].
    now rewrite Hv, Z.eqb_refl. }
  exists me'. split; [exact H1|]. split; [exact H2|].
  intros t Ht. unfold is_online. rewrite H2. cbn [last_seen set_last_seen].
  apply Z.ltb_lt. lia.
Qed.

(** ** The dashboard listing *)

Lemma unique_user_found st (u : User) :
  NoDup (map u_id (users st)) -> In u (users st) ->
  get_user st (u_id u) = Some u.
Proof.
  intros Hnd Hu. unfold get_user.
  destruct (find _ (users st)) as [x|] eqn:F.
  - apply find_some in F. destruct F as [Hx E]. apply Z.eqb_eq in E.
    now rewrite (unique_user_row _ _ _ Hnd Hx Hu E).
  - pose proof (find_none _ _ F u Hu) as E. cbv beta in E.
    now rewrite Z.eqb_refl in E.
Qed.

(** X27. The dashboard never lists the requester.  What it lists to an
    account that is not an admin can chat, so that [chat] opens the
    conversation with every account listed; to an admin it lists every
    other account.  Each entry carries the unread count of the requester
    for that account. *)
Theorem dashboard_lists_reachable (st : Store) (v : Z) (me : User) :
  NoDup (map u_id (users st)) ->
  get_user st v = Some me -> is_active me = true ->
  (forall u n, In (u, n) (user_data st me) ->
     In u (users st) /\ u_id u <> v /\ n = get_unread_count st me (u_id u)
     /\ (is_admin me = false ->
         exists rows,
           result (run (chat (Some v) (u_id u)) st) = RenderChat u rows))
  /\ (forall u, In u (users st) -> u_id u <> v ->
        is_admin me = true \/ can_chat u = true ->
        In (u, get_unread_count st me (u_id u)) (user_data st me)).
Proof.
  intros Hnd Hme Hact.
  destruct (get_user_id _ _ _ Hme) as [Hv _].
  unfold user_data, dashboard_rows. split.
  - intros u n Hin. apply in_map_iff in Hin.
    destruct Hin as [u' [[= <- <-] Hu]].
    destruct (is_admin me); apply filter_In in Hu; destruct Hu as [Hu Hp].
    + apply negb_true_iff, Z.eqb_neq in Hp. rewrite Hv in Hp.
      repeat split; try assumption. discriminate.
    + apply andb_true_iff in Hp. destruct Hp as [Hp Hblk].
      apply andb_true_iff in Hp. destruct Hp as [Hp Hua].
      apply negb_true_iff, Z.eqb_neq in Hp. rewrite Hv in Hp.
      repeat split; try assumption. intros _.
      unfold chat. run_handler. enter_as Hme (active_authenticated me Hact).
      rewrite Hact. cbn [negb]. run_handler.
      rewrite (unique_user_found st u' Hnd Hu).
      unfold can_chat. rewrite Hua, Hblk. cbn [negb andb]. run_handler.
      eauto.
  - intros u Hu Hne Hok. apply in_map_iff. exists u. split; [reflexivity|].
    assert (Hid : negb (u_id u =? u_id me) = true)
      by (apply negb_true_iff, Z.eqb_neq; now rewrite Hv).
    destruct (is_admin me); apply filter_In; (split; [assumption|]);
      [assumption|].
    destruct Hok as [Hok|Hok]; [discriminate|].
    unfold can_chat in Hok. apply andb_true_iff in Hok.
    destruct Hok as [H1 H2]. now rewrite Hid, H1, H2.
Qed.

(** ** The dashboard and the admin account *)

(** X28. [dashboard] of an active account runs [ensure_admin_exists]
    first: it renders with the store unchanged when an admin carries the
    well-known username; it creates that admin under one commit when there
    is none and the username and the email are free; and it fails with the
    500 page, for every user and without a change, as long as there is none
    and another account holds the username or the email. *)
Theorem dashboard_outcomes (st : Store) (v : Z) (me : User) (salt : str)
  (now : datetime) :
  get_user st v = Some me -> is_active me = true ->
  (has_named_admin (users st) ->
   run (dashboard (Some v) salt now) st
   = mkOutcome (RenderTemplate "dashboard.html" []) st 0%nat)
  /\ (~ has_named_admin (users st) -> ~ name_or_email_taken (users st) ->
      run (dashboard (Some v) salt now) st
      = mkOutcome (RenderTemplate "dashboard.html" [])
          (add_user (new_user st admin_username admin_email
                       (generate_password_hash salt admin_password) true now)
                    st)
          1%nat)
  /\ (~ has_named_admin (users st) -> name_or_email_taken (users st) ->
      run (dashboard (Some v) salt now) st = mkOutcome Error500 st 0%nat).
Proof.
  intros Hme Hact.
  destruct (ensure_admin_exists_run salt now st) as [H1 [H2 H3]].
  assert (Hrun : forall raised st' k,
            run (ensure_admin_exists salt now) st = mkOutcome raised st' k ->
            run (dashboard (Some v) salt now) st
            = mkOutcome (match raised with
                         | Some _ => Error500
                         | None => RenderTemplate "dashboard.html" []
                         end) st' k).
  { intros raised st' k. unfold dashboard, run.
    cbv [bind ret query login_required active_user_required current_user].
    cbn [pending durable n_commits fst snd].
    enter_as Hme (active_authenticated me Hact). rewrite Hact. cbn [negb].
    destruct (ensure_admin_exists salt now _) as [r d].
    intros [= -> <- <-]. now destruct raised. }
  split; [|split].
  - intros Hn. exact (Hrun _ _ _ (H1 Hn)).
  - intros Hn Hfree. exact (Hrun _ _ _ (H3 Hn Hfree)).
  - intros Hn Htaken. exact (Hrun _ _ _ (H2 Hn Htaken)).
Qed.

(** ** The settings of the admin, accepted *)







(** ** The scan order of the configured engine *)

Lemma appended_key_ordered (tbl : list Message) (row : Message) (pos : nat) :
  key_ordered tbl -> (List.length tbl <= pos)%nat ->
  m_id row = next_id (map m_id tbl) ->
  key_ordered (insert_at pos row tbl).
Proof.
  intros Hko Hpos Hid. unfold insert_at.
  rewrite firstn_all2, skipn_all2 by assumption.
  destruct (next_id_fresh tbl) as [_ Habove]. rewrite <- Hid in Habove.
  clear Hid Hpos. unfold key_ordered in *.
  induction Hko as [|x r Hs IH Hall]; simpl.
  - constructor; constructor.
  - constructor.
    + apply IH. intros m Hm. apply Habove. now right.
    + rewrite Forall_forall in *. intros y Hy. apply in_app_or in Hy.
      destruct Hy as [Hy|[<-|[]]]; [now apply Hall|].
      apply Habove. now left.
Qed.

Lemma route_key_order env req st n :
  key_ordered (messages st) ->
  (List.length (messages st) <= placement env)%nat ->
  key_ordered (messages (durable (snd (route env req (mkDb st st n))))).
Proof.
  intros Hko Happ. destruct req.
  5:{ (* get_messages *)
    unfold_handlers.
    destruct (session_user env) as [z|]; [|assumption].
    destruct (get_user st z) as [u|] eqn:Hu; [|assumption].
    destruct (is_authenticated u); [|assumption].
    destruct (negb (is_active u)); [assumption|]. cbv beta.
    destruct (negb (in_int64 _ && in_int64 _)); [assumption|].
    cbn [pending durable n_commits fst snd].
    match goal with |- context [select_ordered ?p st] =>
      set (msgs := select_ordered p st) end.
    match goal with |- context [filter ?q msgs] =>
      set (keys := filter q msgs) end.
    destruct keys as [|k keys].
    - cbn. destruct (map_option _ _); assumption.
    - cbn [pending durable fst snd].
      destruct (map_option _ _); cbn [durable snd];
        rewrite mark_read_messages; now apply flipped_key_ordered. }
  all: unfold_handlers; split_cases; try assumption;
    try (rewrite mark_read_messages; now apply flipped_key_ordered);
    try (apply appended_key_ordered; [assumption|assumption|reflexivity]);
    try (apply filter_scan_order; assumption).
  (* delete_all_messages *)
  constructor.
Qed.

Lemma step_key_order env req st :
  key_ordered (messages st) -> appends env st ->
  key_ordered (messages (step env req st)).
Proof.
  intros Hko Happ.
  destruct (step_route env req st) as [st1 [n [-> [->|[pk ->]]]]].
  - now apply route_key_order.
  - now apply (route_key_order env req
                 (update_user pk (set_last_seen (clock env)) st) n).
Qed.

(** On an engine that appends, every table the application reaches is
    scanned in key order. *)
Lemma reachable_appending_key_order st :
  reachable_appending st -> key_ordered (messages st) /\ reachable st.
Proof.
  induction 1 as [salt now|st env req _ [IHk IHr] Happ].
  - split; [|constructor]. unfold create_tables.
    unfold_handlers. split_cases; constructor.
  - split; [now apply step_key_order|now constructor].
Qed.


End Properties.

(** * The properties on a run of the application *)

#[local] Existing Instance sample_externals.

Lemma two_messages_reachable : @reachable sample_externals two_messages.
Proof. unfold two_messages, two_users. repeat constructor. Qed.

Lemma two_admins_reachable : @reachable sample_externals two_admins.
Proof. unfold two_admins, renamed_admin. repeat constructor. Qed.

Example two_users_accounts :
  users two_users = [admin_booted; alice_registered].
Proof. reflexivity. Qed.

Example two_messages_scan_order :
  map m_id (messages two_messages) = [1; 2]
  /\ map timestamp (messages two_messages) = [20; 20]
  /\ users two_messages = [sample_admin; sample_alice].
Proof. vm_compute. auto. Qed.

Example blocked_alice_accounts :
  users blocked_alice
  = [mkUser 1 admin_username admin_email (lit "salt$admin123") default_avatar
       [] [] true true false 15 5; alice_blocked].
Proof. reflexivity. Qed.

Lemma two_messages_keys : NoDup (map m_id (messages two_messages)).
Proof. vm_compute. repeat constructor; simpl; intuition discriminate. Qed.

Lemma two_messages_appending :
  @reachable_appending sample_externals two_messages.
Proof.
  unfold two_messages, two_users.
  repeat (apply reach_step_appending; [|vm_compute; lia]).
  constructor.
Qed.

Lemma two_messages_key_ordered : key_ordered (messages two_messages).
Proof.
  exact (proj1 (@reachable_appending_key_order sample_externals two_messages
                  two_messages_appending)).
Qed.

Lemma route_key : 0 <= 2 < 2 ^ 63.
Proof. split; [discriminate|reflexivity]. Qed.

Lemma no_cursor : - 2 ^ 63 <= cursor None < 2 ^ 63.
Proof. split; [discriminate|reflexivity]. Qed.

(** The text of 2^63, the first integer the driver does not bind. *)
Definition beyond_int64 : str := lit "9223372036854775808".

(** ** Opening a conversation *)

(** The admin opens the conversation with alice: both of her messages end
    up read, under one commit. *)
Lemma chat_marks_incoming_read_witness :
  (exists rows,
     result (run (chat (Some 1) 2) two_messages) = RenderChat sample_alice rows)
  /\ commits (run (chat (Some 1) 2) two_messages) = 1%nat
  /\ forall m,
       In m (messages (store_after (run (chat (Some 1) 2) two_messages))) ->
       in_conversation 1 2 m = true -> receiver_id m = 1 -> is_read m = true.
Proof.
  exact (@chat_marks_incoming_read sample_externals two_messages 1 2
           sample_admin sample_alice eq_refl eq_refl eq_refl eq_refl).
Defined.

(** The admin opens the conversation with alice: her two messages of one
    timestamp come in the order of their identifiers. *)
Lemma chat_returns_conversation_in_order_witness :
  exists rows,
    result (run (chat (Some 1) 2) two_messages) = RenderChat sample_alice rows
    /\ map m_id rows = [1; 2]
    /\ map timestamp rows = [20; 20]
    /\ StronglySorted by_timestamp_then_id rows.
Proof.
  destruct (@chat_returns_conversation_in_order sample_externals
              two_messages 1 2 sample_admin sample_alice
              two_messages_key_ordered eq_refl eq_refl eq_refl eq_refl)
    as [rows [Hres [_ [_ Hsorted]]]].
  exists rows. split; [exact Hres|].
  vm_compute in Hres. injection Hres as <-.
  split; [reflexivity|]. split; [reflexivity|]. exact Hsorted.
Defined.

(** ** Polling *)



(** The admin's poll commits once; alice's poll of her own outgoing
    messages commits nothing and leaves the store as it was; a poll with a
    cursor the driver does not bind changes nothing. *)
Lemma get_messages_flips_only_unread_witness :
  commits (run (get_messages (Some 1) 2 None) two_messages) = 1%nat
  /\ commits (run (get_messages (Some 2) 1 None) two_messages) = 0%nat
  /\ store_after (run (get_messages (Some 2) 1 None) two_messages)
     = two_messages
  /\ run (get_messages (Some 1) 2 (Some beyond_int64)) two_messages
     = mkOutcome Error500 two_messages 0%nat.
Proof.
  assert (Hsenders : forall m, In m (messages two_messages) ->
                       get_user two_messages (sender_id m) <> None)
    by (intros m [<-|[<-|[]]]; discriminate).
  assert (Hin : 2 < 2 ^ 63 /\ - 2 ^ 63 <= cursor None < 2 ^ 63)
    by (split; [reflexivity|exact no_cursor]).
  assert (Hin' : 1 < 2 ^ 63 /\ - 2 ^ 63 <= cursor None < 2 ^ 63)
    by (split; [reflexivity|exact no_cursor]).
  destruct (proj1 (@get_messages_flips_only_unread sample_externals
                     two_messages 1 2 None sample_admin two_messages_keys
                     Hsenders eq_refl eq_refl (proj1 route_key)) Hin)
    as [ds [Hres [_ [_ [Hone _]]]]].
  destruct (proj1 (@get_messages_flips_only_unread sample_externals
                     two_messages 2 1 None sample_alice two_messages_keys
                     Hsenders eq_refl eq_refl (Z.le_0_1)) Hin')
    as [ds' [Hres' [_ [_ [_ Hnone]]]]].
  split; [|split; [|split]].
  - apply Hone. exists hello_row.
    vm_compute in Hres. injection Hres as <-.
    split; [now left|]. repeat split. now left.
  - apply Hnone. intros m [<-|[<-|[]]] [_ [Hr _]]; discriminate.
  - apply Hnone. intros m [<-|[<-|[]]] [_ [Hr _]]; discriminate.
  - apply (proj2 (@get_messages_flips_only_unread sample_externals
                    two_messages 1 2 (Some beyond_int64) sample_admin
                    two_messages_keys Hsenders eq_refl eq_refl
                    (proj1 route_key))).
    intros [_ [_ H]]. vm_compute in H. discriminate.
Defined.

(** ** Sending *)

(** C5, the order of the checks.  A message without text or attachment to
    a receiver who does not exist fails with [NotReachable], not with
    [EmptyMessage]. *)
Lemma send_message_empty_to_nobody :
  get_user two_users 99 = None
  /\ strip (lit "  ") = []
  /\ has_file None = false
  /\ result (run (send_message (Some 2) (Some (lit "99")) (lit "  ") None
                    (UploadRaised []) 0 20) two_users)
     = JsonError NotReachable
  /\ JsonError NotReachable <> JsonError EmptyMessage.
Proof.
  split; [reflexivity|]. split; [reflexivity|]. split; [reflexivity|].
  split; [reflexivity|]. discriminate.
Qed.

Lemma send_message_rejections_witness :
  run (send_message (Some 2) (Some (lit "99")) (lit "hello") None
         (UploadRaised []) 0 20) two_users
  = mkOutcome (JsonError NotReachable) two_users 0%nat
  /\ run (send_message (Some 2) (Some (lit "1")) (lit "  ") None
            (UploadRaised []) 0 20) two_users
     = mkOutcome (JsonError EmptyMessage) two_users 0%nat.
Proof.
  split.
  - apply (proj1 (@send_message_rejections sample_externals two_users 2
                    alice_registered (lit "99") (lit "hello") None
                    (UploadRaised []) 0%nat 20 eq_refl eq_refl eq_refl)).
    intros r. discriminate.
  - apply (proj2 (@send_message_rejections sample_externals two_users 2
                    alice_registered (lit "1") (lit "  ") None
                    (UploadRaised []) 0%nat 20 eq_refl eq_refl eq_refl)
             admin_booted);
      reflexivity.
Defined.

(** Alice, blocked by the admin but still logged in, sends a message and
    it is stored, from her to the admin. *)
Lemma send_message_ignores_sender_block_witness :
  get_user blocked_alice 2 = Some alice_blocked
  /\ is_blocked alice_blocked = true
  /\ exists key,
       sent blocked_alice
         (run (send_message (Some 2) (Some (lit "1")) (lit " hello ") None
                 (UploadRaised []) 0 20) blocked_alice)
         (mkMessage key (Some (lit "hello")) None None false 20 2 1) None.
Proof.
  split; [reflexivity|]. split; [reflexivity|].
  assert (Hfits : fits_body (lit " hello ") None) by reflexivity.
  assert (Hrid : lit "1" <> []) by discriminate.
  assert (Htext : strip (lit " hello ") <> []) by discriminate.
  destruct (proj1 (@send_message_ignores_sender_block sample_externals
                     blocked_alice 2 1 alice_blocked
                     (mkUser 1 admin_username admin_email
                        (lit "salt$admin123") default_avatar [] [] true true
                        false 15 5)
                     (lit "1") (lit " hello ") None (UploadRaised []) 0%nat 20
                     eq_refl eq_refl Hfits Hrid eq_refl eq_refl eq_refl
                     eq_refl)
                  Htext (or_introl eq_refl)) as [key [_ Hsent]].
  exists key. exact Hsent.
Defined.

(** ** Accounts *)

(** The admin deletes alice and no message mentions her any more; the
    admin's own account is refused. *)
Lemma delete_user_cascades_witness :
  List.length
    (filter (references 2)
       (messages (store_after (run (delete_user (Some 1) 2) two_messages))))
  = 0%nat
  /\ run (delete_user (Some 1) 1) two_messages
     = mkOutcome
         (Redirect "admin_dashboard"
            [flash "Tidak dapat menghapus admin lain!" "error"])
         two_messages 0%nat.
Proof.
  split.
  - destruct (proj2 (@delete_user_cascades sample_externals two_messages 1 2
                       sample_admin sample_alice eq_refl eq_refl eq_refl
                       eq_refl) eq_refl)
      as [_ [_ [Hcount _]]].
    exact Hcount.
  - exact (proj1 (@delete_user_cascades sample_externals two_messages 1 1
                    sample_admin sample_admin eq_refl eq_refl eq_refl eq_refl)
             eq_refl).
Defined.

(** The admin opens the conversation: the first message is flipped, and
    the requester is its receiver. *)
Lemma messages_change_only_by_read_flip_witness :
  In hello_row (messages two_messages)
  /\ In (set_is_read true hello_row)
       (messages (step (as_user 1 50 0) (GetChat 2) two_messages))
  /\ (is_read (set_is_read true hello_row) <> is_read hello_row ->
      session_user (as_user 1 50 0) = Some (receiver_id hello_row)).
Proof.
  assert (Hbefore : In hello_row (messages two_messages))
    by (vm_compute; auto).
  assert (Hafter : In (set_is_read true hello_row)
                     (messages (step (as_user 1 50 0) (GetChat 2)
                                  two_messages)))
    by (vm_compute; auto).
  split; [exact Hbefore|]. split; [exact Hafter|].
  exact (proj2 (proj2 (@messages_change_only_by_read_flip sample_externals
                         two_messages (as_user 1 50 0) (GetChat 2) hello_row
                         (set_is_read true hello_row) two_messages_reachable
                         Hbefore Hafter eq_refl))).
Defined.

(** C8, the count.  After the admin has renamed the account and visited
    the dashboard there are two admin accounts, and the first does not
    carry the well-known username. *)
Lemma two_admins_after_rename :
  @reachable sample_externals two_admins
  /\ map (fun u => (u_id u, is_admin u)) (users two_admins)
     = [(1, true); (2, true)]
  /\ map username (users two_admins) = [lit "root"; admin_username]
  /\ ~ one_named_admin (users two_admins).
Proof.
  split; [exact two_admins_reachable|].
  split; [reflexivity|]. split; [reflexivity|].
  intros [u [Hu [_ [_ Huniq]]]].
  assert (H1 : In (nth 0 (users two_admins) u) (users two_admins))
    by (vm_compute; auto).
  assert (H2 : In (nth 1 (users two_admins) u) (users two_admins))
    by (vm_compute; auto).
  pose proof (Huniq _ H1 eq_refl) as E1.
  pose proof (Huniq _ H2 eq_refl) as E2.
  rewrite <- E2 in E1. vm_compute in E1. discriminate.
Qed.

Lemma admin_account_persists_witness :
  has_admin (users two_admins)
  /\ has_named_admin
       (users (store_after
                 (run (ensure_admin_exists (lit "salt") 50) two_admins))).
Proof.
  destruct (@admin_account_persists sample_externals two_admins
              two_admins_reachable) as [Hadmin Hensure].
  split; [exact Hadmin|].
  apply (Hensure (lit "salt") 50). reflexivity.
Defined.

(** ** More of the handlers on the run *)


Lemma two_messages_user_keys : NoDup (map u_id (users two_messages)).
Proof. vm_compute. repeat constructor; simpl; intuition discriminate. Qed.

(** Alice opens a conversation with nobody, and the admin one with alice
    once she is blocked. *)
Lemma chat_refuses_unreachable_witness :
  run (chat (Some 2) 99) two_users = mkOutcome Abort404 two_users 0%nat
  /\ run (chat (Some 1) 2) blocked_alice
     = mkOutcome
         (Redirect "dashboard" [flash "User tidak dapat dihubungi." "error"])
         blocked_alice 0%nat.
Proof.
  split.
  - refine (proj1 (@chat_refuses_unreachable sample_externals two_users 2 99
                     alice_registered eq_refl eq_refl _) eq_refl).
    split; [discriminate|reflexivity].
  - exact (proj2 (@chat_refuses_unreachable sample_externals blocked_alice 1 2
                    (admin_seen 15) eq_refl eq_refl route_key)
             alice_blocked eq_refl eq_refl).
Defined.

(** The admin has two unread messages of alice, and none once the
    conversation was opened. *)
Lemma chat_clears_unread_count_witness :
  get_unread_count two_messages sample_admin 2 = 2
  /\ get_unread_count (store_after (run (chat (Some 1) 2) two_messages))
       sample_admin 2 = 0.
Proof.
  split; [reflexivity|].
  exact (proj1 (@chat_clears_unread_count sample_externals two_messages 1 2
                  sample_admin sample_alice two_messages_keys
                  eq_refl eq_refl eq_refl eq_refl)).
Defined.

(** The admin polls with the cursor at the last key. *)
Lemma get_messages_up_to_date_witness :
  run (get_messages (Some 1) 2 (Some (lit "2"))) two_messages
  = mkOutcome (JsonMessages []) two_messages 0%nat.
Proof.
  refine (@get_messages_up_to_date sample_externals two_messages 1 2
            (Some (lit "2")) sample_admin eq_refl eq_refl route_key _ _).
  - split; [discriminate|reflexivity].
  - intros m [<-|[<-|[]]] _; vm_compute; discriminate.
Defined.

(** Alice deletes her first message; nobody finds key 99; she may not
    delete the admin's answer. *)
Lemma delete_message_outcomes_witness :
  run (delete_message (Some 2) 1) two_messages
  = mkOutcome JsonSuccess (remove_message 1 two_messages) 1%nat
  /\ run (delete_message (Some 2) 99) two_messages
     = mkOutcome (JsonRaised NotFound) two_messages 0%nat
  /\ run (delete_message (Some 2) (2 ^ 63)) two_messages
     = mkOutcome (JsonRaised OverflowError) two_messages 0%nat
  /\ run (delete_message (Some 2) 3) admin_replied
     = mkOutcome (JsonError (lit "Anda tidak memiliki akses")) admin_replied
         0%nat.
Proof.
  assert (H0 : forall k, 0 < k -> 0 <= k) by (intros k; apply Z.lt_le_incl).
  destruct (@delete_message_outcomes sample_externals two_messages 2 1
              sample_alice eq_refl eq_refl (H0 1 eq_refl))
    as [_ [_ [_ Hown]]].
  destruct (@delete_message_outcomes sample_externals two_messages 2 99
              sample_alice eq_refl eq_refl (H0 99 eq_refl)) as [Hnone _].
  destruct (@delete_message_outcomes sample_externals two_messages 2 (2 ^ 63)
              sample_alice eq_refl eq_refl (H0 (2 ^ 63) eq_refl))
    as [_ [Hbeyond _]].
  destruct (@delete_message_outcomes sample_externals admin_replied 2 3
              (set_last_seen 20 alice_registered) eq_refl eq_refl
              (H0 3 eq_refl))
    as [_ [_ [Hother _]]].
  split; [|split; [|split]].
  - exact (proj1 (Hown hello_row eq_refl (or_introl eq_refl))).
  - exact (Hnone eq_refl eq_refl).
  - exact (Hbeyond eq_refl (Z.le_refl _)).
  - refine (Hother (mkMessage 3 (Some (lit "hi")) None None false 30 1 2)
              eq_refl _ eq_refl).
    discriminate.
Defined.

(** Alice's first message is stored; without a session nothing is. *)
Lemma send_message_all_or_nothing_witness :
  fits_body (lit "hello") None
  /\ (exists row d,
        run (send_message (Some 2) (Some (lit "1")) (lit "hello") None
               (UploadRaised []) 0 20) two_users
        = mkOutcome (JsonSent d None) (add_message 0 row two_users) 1%nat
        /\ stored_row row)
  /\ store_after
       (run (send_message None (Some (lit "1")) (lit "hello") None
               (UploadRaised []) 0 20) two_users)
     = two_users.
Proof.
  assert (Hfits : fits_body (lit "hello") None) by reflexivity.
  split; [exact Hfits|]. split.
  - destruct (@send_message_all_or_nothing sample_externals two_users
                (Some 2) (Some (lit "1")) (lit "hello") None (UploadRaised [])
                0%nat 20 Hfits)
      as [[_ [Hc _]]|[row [d [public_id [receiver [Hrun H]]]]]];
      [discriminate Hc|].
    exists row, d.
    assert (Hp : public_id = None)
      by (apply (f_equal result) in Hrun; vm_compute in Hrun; congruence).
    rewrite Hp in Hrun. split; [exact Hrun|]. apply H.
  - destruct (@send_message_all_or_nothing sample_externals two_users
                None (Some (lit "1")) (lit "hello") None (UploadRaised [])
                0%nat 20 Hfits)
      as [[Hst _]|[row [d [public_id [receiver [Hrun _]]]]]];
      [exact Hst|discriminate Hrun].
Defined.

(** A third message of alice makes three unread for the admin. *)
Lemma send_message_counts_unread_witness :
  get_unread_count
    (store_after
       (run (send_message (Some 2) (Some (lit "1")) (lit "more") None
               (UploadRaised []) 0 30) two_messages))
    sample_admin 2
  = 3.
Proof.
  rewrite (@send_message_counts_unread sample_externals two_messages 2
             (Some (lit "1")) (lit "more") None (UploadRaised []) 0%nat 30
             more_dict None eq_refl sample_admin 2).
  reflexivity.
Defined.

(** Alice's first message, then the admin's poll. *)
Lemma sent_message_reaches_next_poll_witness :
  run (get_messages (Some 1) 2 None)
    (store_after
       (run (send_message (Some 2) (Some (lit "1")) (lit "hello") None
               (UploadRaised []) 0 20) two_users))
  = mkOutcome (JsonMessages [read_dict hello_dict])
      (mark_read [1]
         (store_after
            (run (send_message (Some 2) (Some (lit "1")) (lit "hello") None
                    (UploadRaised []) 0 20) two_users)))
      1%nat.
Proof.
  refine (@sent_message_reaches_next_poll sample_externals two_users 2
            (Some (lit "1")) (lit "hello") None (UploadRaised []) 0%nat 20
            hello_dict None None eq_refl route_key no_cursor _ eq_refl).
  intros m [].
Defined.


(** Alice is blocked: the admin cannot open the conversation or write. *)
Lemma blocked_account_is_unreachable_witness :
  run (chat (Some 1) 2)
    (store_after (run (toggle_block_user (Some 1) 2) two_users))
  = mkOutcome
      (Redirect "dashboard" [flash "User tidak dapat dihubungi." "error"])
      (store_after (run (toggle_block_user (Some 1) 2) two_users)) 0%nat
  /\ run (send_message (Some 1) (Some (lit "2")) (lit "hi") None
            (UploadRaised []) 0 20)
       (store_after (run (toggle_block_user (Some 1) 2) two_users))
     = mkOutcome (JsonError NotReachable)
         (store_after (run (toggle_block_user (Some 1) 2) two_users)) 0%nat.
Proof.
  destruct (@blocked_account_is_unreachable sample_externals two_users
              (store_after (run (toggle_block_user (Some 1) 2) two_users))
              1 2 admin_booted alice_registered eq_refl eq_refl eq_refl
              eq_refl eq_refl eq_refl (or_introl eq_refl)
              1 admin_booted eq_refl eq_refl) as [Hchat Hsend].
  split; [exact Hchat|].
  exact (Hsend (lit "2") (lit "hi") None (UploadRaised []) 0%nat 20
           eq_refl eq_refl).
Defined.

(** The admin asks for alice's username, and then for a free username
    with alice's email. *)
Lemma admin_settings_conflict_witness :
  run (admin_settings (Some 1) (lit "alice") admin_email [] [] [] None
         (UploadRaised [])) two_users
  = mkOutcome
      (Redirect "admin_settings" [flash "Username sudah digunakan!" "error"])
      two_users 0%nat
  /\ run (admin_settings (Some 1) (lit "root") (lit "alice@example.com") []
            [] [] None (UploadRaised [])) two_users
     = mkOutcome
         (Redirect "admin_settings" [flash "Email sudah digunakan!" "error"])
         two_users 0%nat.
Proof.
  split.
  - refine (proj1 (@admin_settings_conflict sample_externals two_users 1
                     admin_booted alice_registered (lit "alice") admin_email
                     [] [] [] None (UploadRaised []) eq_refl eq_refl eq_refl)
              _ eq_refl).
    discriminate.
  - refine (proj2 (@admin_settings_conflict sample_externals two_users 1
                     admin_booted alice_registered (lit "root")
                     (lit "alice@example.com") [] [] [] None (UploadRaised [])
                     eq_refl eq_refl eq_refl)
              (or_intror eq_refl) _ eq_refl).
    discriminate.
Defined.




(** The admin deletes alice: nobody opens a conversation with key 2. *)
Lemma deleted_account_is_gone_witness :
  run (chat (Some 1) 2)
    (store_after (run (delete_user (Some 1) 2) two_messages))
  = mkOutcome Abort404
      (store_after (run (delete_user (Some 1) 2) two_messages)) 0%nat
  /\ run (delete_user (Some 1) 2)
       (store_after (run (delete_user (Some 1) 2) two_messages))
     = mkOutcome Abort404
         (store_after (run (delete_user (Some 1) 2) two_messages)) 0%nat.
Proof.
  destruct (@deleted_account_is_gone sample_externals two_messages 1 2
              sample_admin sample_alice eq_refl eq_refl eq_refl eq_refl
              eq_refl) as [_ [_ [Hagain Hchat]]].
  split; [|exact Hagain].
  exact (proj1 (Hchat 1 sample_admin eq_refl eq_refl)).
Defined.

(** ** The reachable states on the run *)

Lemma reachable_unique_names_witness :
  NoDup (map username (users two_messages))
  /\ NoDup (map email (users two_messages)).
Proof.
  exact (@reachable_unique_names sample_externals two_messages
           two_messages_reachable).
Defined.

Lemma reachable_admins_usable_witness :
  is_active sample_admin = true /\ is_blocked sample_admin = false.
Proof.
  exact (@reachable_admins_usable sample_externals two_messages sample_admin
           two_messages_reachable (or_introl eq_refl) eq_refl).
Defined.

(** Alice asks to delete the admin. *)
Lemma admins_survive_requests_witness :
  exists u',
    In u' (users (step (as_user 2 50 0) (GetDeleteUser 1) two_messages))
    /\ u_id u' = u_id sample_admin /\ is_admin u' = true
    /\ can_chat u' = true.
Proof.
  exact (@admins_survive_requests sample_externals two_messages
           (as_user 2 50 0) (GetDeleteUser 1) sample_admin
           two_messages_reachable (or_introl eq_refl) eq_refl).
Defined.

Lemma reachable_rows_stored_witness : stored_row hello_row.
Proof.
  exact (@reachable_rows_stored sample_externals two_messages hello_row
           two_messages_reachable (or_introl eq_refl)).
Defined.

(** Alice deletes her first message: she sent it. *)
Lemma only_sender_or_admin_deletes_witness :
  exists k me,
    session_user (as_user 2 50 0) = Some k
    /\ get_user two_messages k = Some me
    /\ (is_admin me = true \/ sender_id hello_row = k).
Proof.
  refine (@only_sender_or_admin_deletes sample_externals two_messages
            (as_user 2 50 0) (PostDeleteMessage 1) hello_row
            two_messages_reachable (or_introl eq_refl) _).
  vm_compute. intros [H|[]]. discriminate H.
Defined.

(** Alice edits her profile: the admin's row is what it was. *)
Lemma requests_of_users_keep_accounts_witness :
  In sample_admin
    (users (step (as_user 2 50 0)
              (PostUpdateProfile (lit "bio") [] [] None) two_messages)).
Proof.
  refine (proj1 (@requests_of_users_keep_accounts sample_externals
                   two_messages (as_user 2 50 0)
                   (PostUpdateProfile (lit "bio") [] [] None) sample_admin
                   _ (or_introl eq_refl)) _).
  - intros k me [= <-] H. vm_compute in H. injection H as <-. reflexivity.
  - discriminate.
Defined.

(** Alice, deactivated, asks for the conversation with the admin. *)
Lemma deactivated_account_is_locked_out_witness :
  exists fl,
    run (chat (Some 2) 1) deactivated_alice
    = mkOutcome (Redirect "login" fl) deactivated_alice 0%nat.
Proof.
  exact (proj1 (proj2 (@deactivated_account_is_locked_out sample_externals
                         deactivated_alice 2 alice_deactivated
                         eq_refl eq_refl)) 1).
Defined.

(** The admin opens the conversation, then polls. *)
Lemma chat_then_poll_is_quiet_witness :
  store_after
    (run (get_messages (Some 1) 2 None)
       (store_after (run (chat (Some 1) 2) two_messages)))
  = store_after (run (chat (Some 1) 2) two_messages)
  /\ commits
       (run (get_messages (Some 1) 2 None)
          (store_after (run (chat (Some 1) 2) two_messages))) = 0%nat.
Proof.
  exact (@chat_then_poll_is_quiet sample_externals two_messages 1 2
           sample_admin sample_alice None two_messages_keys
           eq_refl eq_refl eq_refl eq_refl).
Defined.

(** Alice asks for a conversation that does not exist, at time 50. *)
Lemma request_stamps_last_seen_witness :
  exists me',
    get_user (step (as_user 2 50 0) (GetChat 99) two_messages) 2 = Some me'
    /\ last_seen me' = clock (as_user 2 50 0)
    /\ forall t,
         clock (as_user 2 50 0) <= t < clock (as_user 2 50 0) + minutes 5 ->
         is_online t me' = true.
Proof.
  exact (@request_stamps_last_seen sample_externals two_messages
           (as_user 2 50 0) (GetChat 99) 2 sample_alice
           eq_refl eq_refl eq_refl).
Defined.

(** Alice's dashboard lists the admin, with no unread message. *)
Lemma dashboard_lists_reachable_witness :
  In (sample_admin, 0) (user_data two_messages sample_alice).
Proof.
  refine (proj2 (@dashboard_lists_reachable sample_externals two_messages 2
                   sample_alice two_messages_user_keys eq_refl eq_refl)
            sample_admin (or_introl eq_refl) _ (or_intror eq_refl)).
  discriminate.
Defined.

(** Once the admin has changed its username and kept its email, nobody
    gets the dashboard. *)
Lemma dashboard_outcomes_witness :
  @reachable sample_externals admin_renamed_only
  /\ run (dashboard (Some 1) (lit "salt") 40) admin_renamed_only
     = mkOutcome Error500 admin_renamed_only 0%nat.
Proof.
  split; [unfold admin_renamed_only; repeat constructor|].
  refine (proj2 (proj2 (@dashboard_outcomes sample_externals
                          admin_renamed_only 1
                          (set_username (lit "root") (admin_seen 30))
                          (lit "salt") 40 eq_refl eq_refl)) _ _).
  - intros [u [[<-|[]] [H _]]]. discriminate H.
  - exists (set_username (lit "root") (admin_seen 30)).
    split; [now left|right; reflexivity].
Defined.

